(** * LDAQ session orchestrator: a shallow embedding of [LDAQ/core.py]

    The development follows the class [Core]: trigger propagation
    ([set_trigger]), trigger activation ([start_acquisition]), the fault
    boundary ([_stop_event_handling]), the monitor ([_check_events]) and the
    periodic persistence engine ([_save_measurement_periodically],
    [_open_and_save]).

    Conventions.
    - Python numbers ([float] and [int]) are exact rationals [Q]; [int(x)] is
      truncation toward zero.  Rounding of IEEE doubles is not modelled.
    - A Python exception is a value of [exn]; a method is a function
      [S -> S * result A] so that the mutations done before a [raise] stay
      visible, as they do on a Python object.
    - A dictionary is a [gmap]; the lists of workers are lists.
    - The threads started by [run] are the steps of a relation on sessions:
      a step is one loop iteration of the monitor, of the saving thread or
      of the caller of [run], a hotkey, progress of the worker threads, or
      the fault of a worker thread.  Sleeps and poll intervals are not
      modelled, and [run] is taken without a visualization.
    - The file system is a map from paths ([os.path], posix flavour) to
      files; directories are not modelled.

    The generator for NI hardware ([generation.py], class [NIGenerator])
    and the layout of the live visualization ([visualization.py]: the
    lines, the options of the subplots, the sizes of the ring buffers and
    the refresh rates) are embedded in the modules [NI] and [Vis]. *)

From Stdlib Require Import ZArith QArith Qround Lqa String Ascii DecimalString.
From stdpp Require Import base gmap strings list.

(** ** Python values and exceptions *)

Module Py.

Inductive exn : Type :=
| IndexError
| KeyError (msg : string)
| ValueError
| UnboundLocalError (var : string)
| ZeroDivisionError
| TypeError
| FileNotFoundError (path : string)
| Exception (msg : string).

Inductive result (A : Type) : Type :=
| Ok (a : A)
| Raise (e : exn).
Arguments Ok {A} a.
Arguments Raise {A} e.

(** State and exception monad: the state reached when the exception is
    raised is kept. *)
Definition M (S A : Type) : Type := S -> S * result A.

Definition ret {S A} (a : A) : M S A := fun s => (s, Ok a).
Definition raise {S A} (e : exn) : M S A := fun s => (s, Raise e).
Definition bind {S A B} (m : M S A) (k : A -> M S B) : M S B :=
  fun s => match m s with
           | (s', Ok a) => k a s'
           | (s', Raise e) => (s', Raise e)
           end.
Definition get {S} : M S S := fun s => (s, Ok s).
Definition modify {S} (f : S -> S) : M S unit := fun s => (f s, Ok tt).
Definition lift_result {S A} (r : result A) : M S A := fun s => (s, r).

(** [for x in xs: body x] *)
Fixpoint for_each {S A} (xs : list A) (body : A -> M S unit) : M S unit :=
  match xs with
  | [] => ret tt
  | x :: xs' => bind (body x) (fun _ => for_each xs' body)
  end.

Definition is_ok {A} (r : result A) : bool :=
  match r with Ok _ => true | Raise _ => false end.

(** [l[i]]: a negative index counts from the end. *)
Definition getitem {A} (l : list A) (i : Z) : result A :=
  let n := Z.of_nat (length l) in
  let j := if (i <? 0)%Z then (i + n)%Z else i in
  if (j <? 0)%Z then Raise IndexError
  else match l !! Z.to_nat j with
       | Some x => Ok x
       | None => Raise IndexError
       end.

(** [l.index(x)] on a list of strings. *)
Fixpoint index_from (x : string) (l : list string) (i : Z) : result Z :=
  match l with
  | [] => Raise ValueError
  | y :: l' => if String.eqb x y then Ok i else index_from x l' (i + 1)%Z
  end.
Definition index (x : string) (l : list string) : result Z :=
  index_from x l 0.

(** [l.count(x)] on a list of strings. *)
Definition count (x : string) (l : list string) : nat :=
  length (filter (fun y => x = y) l).

(** *** Numbers *)

(** [int(x)] on a float: truncation toward zero. *)
Definition int (x : Q) : Z := Z.quot (Qnum x) (Z.pos (Qden x)).

(** [a / b] on numbers; a zero divisor raises. *)
Definition truediv (a b : Q) : result Q :=
  if Qeq_bool b 0 then Raise ZeroDivisionError else Ok (a / b)%Q.

Definition Qltb (a b : Q) : bool := negb (Qle_bool b a).

(** *** Strings *)

Definition lower_ascii (c : ascii) : ascii :=
  let n := nat_of_ascii c in
  if (65 <=? n)%nat && (n <=? 90)%nat then ascii_of_nat (n + 32) else c.

(** [s.lower()], on the ASCII letters. *)
Fixpoint lower (s : string) : string :=
  match s with
  | EmptyString => EmptyString
  | String c s' => String (lower_ascii c) (lower s')
  end.

(** [str(n)] for an [int]. *)
Definition str (n : Z) : string := NilZero.string_of_int (Z.to_int n).

Fixpoint zeros (n : nat) : string :=
  match n with
  | O => EmptyString
  | S n' => String "0" (zeros n')
  end.

(** [s.zfill(width)]: left padding with zeros, after a leading sign. *)
Definition zfill (width : nat) (s : string) : string :=
  let fill := zeros (width - String.length s) in
  match s with
  | String "+" rest => String "+" (fill +:+ rest)
  | String "-" rest => String "-" (fill +:+ rest)
  | _ => fill +:+ s
  end.

(** Position of the last occurrence of [c] in [s], counted from 0. *)
Fixpoint rfind_from (c : ascii) (s : string) (i : nat) (last : option nat)
  : option nat :=
  match s with
  | EmptyString => last
  | String d s' =>
      rfind_from c s' (S i) (if Ascii.eqb c d then Some i else last)
  end.
Definition rfind (c : ascii) (s : string) : option nat :=
  rfind_from c s 0 None.

(** Is some character of [s] in positions [lo <= i < hi] different from a
    dot?  ([os.path.splitext] skips the leading dots of the last
    component.) *)
Fixpoint has_non_dot (s : string) (lo hi : nat) : bool :=
  match s, hi with
  | EmptyString, _ => false
  | _, O => false
  | String c s', S hi' =>
      match lo with
      | O => negb (Ascii.eqb c ".") || has_non_dot s' 0 hi'
      | S lo' => has_non_dot s' lo' hi'
      end
  end.

(** [os.path.splitext(p)] (posix flavour): the extension starts at the
    last dot of the last path component, unless that component has only
    dots before it. *)
Definition splitext (p : string) : string * string :=
  match rfind "." p with
  | None => (p, EmptyString)
  | Some dot =>
      let start := match rfind "/" p with
                   | Some sep => S sep
                   | None => 0
                   end in
      if (start <=? dot)%nat && has_non_dot p start dot
      then (substring 0 dot p, substring dot (String.length p - dot) p)
      else (p, EmptyString)
  end.

Definition ends_with_slash (s : string) : bool :=
  match rfind "/" s with
  | Some i => (S i =? String.length s)%nat
  | None => false
  end.

(** [os.path.join(a, b)] (posix flavour). *)
Definition path_join (a b : string) : string :=
  match b with
  | String "/" _ => b
  | _ => if (String.length a =? 0)%nat || ends_with_slash a
         then a +:+ b
         else a +:+ "/" +:+ b
  end.

End Py.
Import Py.

Declare Scope py_scope.
Delimit Scope py_scope with py.
Notation "'let*' x ':=' m 'in' k" := (Py.bind m (fun x => k))
  (at level 10, x name, m at level 100, k at level 200) : py_scope.
Notation "'let*' ' p ':=' m 'in' k" := (Py.bind m (fun p => k))
  (at level 10, p pattern, m at level 100, k at level 200) : py_scope.
Open Scope py_scope.

(** ** Workers

    The acquisition classes are external to [core.py]; an acquisition
    worker is the state that [Core] reads, together with the log of the
    primitives that [Core] invokes on it. *)

(** A drained measurement and an entry of a saved accumulator: the keys
    ['time'], ['data'] and ['video'] of the dictionary returned by
    [get_measurement_dict].  ['data'] has one row per sample, ['video'] one
    block of frames per video channel.  Only the first dimension of the
    arrays is tracked (the other keys of the dictionary are not touched by
    [Core]). *)
Definition Row : Type := list Q.
Definition Frame : Type := list (list Q).

Record Measurement : Type := {
  m_time : list Q;
  m_data : option (list Row);
  m_video : option (list (list Frame));
}.

Inductive Channel : Type :=
| ChannelIndex (i : Z)
| ChannelName (s : string).

(** The primitives of an acquisition worker that [Core] calls. *)
Inductive AcqCall : Type :=
| Call_set_trigger (level : Q) (channel : Channel) (duration : Q)
    (duration_unit : string) (presamples : Z) (type : string)
| Call_update_trigger_parameters (duration : option Q)
    (duration_unit : option string) (presamples : option Z)
    (level : option Q)
| Call_reset_trigger
| Call_set_continuous_mode (enabled : bool) (measurement_duration : option Q)
| Call_all_acquisitions_ready
| Call_lock_acquire
| Call_activate_trigger
| Call_lock_release
| Call_stop
| Call_get_measurement_dict_new.

Record Acquisition : Type := {
  acquisition_name : string;
  sample_rate : Q;
  is_running : bool;
  is_ready : bool;
  is_triggered : bool;
  all_acquisitions_ready : bool;
  is_standalone : bool;
  new_samples : Measurement;
  calls : list AcqCall;
}.

Definition acq_log (c : AcqCall) (a : Acquisition) : Acquisition :=
  {| acquisition_name := acquisition_name a; sample_rate := sample_rate a;
     is_running := is_running a; is_ready := is_ready a;
     is_triggered := is_triggered a;
     all_acquisitions_ready := all_acquisitions_ready a;
     is_standalone := is_standalone a; new_samples := new_samples a;
     calls := calls a ++ [c] |}.

(** Modelled from the spec: the readiness latch of an acquisition worker
    ([_all_acquisitions_ready] is not in [core.py]); the spec has the
    readiness gate "checked once, latched". *)
Definition acq_latch_ready (a : Acquisition) : Acquisition :=
  let a := acq_log Call_all_acquisitions_ready a in
  {| acquisition_name := acquisition_name a; sample_rate := sample_rate a;
     is_running := is_running a; is_ready := is_ready a;
     is_triggered := is_triggered a;
     all_acquisitions_ready := true;
     is_standalone := is_standalone a; new_samples := new_samples a;
     calls := calls a |}.

Definition empty_like (m : Measurement) : Measurement :=
  {| m_time := [];
     m_data := match m_data m with Some _ => Some [] | None => None end;
     m_video := match m_video m with
                | Some v => Some (map (fun _ => []) v)
                | None => None
                end |}.

(** Modelled from the spec: [get_measurement_dict(N_points="new")] of an
    acquisition worker (not in [core.py]) fetches "only newly captured
    samples (data not yet drained)": it returns [new_samples] and leaves
    nothing to drain. *)
Definition acq_drain (a : Acquisition) : Measurement * Acquisition :=
  let a' := acq_log Call_get_measurement_dict_new a in
  (new_samples a,
   {| acquisition_name := acquisition_name a'; sample_rate := sample_rate a';
      is_running := is_running a'; is_ready := is_ready a';
      is_triggered := is_triggered a';
      all_acquisitions_ready := all_acquisitions_ready a';
      is_standalone := is_standalone a';
      new_samples := empty_like (new_samples a);
      calls := calls a' |}).

Definition acq_set_standalone (b : bool) (a : Acquisition) : Acquisition :=
  {| acquisition_name := acquisition_name a; sample_rate := sample_rate a;
     is_running := is_running a; is_ready := is_ready a;
     is_triggered := is_triggered a;
     all_acquisitions_ready := all_acquisitions_ready a;
     is_standalone := b; new_samples := new_samples a;
     calls := calls a |}.

(** [generation.py], class [BaseGenerator]. *)
Record Generation : Type := {
  generation_name : string;
  gen_is_running : bool;
  gen_terminated : nat;   (* calls of [terminate_data_source] *)
}.

(** [BaseGenerator.stop] *)
Definition gen_stop (g : Generation) : Generation :=
  {| generation_name := generation_name g;
     gen_is_running := false;
     gen_terminated := S (gen_terminated g) |}.

Record Control : Type := {
  ctl_is_running : bool;
}.

(** ** The class [Core] *)

Inductive Output : Type :=
| Print (s : string)
| PrintTable (header : string * string) (rows : list (string * string))
| PrintException (e : exn).     (* [traceback.print_exception] *)

(** The attributes of a [Core] object.  Those from [run_name] on are
    assigned by [run] before any thread is started. *)
Record Core : Type := {
  acquisitions : list Acquisition;
  generations : list Generation;
  controls : list Control;
  acquisition_names : list string;
  generation_names : list string;
  trigger_source_index : option Z;
  measurement_duration : option Q;
  run_name : string;
  root : string;
  save_interval : option Q;
  autostart : bool;
  verbose : Z;
  is_running_global : bool;
  triggered_globally : bool;
  first : bool;
  stop_event : bool;
  stdout : list Output;
}.

Definition set_acquisitions (v : list Acquisition) (c : Core) : Core :=
  {| acquisitions := v; generations := generations c; controls := controls c;
     acquisition_names := acquisition_names c;
     generation_names := generation_names c;
     trigger_source_index := trigger_source_index c;
     measurement_duration := measurement_duration c;
     run_name := run_name c; root := root c;
     save_interval := save_interval c; autostart := autostart c;
     verbose := verbose c; is_running_global := is_running_global c;
     triggered_globally := triggered_globally c; first := first c;
     stop_event := stop_event c; stdout := stdout c |}.

Definition set_generations (v : list Generation) (c : Core) : Core :=
  {| acquisitions := acquisitions c; generations := v; controls := controls c;
     acquisition_names := acquisition_names c;
     generation_names := generation_names c;
     trigger_source_index := trigger_source_index c;
     measurement_duration := measurement_duration c;
     run_name := run_name c; root := root c;
     save_interval := save_interval c; autostart := autostart c;
     verbose := verbose c; is_running_global := is_running_global c;
     triggered_globally := triggered_globally c; first := first c;
     stop_event := stop_event c; stdout := stdout c |}.

Definition set_trigger_source_index (v : option Z) (c : Core) : Core :=
  {| acquisitions := acquisitions c; generations := generations c;
     controls := controls c;
     acquisition_names := acquisition_names c;
     generation_names := generation_names c;
     trigger_source_index := v;
     measurement_duration := measurement_duration c;
     run_name := run_name c; root := root c;
     save_interval := save_interval c; autostart := autostart c;
     verbose := verbose c; is_running_global := is_running_global c;
     triggered_globally := triggered_globally c; first := first c;
     stop_event := stop_event c; stdout := stdout c |}.

Definition set_measurement_duration (v : option Q) (c : Core) : Core :=
  {| acquisitions := acquisitions c; generations := generations c;
     controls := controls c;
     acquisition_names := acquisition_names c;
     generation_names := generation_names c;
     trigger_source_index := trigger_source_index c;
     measurement_duration := v;
     run_name := run_name c; root := root c;
     save_interval := save_interval c; autostart := autostart c;
     verbose := verbose c; is_running_global := is_running_global c;
     triggered_globally := triggered_globally c; first := first c;
     stop_event := stop_event c; stdout := stdout c |}.

Definition set_is_running_global (v : bool) (c : Core) : Core :=
  {| acquisitions := acquisitions c; generations := generations c;
     controls := controls c;
     acquisition_names := acquisition_names c;
     generation_names := generation_names c;
     trigger_source_index := trigger_source_index c;
     measurement_duration := measurement_duration c;
     run_name := run_name c; root := root c;
     save_interval := save_interval c; autostart := autostart c;
     verbose := verbose c; is_running_global := v;
     triggered_globally := triggered_globally c; first := first c;
     stop_event := stop_event c; stdout := stdout c |}.

Definition set_triggered_globally (v : bool) (c : Core) : Core :=
  {| acquisitions := acquisitions c; generations := generations c;
     controls := controls c;
     acquisition_names := acquisition_names c;
     generation_names := generation_names c;
     trigger_source_index := trigger_source_index c;
     measurement_duration := measurement_duration c;
     run_name := run_name c; root := root c;
     save_interval := save_interval c; autostart := autostart c;
     verbose := verbose c; is_running_global := is_running_global c;
     triggered_globally := v; first := first c;
     stop_event := stop_event c; stdout := stdout c |}.

Definition set_first (v : bool) (c : Core) : Core :=
  {| acquisitions := acquisitions c; generations := generations c;
     controls := controls c;
     acquisition_names := acquisition_names c;
     generation_names := generation_names c;
     trigger_source_index := trigger_source_index c;
     measurement_duration := measurement_duration c;
     run_name := run_name c; root := root c;
     save_interval := save_interval c; autostart := autostart c;
     verbose := verbose c; is_running_global := is_running_global c;
     triggered_globally := triggered_globally c; first := v;
     stop_event := stop_event c; stdout := stdout c |}.

Definition set_stop_event (v : bool) (c : Core) : Core :=
  {| acquisitions := acquisitions c; generations := generations c;
     controls := controls c;
     acquisition_names := acquisition_names c;
     generation_names := generation_names c;
     trigger_source_index := trigger_source_index c;
     measurement_duration := measurement_duration c;
     run_name := run_name c; root := root c;
     save_interval := save_interval c; autostart := autostart c;
     verbose := verbose c; is_running_global := is_running_global c;
     triggered_globally := triggered_globally c; first := first c;
     stop_event := v; stdout := stdout c |}.

(** [print(...)] *)
Definition print (o : Output) (c : Core) : Core :=
  {| acquisitions := acquisitions c; generations := generations c;
     controls := controls c;
     acquisition_names := acquisition_names c;
     generation_names := generation_names c;
     trigger_source_index := trigger_source_index c;
     measurement_duration := measurement_duration c;
     run_name := run_name c; root := root c;
     save_interval := save_interval c; autostart := autostart c;
     verbose := verbose c; is_running_global := is_running_global c;
     triggered_globally := triggered_globally c; first := first c;
     stop_event := stop_event c; stdout := stdout c ++ [o] |}.

(** [Core._print_table] *)
Definition _print_table : Output :=
  PrintTable ("HOTKEY", "DESCRIPTION")
    [("s", "Start the measurement manually (ignore trigger)");
     ("q", "Stop the measurement")].

(** [any(names.count(s) > 1 for s in set(names))] *)
Definition has_duplicates (names : list string) : bool :=
  existsb (fun s => (1 <? count s names)%nat) names.

(** The object built by [Core.__init__] when the names are unique.  The
    attributes that [run] assigns get the values [run] starts from. *)
Definition new_core (acquisitions : list Acquisition)
    (generations : list Generation) (controls : list Control) : Core :=
  {| acquisitions := acquisitions; generations := generations;
     controls := controls;
     acquisition_names := map acquisition_name acquisitions;
     generation_names := map generation_name generations;
     trigger_source_index := None;
     measurement_duration := None;
     run_name := "Run"; root := ""; save_interval := None;
     autostart := false; verbose := 2; is_running_global := false;
     triggered_globally := false; first := true;
     stop_event := false; stdout := [] |}.

(** [Core.__init__].  A [None] argument stands for the empty list. *)
Definition __init__ (acqs : option (list Acquisition))
    (gens : option (list Generation)) (ctls : option (list Control))
  : result Core :=
  let acquisitions := default [] acqs in
  let generations := default [] gens in
  let controls := default [] ctls in
  if has_duplicates (map acquisition_name acquisitions) then
    Raise (Exception "Two or more acquisition sources have the same name. Please make them unique.")
  else if has_duplicates (map generation_name generations) then
    Raise (Exception "Two or more generation sources have the same name. Please make them unique.")
  else Ok (new_core acquisitions generations controls).

(** [self.acquisitions[i]] *)
Definition acquisition_at (i : Z) : M Core Acquisition :=
  fun c => (c, getitem (acquisitions c) i).

(** A primitive of the worker [self.acquisitions[i]] is run: the object in
    the list is mutated in place. *)
Definition on_acquisition (i : Z) (f : Acquisition -> Acquisition)
  : M Core unit :=
  let* a := acquisition_at i in
  fun c =>
    let n := Z.of_nat (length (acquisitions c)) in
    let j := if (i <? 0)%Z then (i + n)%Z else i in
    (set_acquisitions (<[Z.to_nat j := f a]> (acquisitions c)) c, Ok tt).

(** *** [Core.set_trigger] *)

Inductive Source : Type :=
| SourceIndex (i : Z)
| SourceName (name : string).

Record TriggerSpec : Type := {
  ts_channel : Channel;
  ts_level : Q;
  ts_duration : Q;
  ts_duration_unit : string;
  ts_presamples : Z;
  ts_trigger_type : string;
}.

(** One iteration of [for idx, acq in enumerate(self.acquisitions)].
    [source_sample_rate] is the local variable of that name: [None] while it
    is unbound (it is assigned in the branch of the other sources only); the
    iteration returns its new value. *)
Definition set_trigger_iteration (idx : nat) (source : Z) (channel : Channel)
    (level duration : Q) (duration_unit : string) (presamples : Z)
    (trigger_type : string) (source_sample_rate : option Q)
  : M Core (option Q) :=
  let* source_sample_rate :=
    if (Z.of_nat idx =? source)%Z then
      let* _ := on_acquisition (Z.of_nat idx)
                  (acq_log (Call_set_trigger level channel duration
                              duration_unit presamples trigger_type)) in
      ret source_sample_rate
    else
      let* src := acquisition_at source in
      let source_sample_rate := sample_rate src in
      let* presamples_seconds :=
        lift_result (truediv (inject_Z presamples) source_sample_rate) in
      let* acq := acquisition_at (Z.of_nat idx) in
      let presamples_other :=
        int (presamples_seconds * sample_rate acq)%Q in
      if String.eqb duration_unit "seconds" then
        let duration_seconds := duration in
        let* _ := on_acquisition (Z.of_nat idx)
                    (acq_log (Call_update_trigger_parameters
                                (Some duration_seconds) (Some "seconds")
                                (Some presamples_other) None)) in
        ret (Some source_sample_rate)
      else if String.eqb duration_unit "samples" then
        let* duration_seconds :=
          lift_result (truediv duration source_sample_rate) in
        let duration_samples :=
          int (duration_seconds * sample_rate acq)%Q in
        let* _ := on_acquisition (Z.of_nat idx)
                    (acq_log (Call_update_trigger_parameters
                                (Some (inject_Z duration_samples))
                                (Some "samples")
                                (Some presamples_other) None)) in
        ret (Some source_sample_rate)
      else
        raise (KeyError "Invalid duration unit specified. Only 'seconds' and 'samples' are possible.")
  in
  let* _ :=
    if String.eqb duration_unit "seconds" then
      modify (set_measurement_duration (Some duration))
    else if String.eqb duration_unit "samples" then
      match source_sample_rate with
      | None => raise (UnboundLocalError "source_sample_rate")
      | Some rate =>
          let* d := lift_result (truediv duration rate) in
          modify (set_measurement_duration (Some d))
      end
    else ret tt (* should not happen *)
  in
  ret source_sample_rate.

(** The loop over the indices [idxs] of [self.acquisitions]. *)
Fixpoint set_trigger_loop (idxs : list nat) (source : Z) (channel : Channel)
    (level duration : Q) (duration_unit : string) (presamples : Z)
    (trigger_type : string) (source_sample_rate : option Q) : M Core unit :=
  match idxs with
  | [] => ret tt
  | idx :: idxs' =>
      let* source_sample_rate :=
        set_trigger_iteration idx source channel level duration
          duration_unit presamples trigger_type source_sample_rate in
      set_trigger_loop idxs' source channel level duration duration_unit
        presamples trigger_type source_sample_rate
  end.

Definition set_trigger (source : Source) (spec : TriggerSpec) : M Core unit :=
  let duration_unit := lower (ts_duration_unit spec) in
  let trigger_type := lower (ts_trigger_type spec) in
  let duration :=
    if String.eqb duration_unit "samples"
    then inject_Z (int (ts_duration spec))
    else ts_duration spec in
  let* source :=
    match source with
    | SourceName name =>
        let* c := get in lift_result (index name (acquisition_names c))
    | SourceIndex i => ret i
    end in
  let* _ := modify (set_trigger_source_index (Some source)) in
  let* c := get in
  set_trigger_loop (seq 0 (length (acquisitions c))) source
    (ts_channel spec) (ts_level spec) duration duration_unit
    (ts_presamples spec) trigger_type None.

(** *** [Core.stop_acquisition_and_generation]

    Each [stop] is run inside [try: ... except: pass].  An acquisition
    worker's [stop] is external: the call is logged. *)
Definition stop_acquisition_and_generation : M Core unit :=
  let* _ := modify (fun c =>
              set_acquisitions (map (acq_log Call_stop) (acquisitions c)) c) in
  modify (fun c => set_generations (map gen_stop (generations c)) c).

(** *** [Core.start_acquisition]

    [with self.acquisitions[0].lock_acquisition:] takes and releases the
    lock of the first acquisition source around the activation. *)
Definition start_acquisition : M Core unit :=
  let* c := get in
  if negb (triggered_globally c) then
    let* _ := modify (set_triggered_globally true) in
    let* _ := on_acquisition 0 (acq_log Call_lock_acquire) in
    let* _ := on_acquisition 0 (acq_log Call_activate_trigger) in
    on_acquisition 0 (acq_log Call_lock_release)
  else ret tt.

(** *** [Core._check_events] *)

(** [all(not w.is_running for w in ws) and len(ws) > 0] is the condition
    under which a category of workers is reported as ended. *)
Definition category_running {W} (alive : W -> bool) (ws : list W) : bool :=
  negb (forallb (fun w => negb (alive w)) ws && (0 <? length ws)%nat).

Definition verbose_in_1_2 (c : Core) : bool :=
  (verbose c =? 1)%Z || (verbose c =? 2)%Z.

(** One iteration of the body of [while self.is_running_global:].
    [additional_check_functions] is [None] when the attribute was never set
    by [add_check_events]. *)
Definition _check_events_body
    (additional_check_functions : option (list (Core -> bool)))
  : M Core unit :=
  let* c := get in
  let acquisition_running := category_running is_running (acquisitions c) in
  let generation_running := category_running gen_is_running (generations c) in
  let control_running := category_running ctl_is_running (controls c) in
  let* _ := modify (set_is_running_global
                      (acquisition_running && generation_running
                       && control_running)) in
  (* check that all acquisitions are ready: *)
  let* acq0 := acquisition_at 0 in
  let* _ :=
    if negb (all_acquisitions_ready acq0) then
      let* c := get in
      if forallb is_ready (acquisitions c) then
        let* _ := on_acquisition 0 acq_latch_ready in
        let* c := get in
        if autostart c then start_acquisition else ret tt
      else ret tt
    else ret tt in
  let* c := get in
  let* _ :=
    if existsb is_triggered (acquisitions c) && negb (triggered_globally c)
    then modify (set_triggered_globally true)
    else ret tt in
  let* c := get in
  let* _ :=
    if first c && triggered_globally c then
      let* _ :=
        if verbose_in_1_2 c then
          let* _ := modify (print (Print "")) in
          let* _ := modify (print (Print "triggered.")) in
          modify (print (Print "	Recording..."))
        else ret tt in
      modify (set_first false)
    else ret tt in
  match additional_check_functions with
  | Some funs =>
      for_each funs (fun fn =>
        let* c := get in
        if fn c then stop_acquisition_and_generation else ret tt)
  | None => ret tt
  end.

(** [add_check_events]: the previous functions are erased. *)
Definition add_check_events (args : list (Core -> bool))
    (previous : option (list (Core -> bool)))
  : option (list (Core -> bool)) :=
  Some ([] ++ args).

(** ** The persistence engine *)

(** A saved accumulator maps the name of a worker to its entry; a file has
    the size of its pickle and the accumulator it holds; the disk maps a
    path to a file. *)
Record File : Type := {
  file_size : Z;
  file_content : gmap string Measurement;
}.

Record World : Type := {
  core : Core;
  disk : gmap string File;
}.

Definition on_core {A} (m : M Core A) : M World A :=
  fun w => let '(c, r) := m (core w) in ({| core := c; disk := disk w |}, r).

(** *** [Core._stop_event_handling]

    The wrapper around the body of every thread; the body may act on the
    disk as well as on the [Core] object. *)
Definition _stop_event_handling {A} (func : M World A) : M World (option A) :=
  fun w =>
    match func w with
    | (w', Ok a) => (w', Ok (Some a))
    | (w', Raise e) =>
        let c := print (Print "An exception occurred in a process:")
                   (core w') in
        let c := print (PrintException e) c in
        ({| core := set_stop_event true c; disk := disk w' |}, Ok None)
    end.

(** [BaseGenerator.run_generation] ([generation.py]): one iteration of
    [while self.is_running: self.generate()] for the generator at index [i];
    [generate] is the method of the subclass.  The loop does not touch
    [is_running]: the flag of a generator whose [generate] raises stays
    set. *)
Definition run_generation_iteration (i : nat) (generate : M World unit)
  : M World unit :=
  let* w := get in
  match generations (core w) !! i with
  | Some g => if gen_is_running g then generate else ret tt
  | None => ret tt
  end.

Section Persistence.

(** The size in bytes of [pickle.dump(data, f, protocol=-1)]: the encoding
    is external. *)
Variable pickled_size : gmap string Measurement -> Z.

Definition max_file_size : Z := 200 * 1024 * 1024.

(** [os.path.exists] and [os.path.getsize] *)
Definition path_exists (path : string) : M World bool :=
  fun w => (w, Ok (bool_decide (is_Some (disk w !! path)))).
Definition getsize (path : string) : M World Z :=
  fun w => (w, match disk w !! path with
               | Some f => Ok (file_size f)
               | None => Raise (FileNotFoundError path)
               end).

(** Modelled from the spec: [utils.load_measurement(name, root)] (not in
    [core.py]) loads the accumulator persisted in the file [name] of the
    directory [root]. *)
Definition load_measurement (name directory : string)
  : M World (gmap string Measurement) :=
  fun w => (w, match disk w !! path_join directory name with
               | Some f => Ok (file_content f)
               | None => Raise (FileNotFoundError (path_join directory name))
               end).

(** [with open(file_path, 'wb') as f: pickle.dump(data, f, protocol=-1)] *)
Definition dump (path : string) (data : gmap string Measurement)
  : M World unit :=
  modify (fun w =>
    {| core := core w;
       disk := <[path := {| file_size := pickled_size data;
                            file_content := data |}]> (disk w) |}).

(** [{acq.acquisition_name: data[acq.acquisition_name]["time"][-1]
      for acq in self.acquisitions}] *)
Fixpoint time_last_of (data : gmap string Measurement)
    (acqs : list Acquisition) (acc : gmap string Q)
  : result (gmap string Q) :=
  match acqs with
  | [] => Ok acc
  | acq :: acqs' =>
      match data !! acquisition_name acq with
      | None => Raise (KeyError (acquisition_name acq))
      | Some entry =>
          match last (m_time entry) with
          | None => Raise IndexError
          | Some t =>
              time_last_of data acqs' (<[acquisition_name acq := t]> acc)
          end
      end
  end.

(** [{acq.acquisition_name: 0 for acq in self.acquisitions}] *)
Definition time_zero_of (acqs : list Acquisition) : gmap string Q :=
  foldl (fun acc acq => <[acquisition_name acq := 0%Q]> acc) ∅ acqs.

(** [[np.concatenate((old[i], new[i]), axis=0) for i in range(len(new))]] *)
Fixpoint concat_video (old new : list (list Frame)) {struct new}
  : result (list (list Frame)) :=
  match new with
  | [] => Ok []
  | n :: new' =>
      match old with
      | [] => Raise IndexError
      | o :: old' =>
          match concat_video old' new' with
          | Ok r => Ok ((o ++ n) :: r)
          | Raise e => Raise e
          end
      end
  end.

(** The entry of a worker absent from the target file: the measurement,
    its times shifted in place. *)
Definition first_entry (measurement : Measurement) (offset : Q)
  : Measurement :=
  {| m_time := map (fun t => t + offset)%Q (m_time measurement);
     m_data := m_data measurement;
     m_video := m_video measurement |}.

(** The entry of a worker present in the target file, extended. *)
Definition extend_entry (entry measurement : Measurement)
    (time_last : Q) (period : Q) : result Measurement :=
  let new_time :=
    map (fun t => t + time_last + period)%Q (m_time measurement) in
  let time' := m_time entry ++ new_time in
  match
    match m_data measurement with
    | Some new_data =>
        match m_data entry with
        | Some old => Ok (Some (old ++ new_data))
        | None => Raise (KeyError "data")
        end
    | None => Ok (m_data entry)
    end
  with
  | Raise e => Raise e
  | Ok data' =>
      match
        match m_video measurement with
        | Some new_video =>
            match m_video entry with
            | Some old =>
                match concat_video old new_video with
                | Ok v => Ok (Some v)
                | Raise e => Raise e
                end
            | None => Raise (KeyError "video")
            end
        | None => Ok (m_video entry)
        end
      with
      | Raise e => Raise e
      | Ok video' =>
          Ok {| m_time := time'; m_data := data'; m_video := video' |}
      end
  end.

(** One iteration of [for acq in self.acquisitions], for the source at
    index [idx]; [data] is the accumulator being updated. *)
Definition update_iteration (idx : nat) (time_last_dict : gmap string Q)
    (data : gmap string Measurement) : M Core (gmap string Measurement) :=
  let* acq := acquisition_at (Z.of_nat idx) in
  let name := acquisition_name acq in
  if is_triggered acq then
    let measurement := (acq_drain acq).1 in
    let* _ := on_acquisition (Z.of_nat idx) (fun a => (acq_drain a).2) in
    match data !! name with
    | None =>
        let* carried :=
          match time_last_dict !! name with
          | Some t => ret t
          | None => raise (KeyError name)
          end in
        let* period := lift_result (truediv 1 (sample_rate acq)) in
        ret (<[name := first_entry measurement (carried + period)%Q]> data)
    | Some entry =>
        let* time_last :=
          match last (m_time entry) with
          | Some t => ret t
          | None =>
              match time_last_dict !! name with
              | Some t => ret t
              | None => raise (KeyError name)
              end
          end in
        let* period := lift_result (truediv 1 (sample_rate acq)) in
        let* entry' :=
          lift_result (extend_entry entry measurement time_last period) in
        ret (<[name := entry']> data)
    end
  else ret data.

Fixpoint update_loop (idxs : list nat) (time_last_dict : gmap string Q)
    (data : gmap string Measurement) : M Core (gmap string Measurement) :=
  match idxs with
  | [] => ret data
  | idx :: idxs' =>
      let* data := update_iteration idx time_last_dict data in
      update_loop idxs' time_last_dict data
  end.

(** *** [Core._open_and_save] *)
Definition _open_and_save (file_name_base directory : string)
    (file_index : Z) : M World Z :=
  let '(file_name_base, ext) := splitext file_name_base in
  let file_index_str := zfill 4 (str file_index) in
  let file_name := file_name_base +:+ "_" +:+ file_index_str +:+ ext in
  let file_path := path_join directory file_name in
  (* Load existing data *)
  let* present := path_exists file_path in
  let* current_file_size := if present then getsize file_path else ret 0%Z in
  let* w := get in
  let* '(file_index, time_last_dict) :=
    if (max_file_size <=? current_file_size)%Z then
      let file_index := (file_index + 1)%Z in
      (* get previous times for each acquisition: *)
      let* data := load_measurement file_name directory in
      let* d := lift_result
                  (time_last_of data (acquisitions (core w)) ∅) in
      ret (file_index, d)
    else ret (file_index, time_zero_of (acquisitions (core w))) in
  let file_name := file_name_base +:+ "_" +:+ str file_index +:+ ext in
  let file_path := path_join directory file_name in
  let* present := path_exists file_path in
  let* data := if present then load_measurement file_name directory
               else ret ∅ in
  (* Update data with new measurements *)
  let* data := on_core (update_loop (seq 0 (length (acquisitions (core w))))
                          time_last_dict data) in
  (* Save updated data *)
  let* _ := dump file_path data in
  ret file_index.

(** *** [Core._save_measurement_periodically] *)

(** The local variables of the function; [file_name] is [None] while the
    variable is unbound. *)
Record SaverLocals : Type := {
  start_time : Q;
  file_index : Z;
  file_created : bool;
  file_name : option string;
  running : bool;
  delay_start : Q;
}.

(** What one iteration reads from the clock: the three calls of
    [time.time()] and [datetime.datetime.now()] formatted with
    ['%Y%m%d_%H%M%S']. *)
Record Clock : Type := {
  t_delay : Q;
  t_elapsed : Q;
  t_restart : Q;
  now_stamp : string;
}.

Definition delay_saving : Q := 1 # 2.

(** The locals when the loop is entered; [now] is [time.time()]. *)
Definition saver_enter (now : Q) : SaverLocals :=
  {| start_time := now; file_index := 0; file_created := false;
     file_name := None; running := true; delay_start := now |}.

(** One iteration of [while running:]. *)
Definition saver_iteration (clk : Clock) (l : SaverLocals)
  : M World SaverLocals :=
  let* w := get in
  let name := run_name (core w) in
  let directory := root (core w) in
  (* implemented time delay: *)
  let '(running, delay_start) :=
    if is_running_global (core w) then (running l, t_delay clk)
    else if Qltb delay_saving (t_delay clk - delay_start l)%Q
         then (false, delay_start l)
         else (running l, delay_start l) in
  (* periodic saving: *)
  let* w := get in
  if triggered_globally (core w) then
    let elapsed_time := (t_elapsed clk - start_time l)%Q in
    let* interval :=
      match save_interval (core w) with
      | Some i => ret i
      | None => raise TypeError
      end in
    if Qle_bool interval elapsed_time then
      let start_time := t_restart clk in
      let '(file_name, file_created) :=
        if negb (file_created l)
        then (Some (now_stamp clk +:+ "_" +:+ name +:+ ".pkl"), true)
        else (file_name l, file_created l) in
      let* file_name_v :=
        match file_name with
        | Some f => ret f
        | None => raise (UnboundLocalError "file_name")
        end in
      let* file_index := _open_and_save file_name_v directory
                           (file_index l) in
      ret {| start_time := start_time; file_index := file_index;
             file_created := file_created; file_name := file_name;
             running := running; delay_start := delay_start |}
    else
      ret {| start_time := start_time l; file_index := file_index l;
             file_created := file_created l; file_name := file_name l;
             running := running; delay_start := delay_start |}
  else
    ret {| start_time := start_time l; file_index := file_index l;
           file_created := file_created l; file_name := file_name l;
           running := running; delay_start := delay_start |}.

(** The statements after the loop. *)
Definition saver_final (l : SaverLocals) : M World unit :=
  let* w := get in
  if triggered_globally (core w) then
    let* file_name_v :=
      match file_name l with
      | Some f => ret f
      | None => raise (UnboundLocalError "file_name")
      end in
    let* _ := _open_and_save file_name_v (root (core w)) (file_index l) in
    ret tt
  else ret tt.

(** ** A session: the threads started by [Core.run]

    [run] without a visualization.  Every thread body runs inside
    [_stop_event_handling]; the threads interleave at the granularity of
    one loop iteration. *)

Inductive TaskStatus : Type := Alive | Finished | Faulted.
Inductive MainStatus : Type := Polling | Joining | Returned.

Record Session : Type := {
  world : World;
  additional_check_functions : option (list (Core -> bool));
  monitor : TaskStatus;                 (* thread of [_check_events] *)
  saver : TaskStatus;                   (* thread of periodic saving *)
  saver_locals : SaverLocals;
  main : MainStatus;                    (* the caller of [run] *)
}.

(** The configuration of one acquisition source in [run]. *)
Definition run_configure (measurement_duration save_interval : option Q)
    (autostart : bool) (acquisition : Acquisition) : Acquisition :=
  let a := acq_set_standalone false acquisition in
  let a := acq_log Call_reset_trigger a in
  let a := match measurement_duration with
           | Some d => acq_log (Call_update_trigger_parameters
                                  (Some d) (Some "seconds") None None) a
           | None => a
           end in
  let a := match save_interval with
           | Some i =>
               let a := acq_log (Call_set_continuous_mode true
                                   measurement_duration) a in
               acq_log (Call_update_trigger_parameters
                          (Some ((12 # 10) * i)%Q) (Some "seconds")
                          None None) a
           | None => acq_log (Call_set_continuous_mode false None) a
           end in
  if autostart
  then acq_log (Call_update_trigger_parameters None None None
                  (Some (inject_Z (10 ^ 40)))) a
  else a.

(** [Core.run] up to the start of the threads: the attributes are
    assigned and the acquisition sources configured. *)
Definition run_setup (duration : option Q) (autostart_ : bool)
    (save_interval_ : option Q) (run_name_ root_ : string) (verbose_ : Z)
    (c : Core) : Core :=
  let measurement_duration_ :=
    match duration with
    | Some d => Some d
    | None => measurement_duration c
    end in
  let out := (if (verbose_ =? 2)%Z then [_print_table] else [])
             ++ (if (verbose_ =? 1)%Z || (verbose_ =? 2)%Z
                 then [Print "Waiting for trigger..."] else []) in
  {| acquisitions :=
       map (run_configure measurement_duration_ save_interval_ autostart_)
         (acquisitions c);
     generations := generations c; controls := controls c;
     acquisition_names := acquisition_names c;
     generation_names := generation_names c;
     trigger_source_index := trigger_source_index c;
     measurement_duration := measurement_duration_;
     run_name := run_name_; root := root_;
     save_interval := save_interval_; autostart := autostart_;
     verbose := verbose_; is_running_global := true;
     triggered_globally := false; first := true;
     stop_event := false; stdout := stdout c ++ out |}.

(** The session when the threads have just been started; [now] is the
    clock when the saving thread enters its function.  The saving thread
    exists only with a save interval. *)
Definition session_start (c : Core) (files : gmap string File)
    (checks : option (list (Core -> bool))) (now : Q) : Session :=
  {| world := {| core := c; disk := files |};
     additional_check_functions := checks;
     monitor := Alive;
     saver := match save_interval c with
              | Some _ => Alive
              | None => Finished
              end;
     saver_locals := saver_enter now;
     main := Polling |}.

Definition flag_running (s : Session) : bool :=
  is_running_global (core (world s)).

(** The monitor thread runs one iteration of its loop, or leaves the
    loop. *)
Definition monitor_step (s : Session) : Session :=
  match monitor s with
  | Alive =>
      if flag_running s then
        let '(w, r) :=
          _stop_event_handling
            (on_core (_check_events_body (additional_check_functions s)))
            (world s) in
        {| world := w;
           additional_check_functions := additional_check_functions s;
           monitor := match r with
                      | Ok (Some _) => Alive
                      | _ => Faulted
                      end;
           saver := saver s; saver_locals := saver_locals s;
           main := main s |}
      else
        {| world := world s;
           additional_check_functions := additional_check_functions s;
           monitor := Finished;
           saver := saver s; saver_locals := saver_locals s;
           main := main s |}
  | _ => s
  end.

(** The saving thread runs one iteration of its loop, or the statements
    after the loop. *)
Definition saver_step (clk : Clock) (s : Session) : Session :=
  match saver s with
  | Alive =>
      if running (saver_locals s) then
        let '(w, r) :=
          _stop_event_handling (saver_iteration clk (saver_locals s))
            (world s) in
        {| world := w;
           additional_check_functions := additional_check_functions s;
           monitor := monitor s;
           saver := match r with
                    | Ok (Some _) => Alive
                    | _ => Faulted
                    end;
           saver_locals := match r with
                           | Ok (Some l) => l
                           | _ => saver_locals s
                           end;
           main := main s |}
      else
        let '(w, r) :=
          _stop_event_handling (saver_final (saver_locals s)) (world s) in
        {| world := w;
           additional_check_functions := additional_check_functions s;
           monitor := monitor s;
           saver := match r with
                    | Ok (Some _) => Finished
                    | _ => Faulted
                    end;
           saver_locals := saver_locals s;
           main := main s |}
  | _ => s
  end.

Definition with_world (w : World) (s : Session) : Session :=
  {| world := w;
     additional_check_functions := additional_check_functions s;
     monitor := monitor s; saver := saver s;
     saver_locals := saver_locals s; main := main s |}.

Definition with_main (m : MainStatus) (s : Session) : Session :=
  {| world := world s;
     additional_check_functions := additional_check_functions s;
     monitor := monitor s; saver := saver s;
     saver_locals := saver_locals s; main := m |}.

(** The caller of [run]: [while self.is_running_global: time.sleep(0.5)],
    then [stop_acquisition_and_generation], the joins and the return. *)
Definition main_step (s : Session) : Session :=
  match main s with
  | Polling =>
      if flag_running s then s
      else with_main Joining
             (with_world (on_core stop_acquisition_and_generation
                            (world s)).1 s)
  | Joining =>
      match monitor s, saver s with
      | Alive, _ | _, Alive => s
      | _, _ =>
          let c := core (world s) in
          let c := if verbose_in_1_2 c
                   then print (Print "Measurement finished.") c else c in
          with_main Returned
            (with_world {| core := c; disk := disk (world s) |} s)
      end
  | Returned => s
  end.

(** What the worker threads may change on their own: the state of the
    workers, not their number, names or sample rates, and no attribute of
    the [Core] object. *)
Record workers_progress (c c' : Core) : Prop := {
  wp_names : map acquisition_name (acquisitions c')
             = map acquisition_name (acquisitions c);
  wp_rates : map sample_rate (acquisitions c')
             = map sample_rate (acquisitions c);
  wp_generations : length (generations c') = length (generations c);
  wp_controls : length (controls c') = length (controls c);
  wp_core : c' = {| acquisitions := acquisitions c';
                    generations := generations c';
                    controls := controls c';
                    acquisition_names := acquisition_names c;
                    generation_names := generation_names c;
                    trigger_source_index := trigger_source_index c;
                    measurement_duration := measurement_duration c;
                    run_name := run_name c; root := root c;
                    save_interval := save_interval c;
                    autostart := autostart c; verbose := verbose c;
                    is_running_global := is_running_global c;
                    triggered_globally := triggered_globally c;
                    first := first c; stop_event := stop_event c;
                    stdout := stdout c |};
}.

(** One step of a session. *)
Inductive step : Session -> Session -> Prop :=
| step_monitor s :
    step s (monitor_step s)
| step_saver clk s :
    step s (saver_step clk s)
| step_main s :
    step s (main_step s)
| step_start s :            (* hotkey [s], or a call by the user *)
    step s (with_world (on_core start_acquisition (world s)).1 s)
| step_stop s :             (* hotkey [q] *)
    step s (with_world
              (on_core stop_acquisition_and_generation (world s)).1 s)
| step_workers s c' :       (* the worker threads make progress *)
    workers_progress (core (world s)) c' ->
    step s (with_world {| core := c'; disk := disk (world s) |} s)
| step_worker_fault s e :   (* the body of a worker thread raises [e] *)
    step s (with_world (_stop_event_handling (A := unit) (raise e)
                          (world s)).1 s).

Inductive steps : Session -> Session -> Prop :=
| steps_refl s : steps s s
| steps_step s1 s2 s3 : steps s1 s2 -> step s2 s3 -> steps s1 s3.

End Persistence.

(** ** Spec-side definitions and sample sessions *)

(** Python's [round(x)]: to the nearest integer, a tie to the even one.
    This follows the spec's word "round"; [core.py] has [int]. *)
Definition round_half_even (x : Q) : Z :=
  let f := Qfloor x in
  let r := (x - inject_Z f)%Q in
  match (r ?= 1 # 2)%Q with
  | Lt => f
  | Gt => (f + 1)%Z
  | Eq => if Z.even f then f else (f + 1)%Z
  end.

Definition count_calls (k : AcqCall -> bool) (a : Acquisition) : nat :=
  length (List.filter k (calls a)).

Definition is_activation (c : AcqCall) : bool :=
  match c with Call_activate_trigger => true | _ => false end.

Module Sample.

Definition no_samples : Measurement :=
  {| m_time := []; m_data := Some []; m_video := None |}.

(** An idle acquisition source. *)
Definition worker (name : string) (rate : Q) : Acquisition :=
  {| acquisition_name := name; sample_rate := rate; is_running := true;
     is_ready := true; is_triggered := false;
     all_acquisitions_ready := false; is_standalone := true;
     new_samples := no_samples; calls := [] |}.

(** An acquisition source that has triggered and holds [m]. *)
Definition recording (name : string) (rate : Q) (m : Measurement)
  : Acquisition :=
  {| acquisition_name := name; sample_rate := rate; is_running := true;
     is_ready := true; is_triggered := true;
     all_acquisitions_ready := true; is_standalone := false;
     new_samples := m; calls := [] |}.

Definition generator (name : string) : Generation :=
  {| generation_name := name; gen_is_running := true;
     gen_terminated := 0 |}.

Definition trigger (duration : Q) (unit_ : string) (presamples : Z)
  : TriggerSpec :=
  {| ts_channel := ChannelIndex 0; ts_level := 1; ts_duration := duration;
     ts_duration_unit := unit_; ts_presamples := presamples;
     ts_trigger_type := "abs" |}.

(** The scenario of the spec: sources at 1000 Hz and 2000 Hz. *)
Definition two_rates : Core :=
  new_core [worker "A" 1000; worker "B" 2000] [] [].

Definition size_zero (data : gmap string Measurement) : Z := 0.

End Sample.

(** ** Definitions used by the statements *)

(** What [set_trigger] hands to a source other than the trigger source, of
    sample rate [Rt], when the trigger source has sample rate [Rs]. *)
Definition propagated (duration : Q) (duration_unit : string)
    (presamples : Z) (Rs Rt : Q) : AcqCall :=
  Call_update_trigger_parameters
    (Some (if String.eqb duration_unit "seconds" then duration
           else inject_Z (int (duration / Rs * Rt))))
    (Some duration_unit)
    (Some (int (inject_Z presamples / Rs * Rt)))
    None.

(** The source at index [idx] after [set_trigger] has visited it. *)
Definition configured (src : nat) (channel : Channel) (level duration : Q)
    (duration_unit : string) (presamples : Z) (trigger_type : string)
    (Rs : Q) (idx : nat) (a : Acquisition) : Acquisition :=
  if Nat.eqb idx src
  then acq_log (Call_set_trigger level channel duration duration_unit
                  presamples trigger_type) a
  else acq_log (propagated duration duration_unit presamples Rs
                  (sample_rate a)) a.

Definition within (k m idx : nat) : bool := (k <=? idx) && (idx <? k + m).

(** The source after an activation under its lock. *)
Definition activated (a : Acquisition) : Acquisition :=
  acq_log Call_lock_release
    (acq_log Call_activate_trigger (acq_log Call_lock_acquire a)).

(** The propagation claim in the spec's words, with [round]. *)
Definition C3_as_stated (c : Core) (src : nat) (spec : TriggerSpec) : Prop :=
  forall source idx target,
    acquisitions c !! src = Some source ->
    idx <> src ->
    acquisitions c !! idx = Some target ->
    let Rs := sample_rate source in
    let Rt := sample_rate target in
    let unit_ := lower (ts_duration_unit spec) in
    acquisitions (set_trigger (SourceIndex (Z.of_nat src)) spec c).1 !! idx
    = Some (acq_log
              (Call_update_trigger_parameters
                 (Some (if String.eqb unit_ "seconds" then ts_duration spec
                        else inject_Z
                               (round_half_even (ts_duration spec / Rs * Rt))))
                 (Some unit_)
                 (Some (round_half_even
                          (inject_Z (ts_presamples spec) / Rs * Rt)))
                 None)
              target).

(** The activation claim in the spec's words: the source designated by
    [set_trigger] is the one that is activated. *)
Definition C4_as_stated (c : Core) : Prop :=
  triggered_globally c = false ->
  forall i a, trigger_source_index c = Some i ->
    getitem (acquisitions c) i = Ok a ->
    exists a', getitem (acquisitions (start_acquisition c).1) i = Ok a'
               /\ count_calls is_activation a'
                  = S (count_calls is_activation a).

(** The claim on sessions without acquisition source, as stated: every
    monitor iteration and every call of [start_acquisition] raises. *)
Definition C10_as_stated (c : Core) : Prop :=
  acquisitions c = [] ->
  (forall checks, (_check_events_body checks c).2 = Raise IndexError)
  /\ (start_acquisition c).2 = Raise IndexError.

(** *** Frames *)

(** The method [m] leaves the observation [f] of the state unchanged,
    whether it returns or raises. *)
Definition keeps {S A X} (f : S -> X) (m : M S A) : Prop :=
  forall s, f (m s).1 = f s.

Definition running_of (w : World) : bool := is_running_global (core w).

(** *** The saved accumulator *)

Definition drained (a : Acquisition) : Acquisition := (acq_drain a).2.

(** The entry that an iteration of the update loop writes for a triggered
    source. *)
Definition entry_written (tld : gmap string Q) (data : gmap string Measurement)
    (a : Acquisition) (e' : Measurement) : Prop :=
  ~ (sample_rate a == 0)%Q /\
  match data !! acquisition_name a with
  | None =>
      exists carried,
        tld !! acquisition_name a = Some carried
        /\ e' = first_entry (new_samples a)
                  (carried + 1 / sample_rate a)%Q
  | Some e =>
      exists time_last,
        (last (m_time e) = Some time_last
         \/ (last (m_time e) = None
             /\ tld !! acquisition_name a = Some time_last))
        /\ extend_entry e (new_samples a) time_last (1 / sample_rate a)%Q
           = Ok e'
  end.

Fixpoint nondecreasing (ts : list Q) : bool :=
  match ts with
  | [] => true
  | x :: ts' =>
      match ts' with
      | [] => true
      | y :: _ => Qle_bool x y
      end && nondecreasing ts'
  end.

(** The length of the time sequence is the first dimension of the data
    block and of every video block. *)
Definition shape_ok (e : Measurement) : bool :=
  match m_data e with
  | Some d => (length d =? length (m_time e))%nat
  | None => true
  end
  && match m_video e with
     | Some v => forallb (fun b => (length b =? length (m_time e))%nat) v
     | None => true
     end.

(** The invariant of an entry of a saved accumulator. *)
Definition entry_ok (e : Measurement) : bool :=
  nondecreasing (m_time e) && shape_ok e.

(** A drained measurement: the same shape relation, and relative times that
    are non-negative and non-decreasing. *)
Definition measurement_ok (m : Measurement) : bool :=
  entry_ok m && forallb (Qle_bool 0) (m_time m).

(** The drained measurement [m] carries every sequence that the entry [e]
    has. *)
Definition covers (m e : Measurement) : bool :=
  match m_data e, m_data m with Some _, None => false | _, _ => true end
  && match m_video e, m_video m with Some _, None => false | _, _ => true end.

Definition accumulator_ok (data : gmap string Measurement) : Prop :=
  map_Forall (fun _ e => entry_ok e = true) data.

Definition disk_ok (files : gmap string File) : Prop :=
  map_Forall (fun _ f => accumulator_ok (file_content f)) files.

(** What is assumed of a source whose samples go to [data]. *)
Definition feeds (data : gmap string Measurement) (a : Acquisition) : Prop :=
  (0 < sample_rate a)%Q
  /\ measurement_ok (new_samples a) = true
  /\ forall e, data !! acquisition_name a = Some e ->
               covers (new_samples a) e = true.

(** What is assumed of the sources of a session: distinct names (as
    [__init__] checks), positive sample rates, and pending samples that are
    well formed and carry every sequence of the entries already saved for
    the source. *)
Definition well_fed (w : World) : Prop :=
  NoDup (map acquisition_name (acquisitions (core w)))
  /\ forall a, a ∈ acquisitions (core w) ->
       (0 < sample_rate a)%Q
       /\ measurement_ok (new_samples a) = true
       /\ forall path f e,
            disk w !! path = Some f ->
            file_content f !! acquisition_name a = Some e ->
            covers (new_samples a) e = true.

(** The assumption of the claim on the accumulator, as stated: every
    pending measurement satisfies the shape relation and has non-negative,
    non-decreasing relative times. *)
Definition measurements_ok (w : World) : bool :=
  forallb (fun a => measurement_ok (new_samples a)) (acquisitions (core w)).

(** A run of a session during which [P] holds whenever a step is taken. *)
Inductive run_under (pickled_size : gmap string Measurement -> Z)
    (P : Session -> Prop) : Session -> Session -> Prop :=
| run_done s : run_under pickled_size P s s
| run_step s1 s2 s3 :
    run_under pickled_size P s1 s2 -> P s2 -> step pickled_size s2 s3 ->
    run_under pickled_size P s1 s3.

(** The claim on the accumulator, as stated. *)
Definition C9_as_stated (pickled_size : gmap string Measurement -> Z)
    (s s' : Session) : Prop :=
  disk_ok (disk (world s)) ->
  run_under pickled_size (fun s => measurements_ok (world s) = true) s s' ->
  disk_ok (disk (world s')).

(** The last recorded time of the source [name] in an accumulator. *)
Definition last_time (data : gmap string Measurement) (name : string)
  : option Q :=
  match data !! name with
  | Some e => last (m_time e)
  | None => None
  end.

(** *** Sample sessions *)

Module Run.

Definition two_samples : Measurement :=
  {| m_time := [0; 1 # 10]%Q; m_data := Some [[1%Q]; [2%Q]];
     m_video := None |}.

(** A session with persistence every 5 s whose only source has
    triggered. *)
Definition saving_core : Core :=
  run_setup None false (Some 5%Q) "Run" "" 0
    (new_core [Sample.recording "A" 10 two_samples] [] []).

Definition saving_world : World := {| core := saving_core; disk := ∅ |}.

(** The source of [saving_core], as [run] has configured it. *)
Definition saving_source : Acquisition :=
  run_configure None (Some 5%Q) false
    (Sample.recording "A" 10 two_samples).

Definition clock (t : Q) : Clock :=
  {| t_delay := t; t_elapsed := t; t_restart := t;
     now_stamp := "20240101_120000" |}.

(** The sources report that their acquisition has ended. *)
Definition source_ends (s : Session) : Session :=
  with_world
    {| core := set_acquisitions
                 (map (fun a =>
                         {| acquisition_name := acquisition_name a;
                            sample_rate := sample_rate a;
                            is_running := false; is_ready := is_ready a;
                            is_triggered := is_triggered a;
                            all_acquisitions_ready :=
                              all_acquisitions_ready a;
                            is_standalone := is_standalone a;
                            new_samples := new_samples a;
                            calls := calls a |})
                    (acquisitions (core (world s))))
                 (core (world s));
       disk := disk (world s) |} s.

(** The sources have acquired [m] since they were drained. *)
Definition source_acquires (m : Measurement) (s : Session) : Session :=
  with_world
    {| core := set_acquisitions
                 (map (fun a =>
                         {| acquisition_name := acquisition_name a;
                            sample_rate := sample_rate a;
                            is_running := is_running a;
                            is_ready := is_ready a;
                            is_triggered := is_triggered a;
                            all_acquisitions_ready :=
                              all_acquisitions_ready a;
                            is_standalone := is_standalone a;
                            new_samples := m;
                            calls := calls a |})
                    (acquisitions (core (world s))))
                 (core (world s));
       disk := disk (world s) |} s.

(** A session shorter than its save interval: the trigger fires, the
    source ends after 0.2 s, the saving thread leaves its loop at 1 s and
    runs the statements after the loop. *)
Definition short_session (pickled_size : gmap string Measurement -> Z)
  : list Session :=
  let s0 := session_start saving_core ∅ None 0 in
  let s1 := monitor_step s0 in
  let s2 := saver_step pickled_size (clock (2 # 10)) s1 in
  let s3 := source_ends s2 in
  let s4 := monitor_step s3 in
  let s5 := monitor_step s4 in
  let s6 := saver_step pickled_size (clock 1) s5 in
  let s7 := saver_step pickled_size (clock (12 # 10)) s6 in
  [s0; s1; s2; s3; s4; s5; s6; s7].

(** A session with one acquisition source and one generator, no saving. *)
Definition generating : Session :=
  session_start
    (run_setup None false None "Run" "" 0
       (new_core [Sample.worker "A" 1000] [Sample.generator "G"] []))
    ∅ None 0.

(** The generator thread raises inside [generate]. *)
Definition generator_fails : Session :=
  with_world
    (_stop_event_handling
       (run_generation_iteration 0 (raise (Exception "generate failed")))
       (world generating)).1
    generating.

(** One iteration of the monitor, then one of the caller of [run]. *)
Definition round (s : Session) : Session := main_step (monitor_step s).

(** A session that has stopped: the source of [generating] has ended and
    the monitor has seen it. *)
Definition stopped : Session := monitor_step (source_ends generating).

(** A source with a data channel and a video channel. *)
Definition one_frame : Frame := [[1%Q]].
Definition with_video : Measurement :=
  {| m_time := [0%Q]; m_data := Some [[1%Q]];
     m_video := Some [[one_frame]] |}.
Definition without_video : Measurement :=
  {| m_time := [0%Q]; m_data := Some [[2%Q]]; m_video := None |}.

Definition filming : Session :=
  session_start
    (run_setup None false (Some 5%Q) "Run" "" 0
       (new_core [Sample.recording "A" 1 with_video] [] []))
    ∅ None 0.

(** The first save tick of [filming]. *)
Definition filming_saved : Session :=
  saver_step Sample.size_zero (clock 5) (monitor_step filming).

(** The source then drains a measurement without its video sequence, and
    a second save tick appends it. *)
Definition filming_saved_twice : Session :=
  saver_step Sample.size_zero (clock 10)
    (source_acquires without_video filming_saved).

(** A disk on which the file with the padded index [0000] has reached the
    size bound. *)
Definition full_file : File :=
  {| file_size := 200 * 1024 * 1024;
     file_content :=
       {[ "A" := {| m_time := [1 # 10; 2 # 10]%Q;
                    m_data := Some [[1%Q]; [2%Q]];
                    m_video := None |} ]} |}.

Definition rotating_world : World :=
  {| core := saving_core;
     disk := {[ "20240101_120000_Run_0000.pkl" := full_file ]} |}.

End Run.

(** ** The generator for NI hardware

    [generation.py], class [NIGenerator].  The tasks ([DAQTask],
    [NITaskOutput]) are external: a generator is the state that its methods
    read and assign, together with the log of the calls made on a task. *)

Module NI.

(** The object bound to [self.Task]: a [DAQTask(self.task_name)], or the
    [NITaskOutput] object given to the constructor or a copy of
    [self.Task_base]. *)
Inductive TaskKind : Type :=
| DAQ
| NIOutput.

Inductive TaskCall : Type :=
| Call_generate (task : TaskKind)   (* [Task.generate(self.signal, ...)] *)
| Call_generate_zeros               (* [Task.generate(zero_signal, ...)] *)
| Call_clear_task (task : TaskKind)
| Call_initiate.

(** [Task] is [None] when the object has no attribute [Task]. *)
Record NIGenerator : Type := {
  is_running : bool;
  NITask_used : bool;
  task_terminated : bool;
  Task : option TaskKind;
  task_calls : list TaskCall;
}.

(** The exception raised by an access to a missing attribute. *)
Definition AttributeError (attribute : string) : exn :=
  Exception ("'NIGenerator' object has no attribute '" +:+ attribute +:+ "'").

Definition set_is_running (v : bool) (g : NIGenerator) : NIGenerator :=
  {| is_running := v; NITask_used := NITask_used g;
     task_terminated := task_terminated g; Task := Task g;
     task_calls := task_calls g |}.

Definition set_task_terminated (v : bool) (g : NIGenerator) : NIGenerator :=
  {| is_running := is_running g; NITask_used := NITask_used g;
     task_terminated := v; Task := Task g; task_calls := task_calls g |}.

Definition set_Task (v : option TaskKind) (g : NIGenerator) : NIGenerator :=
  {| is_running := is_running g; NITask_used := NITask_used g;
     task_terminated := task_terminated g; Task := v;
     task_calls := task_calls g |}.

Definition log (c : TaskCall) (g : NIGenerator) : NIGenerator :=
  {| is_running := is_running g; NITask_used := NITask_used g;
     task_terminated := task_terminated g; Task := Task g;
     task_calls := task_calls g ++ [c] |}.

(** [NIGenerator.__init__] with a task name ([used = false]) or with an
    [NITaskOutput] object ([used = true]). *)
Definition __init__ (used : bool) : NIGenerator :=
  {| is_running := true; NITask_used := used; task_terminated := false;
     Task := Some (if used then NIOutput else DAQ); task_calls := [] |}.

Definition set_data_source : M NIGenerator unit :=
  let* g := get in
  if task_terminated g then
    let* _ :=
      if NITask_used g then modify (set_Task (Some NIOutput))
      else modify (set_Task (Some DAQ)) in
    modify (set_task_terminated false)
  else ret tt.

Definition generate : M NIGenerator unit :=
  let* g := get in
  match Task g with
  | Some task => modify (log (Call_generate task))
  | None => raise (AttributeError "Task")
  end.

Definition clear_task : M NIGenerator unit :=
  let* g := get in
  match Task g with
  | Some task =>
      let* _ := modify (log (Call_clear_task task)) in
      (* generate zeros *)
      let* _ := modify (set_Task (Some DAQ)) in
      let* _ := modify (log Call_generate_zeros) in
      let* _ := modify (log (Call_clear_task DAQ)) in
      modify (set_Task None)
  | None => ret tt
  end.

Definition terminate_data_source : M NIGenerator unit :=
  let* _ := modify (set_task_terminated true) in
  clear_task.

Definition run_generation : M NIGenerator unit :=
  let* _ := modify (set_is_running true) in
  let* _ := set_data_source in
  let* g := get in
  let* _ :=
    if NITask_used g then
      match Task g with
      | Some _ => modify (log Call_initiate)
      | None => raise (AttributeError "Task")
      end
    else ret tt in
  generate.

(** [BaseGenerator.stop], inherited. *)
Definition stop : M NIGenerator unit :=
  let* _ := modify (set_is_running false) in
  terminate_data_source.

End NI.

(** ** The layout of the live visualization

    [visualization.py], class [Visualization]: the part of a visualization
    that [run] checks and sizes before the window is opened.  The widgets
    are external. *)

Module Vis.

(** [plot['pos']]: the position of a subplot, or [None] for ['image']. *)
Definition Pos : Type := option (Z * Z).

(** [plot['channels']]: the index of a channel, a tuple of indices
    (channel vs. channel), or ['image']. *)
Inductive PlotChannels : Type :=
| Single (channel : Z)
| Versus (channels : list Z)
| ImageChannels.

(** An entry of [self.plots[source]]; [nth] is [None] for ['auto'].  The
    function applied to the data is not tracked. *)
Record Plot : Type := {
  pos : Pos;
  channels : PlotChannels;
  nth : option Z;
  since_refresh : Q;
  refresh_rate : Z;
}.

(** An entry of [self.subplot_options]: a dictionary with optional keys. *)
Record Options : Type := {
  xlim : option (Q * Q);
  ylim : option (Q * Q);
  t_span : option Q;
  axis_style : option string;
  title : option string;
  rowspan : option Z;
  colspan : option Z;
}.

(** The attributes of a [Visualization] object that the layout depends
    on.  [self.plots] is [None] until a line or an image is added; a
    dictionary keeps its keys in the order of insertion.
    [self.positions] is assigned by [check_subplot_options] and
    [self.max_plots_per_refresh] by [MainWindow.init_plots]. *)
Record Visualization : Type := {
  vis_refresh_rate : Z;                    (* [self.refresh_rate] *)
  update_refresh_rate : Z;
  sequential_plot_updates : bool;
  plots : option (list (string * list Plot));
  subplot_options : gmap (Z * Z) Options;
  positions : list (Z * Z);
  max_plots_per_refresh : option Z;
}.

Definition set_plots (v : option (list (string * list Plot)))
    (vis : Visualization) : Visualization :=
  {| vis_refresh_rate := vis_refresh_rate vis;
     update_refresh_rate := update_refresh_rate vis;
     sequential_plot_updates := sequential_plot_updates vis;
     plots := v; subplot_options := subplot_options vis;
     positions := positions vis;
     max_plots_per_refresh := max_plots_per_refresh vis |}.

Definition set_subplot_options (v : gmap (Z * Z) Options)
    (vis : Visualization) : Visualization :=
  {| vis_refresh_rate := vis_refresh_rate vis;
     update_refresh_rate := update_refresh_rate vis;
     sequential_plot_updates := sequential_plot_updates vis;
     plots := plots vis; subplot_options := v;
     positions := positions vis;
     max_plots_per_refresh := max_plots_per_refresh vis |}.

Definition set_positions (v : list (Z * Z)) (vis : Visualization)
  : Visualization :=
  {| vis_refresh_rate := vis_refresh_rate vis;
     update_refresh_rate := update_refresh_rate vis;
     sequential_plot_updates := sequential_plot_updates vis;
     plots := plots vis; subplot_options := subplot_options vis;
     positions := v;
     max_plots_per_refresh := max_plots_per_refresh vis |}.

Definition set_rates (update_rate : Z) (max_plots : Z) (vis : Visualization)
  : Visualization :=
  {| vis_refresh_rate := vis_refresh_rate vis;
     update_refresh_rate := update_rate;
     sequential_plot_updates := sequential_plot_updates vis;
     plots := plots vis; subplot_options := subplot_options vis;
     positions := positions vis;
     max_plots_per_refresh := Some max_plots |}.

(** [Visualization.__init__] *)
Definition __init__ (refresh_rate : Z) (sequential_plot_updates : bool)
  : Visualization :=
  {| vis_refresh_rate := refresh_rate; update_refresh_rate := 10;
     sequential_plot_updates := sequential_plot_updates;
     plots := None; subplot_options := ∅; positions := [];
     max_plots_per_refresh := None |}.

Definition AttributeError (attribute : string) : exn :=
  Exception ("'NoneType' object has no attribute '" +:+ attribute +:+ "'").

(** [a // b] on integers. *)
Definition floordiv (a b : Z) : result Z :=
  if (b =? 0)%Z then Raise ZeroDivisionError else Ok (a / b)%Z.

(** [self.plots[source].append(plot)] *)
Fixpoint append_plot (source : string) (plot : Plot)
    (ps : list (string * list Plot))
  : result (list (string * list Plot)) :=
  match ps with
  | [] => Raise (KeyError source)
  | (s, lines) :: ps' =>
      if String.eqb s source then Ok ((s, lines ++ [plot]) :: ps')
      else match append_plot source plot ps' with
           | Ok r => Ok ((s, lines) :: r)
           | Raise e => Raise e
           end
  end.

(** [source in self.plots.keys()] *)
Definition has_source (source : string) (ps : list (string * list Plot))
  : bool :=
  existsb (fun '(s, _) => String.eqb s source) ps.

(** [1e40], the initial value of ['since_refresh']. *)
Definition never_refreshed : Q := inject_Z (10 ^ 40).

(** [Visualization.add_lines], for arguments of the documented types (the
    checks of the types of the arguments are not modelled).  [channels] is
    the list of the channels; an integer or a tuple stands for the list of
    that one element.  [refresh_rate] is [None] when the argument is not
    given. *)
Definition add_lines (position : Z * Z) (source : string)
    (channels : list PlotChannels) (nth : option Z) (refresh_rate : option Z)
  : M Visualization unit :=
  let* _ := modify (fun vis =>
              match plots vis with
              | None => set_plots (Some []) vis
              | Some _ => vis
              end) in
  let* vis := get in
  let* _ :=
    match plots vis with
    | Some ps =>
        if has_source source ps then ret tt
        else modify (set_plots (Some (ps ++ [(source, [])])))
    | None => raise (AttributeError "keys")
    end in
  let* vis := get in
  let* plot_refresh_rate :=
    let requested :=
      match refresh_rate with
      | Some r => if (r =? 0)%Z then vis_refresh_rate vis else r
      | None => vis_refresh_rate vis
      end in
    let* q := lift_result
                (floordiv requested (update_refresh_rate vis)) in
    ret (update_refresh_rate vis * q)%Z in
  for_each channels (fun channel =>
    let* vis := get in
    match plots vis with
    | Some ps =>
        let* ps' :=
          lift_result
            (append_plot source
               {| pos := Some position; channels := channel;
                  nth := nth; since_refresh := never_refreshed;
                  refresh_rate := plot_refresh_rate |} ps) in
        modify (set_plots (Some ps'))
    | None => raise TypeError
    end).

(** [{"xlim": (0, 1), "axis_style": "linear"}] *)
Definition default_options : Options :=
  {| xlim := Some (0, 1)%Q; ylim := None; t_span := None;
     axis_style := Some "linear"%string; title := None; rowspan := None;
     colspan := None |}.

(** The body of [for pos, options in self.subplot_options.items()]. *)
Definition complete (options : Options) : Options :=
  match xlim options, t_span options with
  | Some (lo, hi), None =>
      {| xlim := xlim options; ylim := ylim options;
         t_span := Some (hi - lo)%Q; axis_style := axis_style options;
         title := title options; rowspan := rowspan options;
         colspan := colspan options |}
  | None, Some t =>
      {| xlim := Some (0, t)%Q; ylim := ylim options;
         t_span := t_span options; axis_style := axis_style options;
         title := title options; rowspan := rowspan options;
         colspan := colspan options |}
  | None, None =>
      {| xlim := Some (0, 1)%Q; ylim := ylim options;
         t_span := Some 1%Q; axis_style := axis_style options;
         title := title options; rowspan := rowspan options;
         colspan := colspan options |}
  | Some _, Some _ => options
  end.

(** [[plot for plots in self.plots.values() for plot in plots]] *)
Definition all_plots (ps : list (string * list Plot)) : list Plot :=
  concat (map snd ps).

(** [[_ for _ in list(set([plot['pos'] for ...]))[::-1] if _ != 'image']].
    The order in which a set is listed is not specified; nothing below
    depends on it. *)
Definition positions_of (ps : list (string * list Plot)) : list (Z * Z) :=
  omap id (reverse (remove_dups (map pos (all_plots ps)))).

(** [Visualization.check_subplot_options] *)
Definition check_subplot_options : M Visualization unit :=
  let* vis := get in
  let* ps := match plots vis with
             | Some ps => ret ps
             | None => raise (AttributeError "values")
             end in
  let* _ := modify (set_positions (positions_of ps)) in
  (* Make sure that all subplots have options defined. *)
  let* vis := get in
  let* _ := for_each (positions vis) (fun pos =>
              let* vis := get in
              if bool_decide (is_Some (subplot_options vis !! pos)) then ret tt
              else modify (set_subplot_options
                             (<[pos := default_options]>
                                (subplot_options vis)))) in
  modify (fun vis =>
            set_subplot_options (complete <$> subplot_options vis) vis).

(** [max(xs)] and [min(xs)] on a list of numbers. *)
Definition max (xs : list Q) : result Q :=
  match xs with
  | [] => Raise ValueError
  | x :: xs' => Ok (fold_left (fun m y => if Qltb m y then y else m) xs' x)
  end.

Definition min (xs : list Z) : result Z :=
  match xs with
  | [] => Raise ValueError
  | x :: xs' => Ok (fold_left (fun m y => if (y <? m)%Z then y else m) xs' x)
  end.

(** The key of a [KeyError] for a position. *)
Definition repr (pos : Z * Z) : string :=
  "(" +:+ str (fst pos) +:+ ", " +:+ str (snd pos) +:+ ")".

(** [self.subplot_options[pos]['t_span']] *)
Definition t_span_at (vis : Visualization) (pos : Z * Z) : result Q :=
  match subplot_options vis !! pos with
  | None => Raise (KeyError (repr pos))
  | Some options =>
      match t_span options with
      | None => Raise (KeyError "t_span")
      | Some t => Ok t
      end
  end.

(** [[f x for x in xs]] where [f] may raise. *)
Fixpoint comprehension {A B} (f : A -> result B) (xs : list A)
  : result (list B) :=
  match xs with
  | [] => Ok []
  | x :: xs' =>
      match f x with
      | Raise e => Raise e
      | Ok y => match comprehension f xs' with
                | Raise e => Raise e
                | Ok ys => Ok (y :: ys)
                end
      end
  end.

(** [create_ring_buffers]: the number of rows of the buffer of a source
    without [image_shape], of sample rate [sample_rate]. *)
Definition ring_buffer_rows (vis : Visualization) (sample_rate : Q)
  : result Z :=
  match comprehension
          (fun pos => match t_span_at vis pos with
                      | Ok t => Ok (t * sample_rate)%Q
                      | Raise e => Raise e
                      end)
          (positions vis) with
  | Raise e => Raise e
  | Ok spans => match max spans with
                | Ok m => Ok (int m)
                | Raise e => Raise e
                end
  end.

(** [MainWindow.update_line]: the number of the last rows of the buffer
    that a line of the subplot [pos] takes. *)
Definition t_span_samples (vis : Visualization) (pos : Z * Z)
    (sample_rate : Q) : result Z :=
  match t_span_at vis pos with
  | Ok t => Ok (int (t * sample_rate)%Q)
  | Raise e => Raise e
  end.

(** [MainWindow.init_plots], up to the assignment of
    [max_plots_per_refresh] and [update_refresh_rate]; the widgets that the
    rest of the method creates are external. *)
Definition init_plots_rates : M Visualization unit :=
  let* vis := get in
  let* ps := match plots vis with
             | Some ps => ret ps
             | None => raise (AttributeError "values")
             end in
  (* Compute the update refresh rate *)
  let n_lines := Z.of_nat (length (all_plots ps)) in
  let* minimum_refresh_rate :=
    lift_result
      (min (remove_dups (map refresh_rate (all_plots ps)))) in
  if sequential_plot_updates vis then
    let* per_line :=
      lift_result (truediv (inject_Z minimum_refresh_rate)
                     (inject_Z (n_lines + 1))) in
    let computed_update_refresh_rate :=
      Z.max 10 (Z.min 500 (int per_line)) in
    let* ratio :=
      lift_result
        (truediv (inject_Z (n_lines * computed_update_refresh_rate))
           (inject_Z minimum_refresh_rate)) in
    modify (set_rates computed_update_refresh_rate (Qceiling ratio))
  else
    modify (set_rates minimum_refresh_rate (10 ^ 40)).

(** A visualization with one line of the source ["A"] in the subplot
    [(0, 0)], refreshed every 25 ms. *)
Definition sample : Visualization :=
  (add_lines (0, 0)%Z "A" [Single 0] None (Some 25%Z) (__init__ 100 true)).1.

Definition sample_plot : Plot :=
  {| pos := Some (0, 0)%Z; channels := Single 0; nth := None;
     since_refresh := never_refreshed; refresh_rate := 20 |}.

End Vis.

(** ** Definitions used by the further statements *)

(** The exception of [set_trigger] for a unit that is neither "seconds"
    nor "samples". *)
Definition invalid_unit_error : exn :=
  KeyError "Invalid duration unit specified. Only 'seconds' and 'samples' are possible.".

(** The value that [set_trigger] assigns to [measurement_duration]. *)
Definition duration_recorded (duration : Q) (duration_unit : string)
    (Rs : Q) : Q :=
  if String.eqb duration_unit "seconds" then duration else (duration / Rs)%Q.

(** The method [m] does not undo [P], whether it returns or raises. *)
Definition preserves {S A} (P : S -> Prop) (m : M S A) : Prop :=
  forall s, P s -> P (m s).1.

Definition is_stop (c : AcqCall) : bool :=
  match c with Call_stop => true | _ => false end.

(** Every generator has been stopped and every acquisition source has been
    asked to stop. *)
Definition all_stopped (c : Core) : Prop :=
  Forall (fun g => gen_is_running g = false) (generations c)
  /\ Forall (fun a => 1 <= count_calls is_stop a) (acquisitions c).

(** The trigger flag of the session. *)
Definition triggered_of (w : World) : bool := triggered_globally (core w).

(** The three lines printed when the trigger is seen. *)
Definition trigger_report : list Output :=
  [Print ""; Print "triggered."; Print "	Recording..."].

(** What holds of a session once the caller of [run] has left its polling
    loop, and once [run] has returned. *)
Definition run_exit_ok (s : Session) : Prop :=
  (main s <> Polling -> flag_running s = false)
  /\ (main s = Returned -> monitor s <> Alive /\ saver s <> Alive).

(** The line that reports the trigger. *)
Definition is_trigger_line (o : Output) : bool :=
  match o with
  | Print s => String.eqb s "triggered."
  | _ => false
  end.

(** How many times the line "triggered." has been printed. *)
Definition reports (c : Core) : nat :=
  length (List.filter is_trigger_line (stdout c)).

(** The line "triggered." has been printed at most once more than [n]
    times, and not at all while [first] is set. *)
Definition reported_once (n : nat) (c : Core) : Prop :=
  reports c <= n + (if first c then 0 else 1).

(** The saving thread has left its loop only with the running flag
    cleared, and has finished only after it left its loop. *)
Definition saver_exit_ok (s : Session) : Prop :=
  (running (saver_locals s) = false -> flag_running s = false)
  /\ (saver s = Finished -> running (saver_locals s) = false).

(** The path whose size [_open_and_save] checks: the index is padded. *)
Definition checked_path (file_name_base directory : string) (file_index : Z)
  : string :=
  let '(stem, ext) := splitext file_name_base in
  path_join directory (stem +:+ "_" +:+ zfill 4 (str file_index) +:+ ext).

(** The path that [_open_and_save] writes: the index is not padded. *)
Definition written_path (file_name_base directory : string) (file_index : Z)
  : string :=
  let '(stem, ext) := splitext file_name_base in
  path_join directory (stem +:+ "_" +:+ str file_index +:+ ext).

(** The entry [e'] keeps what the entry [e] holds: the times and the data
    rows of [e] are the first ones of [e'], and every video block of [e']
    starts with the block of [e] for the same channel. *)
Definition entry_extends (e e' : Measurement) : Prop :=
  m_time e `prefix_of` m_time e'
  /\ (forall d, m_data e = Some d ->
                exists d', m_data e' = Some d' /\ d `prefix_of` d')
  /\ (forall v, m_video e = Some v ->
                exists v', m_video e' = Some v'
                           /\ forall i b', v' !! i = Some b' ->
                                exists b, v !! i = Some b
                                          /\ b `prefix_of` b').

Definition accumulator_extends (data data' : gmap string Measurement) : Prop :=
  forall name e, data !! name = Some e ->
    exists e', data' !! name = Some e' /\ entry_extends e e'.

(** The saving thread has used one file only. *)
Definition single_file (l : SaverLocals) (w : World) : Prop :=
  file_index l = 0%Z
  /\ match file_name l with
     | None => file_created l = false /\ disk w = ∅
     | Some name =>
         file_created l = true
         /\ forall path, is_Some (disk w !! path) ->
                         path = written_path name (root (core w)) 0
     end.

(** The number of samples saved for the source [name] in an accumulator,
    and in the file [path] of a disk. *)
Definition saved (data : gmap string Measurement) (name : string) : nat :=
  match data !! name with
  | Some e => length (m_time e)
  | None => 0
  end.

(** The accumulator held by the file [path]; empty when there is no such
    file. *)
Definition content_at (files : gmap string File) (path : string)
  : gmap string Measurement :=
  match files !! path with
  | Some f => file_content f
  | None => ∅
  end.

Definition saved_in (files : gmap string File) (path name : string) : nat :=
  saved (content_at files path) name.

(** The number of samples that a save tick takes from a source. *)
Definition pending (a : Acquisition) : nat :=
  if is_triggered a then length (m_time (new_samples a)) else 0.

(** The source after a save tick. *)
Definition after_tick (a : Acquisition) : Acquisition :=
  if is_triggered a then drained a else a.

(** *** Further sample sessions *)

Module Scenario.

(** A session with a save interval whose source has not triggered. *)
Definition waiting : Session :=
  session_start
    (run_setup None false (Some 5%Q) "Run" "" 0
       (new_core [Sample.worker "A" 1000] [] []))
    ∅ None 0.

(** A session that prints its status ([verbose=1]) and whose source has
    triggered. *)
Definition reporting : Session :=
  session_start
    (run_setup None false None "Run" "" 1
       (new_core [Sample.recording "A" 10 Run.two_samples] [] []))
    ∅ None 0.

End Scenario.

(** * Properties *)

(** ** Indexing and arithmetic *)

Lemma getitem_of_nat {A} (l : list A) (k : nat) :
  getitem l (Z.of_nat k)
  = match l !! k with Some x => Ok x | None => Raise IndexError end.
Proof.
  unfold getitem.
  destruct (Z.ltb_spec (Z.of_nat k) 0) as [H|H]; [lia|].
  destruct (Z.ltb_spec (Z.of_nat k) 0) as [H'|H']; [lia|].
  rewrite Nat2Z.id. reflexivity.
Qed.

Lemma acquisition_at_of_nat (c : Core) (k : nat) (a : Acquisition) :
  acquisitions c !! k = Some a ->
  acquisition_at (Z.of_nat k) c = (c, Ok a).
Proof.
  intros H. unfold acquisition_at. rewrite getitem_of_nat, H. reflexivity.
Qed.

Lemma on_acquisition_of_nat (c : Core) (k : nat) (a : Acquisition) f :
  acquisitions c !! k = Some a ->
  on_acquisition (Z.of_nat k) f c
  = (set_acquisitions (<[k := f a]> (acquisitions c)) c, Ok tt).
Proof.
  intros H. unfold on_acquisition, bind.
  rewrite (acquisition_at_of_nat _ _ _ H).
  destruct (Z.ltb_spec (Z.of_nat k) 0) as [H'|H']; [lia|].
  rewrite Nat2Z.id. reflexivity.
Qed.

Lemma truediv_ok (a b : Q) : ~ (b == 0)%Q -> truediv a b = Ok (a / b)%Q.
Proof.
  intros H. unfold truediv.
  destruct (Qeq_bool b 0) eqn:E; [|reflexivity].
  apply Qeq_bool_iff in E. contradiction.
Qed.

Lemma truediv_inv (a b : Q) (q : Q) :
  truediv a b = Ok q -> ~ (b == 0)%Q /\ q = (a / b)%Q.
Proof.
  unfold truediv. destruct (Qeq_bool b 0) eqn:E; [discriminate|].
  intros [= <-]. split; [|reflexivity].
  intros H. apply Qeq_bool_iff in H. congruence.
Qed.

Lemma eqb_false_of_ne (a b : string) : a <> b -> String.eqb a b = false.
Proof. intros H. apply String.eqb_neq. exact H. Qed.

Lemma within_true k m idx : within k m idx = true <-> k <= idx < k + m.
Proof.
  unfold within. rewrite andb_true_iff, Nat.leb_le, Nat.ltb_lt. reflexivity.
Qed.

Lemma within_false k m idx : within k m idx = false <-> ~ (k <= idx < k + m).
Proof.
  rewrite <- within_true. destruct (within k m idx); split; congruence.
Qed.

(** ** Trigger propagation *)

Section Propagation.
Variables (src : nat) (channel : Channel) (level duration : Q)
  (duration_unit : string) (presamples : Z) (trigger_type : string)
  (Rs : Q).
Hypothesis Rs_nonzero : ~ (Rs == 0)%Q.
Hypothesis unit_known :
  duration_unit = "seconds"%string \/ duration_unit = "samples"%string.

Local Abbreviation visited :=
  (configured src channel level duration duration_unit presamples
     trigger_type Rs).

Lemma sample_rate_configured idx a :
  sample_rate (visited idx a) = sample_rate a.
Proof. unfold configured. destruct (Nat.eqb idx src); reflexivity. Qed.

(** One iteration configures the source at [k] and binds the local
    variable. *)
Lemma set_trigger_iteration_spec (k : nat) (c : Core) (ssr : option Q)
    (source ak : Acquisition) :
  acquisitions c !! src = Some source ->
  sample_rate source = Rs ->
  acquisitions c !! k = Some ak ->
  (duration_unit = "samples"%string -> k = src -> ssr = Some Rs) ->
  exists c1 ssr1,
    set_trigger_iteration k (Z.of_nat src) channel level duration
      duration_unit presamples trigger_type ssr c = (c1, Ok ssr1)
    /\ acquisitions c1 = <[k := visited k ak]> (acquisitions c)
    /\ (duration_unit = "samples"%string -> ssr1 = Some Rs).
Proof.
  intros Hsrc Hrate Hak Hssr.
  unfold set_trigger_iteration, configured, propagated.
  destruct (Z.eqb_spec (Z.of_nat k) (Z.of_nat src)) as [E|E].
  - apply Nat2Z.inj in E. subst k. rewrite Nat.eqb_refl.
    assert (ak = source) by congruence. subst ak.
    unfold bind at 1 2.
    rewrite (on_acquisition_of_nat _ _ _ _ Hsrc).
    destruct unit_known as [U|U].
    + rewrite U. eexists _, ssr. split; [reflexivity|].
      split; [reflexivity|]. discriminate.
    + rewrite (Hssr U eq_refl). rewrite U. cbn.
      unfold lift_result, bind. rewrite (truediv_ok _ _ Rs_nonzero).
      eexists _, (Some Rs). repeat split.
  - assert (Hks : k <> src) by congruence.
    apply Nat.eqb_neq in Hks. rewrite Hks.
    unfold bind at 1 2 3. rewrite (acquisition_at_of_nat _ _ _ Hsrc).
    unfold lift_result at 1. rewrite Hrate.
    rewrite (truediv_ok _ _ Rs_nonzero).
    unfold bind at 1. rewrite (acquisition_at_of_nat _ _ _ Hak).
    destruct unit_known as [U|U].
    + rewrite U.
      cbn [String.eqb Ascii.eqb Bool.eqb]. unfold bind at 1.
      rewrite (on_acquisition_of_nat _ _ _ _ Hak).
      eexists _, (Some Rs). repeat split.
    + rewrite U.
      cbn [String.eqb Ascii.eqb Bool.eqb].
      unfold bind at 1 2 3. unfold lift_result at 1.
      rewrite (truediv_ok _ _ Rs_nonzero).
      rewrite (on_acquisition_of_nat _ _ _ _ Hak).
      unfold ret, bind, lift_result.
      rewrite (truediv_ok _ _ Rs_nonzero).
      eexists _, (Some Rs). repeat split.
Qed.

(** The loop over the indices [k], ..., [k + m - 1]: it returns, and it
    has configured exactly these sources. *)
Lemma set_trigger_loop_spec (m : nat) :
  forall (k : nat) (c : Core) (ssr : option Q) (source : Acquisition),
    acquisitions c !! src = Some source ->
    sample_rate source = Rs ->
    k + m = length (acquisitions c) ->
    (duration_unit = "samples"%string ->
     (k = 0 /\ 0 < src) \/ ssr = Some Rs) ->
    exists c',
      set_trigger_loop (seq k m) (Z.of_nat src) channel level duration
        duration_unit presamples trigger_type ssr c = (c', Ok tt)
      /\ length (acquisitions c') = length (acquisitions c)
      /\ forall idx a,
           acquisitions c !! idx = Some a ->
           acquisitions c' !! idx
           = Some (if within k m idx then visited idx a else a).
Proof.
  induction m as [|m IH]; intros k c ssr source Hsrc Hrate Hlen Hssr.
  - exists c. split; [reflexivity|]. split; [reflexivity|].
    intros idx a Ha.
    replace (within k 0 idx) with false; [exact Ha|].
    symmetry. apply within_false. lia.
  - assert (Hk : k < length (acquisitions c)) by lia.
    destruct (lookup_lt_is_Some_2 _ _ Hk) as [ak Hak].
    destruct (set_trigger_iteration_spec k c ssr source ak Hsrc Hrate Hak)
      as (c1 & ssr1 & Hrun & Hl1 & Hssr1).
    { intros U ->. destruct (Hssr U) as [[-> H0]|Hs]; [lia|exact Hs]. }
    assert (Hsrc1 : exists source1, acquisitions c1 !! src = Some source1
                                    /\ sample_rate source1 = Rs).
    { rewrite Hl1.
      destruct (Nat.eq_dec k src) as [->|Hne].
      - exists (visited src ak). split.
        + apply list_lookup_insert_eq. exact Hk.
        + rewrite sample_rate_configured. congruence.
      - exists source. split; [|exact Hrate].
        rewrite list_lookup_insert_ne by exact Hne. exact Hsrc. }
    destruct Hsrc1 as (source1 & Hsrc1 & Hrate1).
    assert (Hlen1 : S k + m = length (acquisitions c1)).
    { rewrite Hl1, length_insert. lia. }
    destruct (IH (S k) c1 ssr1 source1 Hsrc1 Hrate1 Hlen1
                (fun U => or_intror (Hssr1 U)))
      as (c' & Hc' & Hlen' & Hlook).
    exists c'. split; [|split].
    + change (seq k (S m)) with (k :: seq (S k) m).
      cbn [set_trigger_loop]. unfold bind at 1. rewrite Hrun. exact Hc'.
    + rewrite Hlen', Hl1. apply length_insert.
    + intros idx a Ha.
      destruct (Nat.eq_dec idx k) as [->|Hne].
      * rewrite (Hlook k (visited k ak)).
        2:{ rewrite Hl1. apply list_lookup_insert_eq. exact Hk. }
        assert (a = ak) by congruence. subst a.
        replace (within (S k) m k) with false
          by (symmetry; apply within_false; lia).
        replace (within k (S m) k) with true
          by (symmetry; apply within_true; lia).
        reflexivity.
      * rewrite (Hlook idx a).
        2:{ rewrite Hl1, list_lookup_insert_ne by auto. exact Ha. }
        replace (within (S k) m idx) with (within k (S m) idx);
          [reflexivity|].
        destruct (within (S k) m idx) eqn:W.
        -- apply within_true in W. apply within_true. lia.
        -- apply within_false in W. apply within_false. lia.
Qed.

End Propagation.




(** ** An unknown duration unit *)

(** C8.  In a session whose only acquisition source is the trigger source,
    [set_trigger] with a unit that is neither "seconds" nor "samples" raises
    nothing: the source is configured with the unknown unit and the call
    returns. *)
Theorem C8_single_source_accepts_any_unit (a : Acquisition)
    (spec : TriggerSpec) :
  lower (ts_duration_unit spec) <> "seconds"%string ->
  lower (ts_duration_unit spec) <> "samples"%string ->
  set_trigger (SourceIndex 0) spec (new_core [a] [] []) =
    (set_trigger_source_index (Some 0%Z)
       (new_core
          [acq_log (Call_set_trigger (ts_level spec) (ts_channel spec)
                      (ts_duration spec) (lower (ts_duration_unit spec))
                      (ts_presamples spec) (lower (ts_trigger_type spec))) a]
          [] []),
     Ok tt).
Proof.
  intros Hsec Hsam.
  unfold set_trigger.
  rewrite (eqb_false_of_ne _ _ Hsam).
  cbn. unfold set_trigger_iteration. cbn.
  rewrite (eqb_false_of_ne _ _ Hsec), (eqb_false_of_ne _ _ Hsam).
  reflexivity.
Qed.

Lemma C8_witness :
  set_trigger (SourceIndex 0) (Sample.trigger 2 "minutes" 100)
    (new_core [Sample.worker "A" 1000] [] []) =
    (set_trigger_source_index (Some 0%Z)
       (new_core
          [acq_log (Call_set_trigger 1 (ChannelIndex 0) 2 "minutes" 100 "abs")
             (Sample.worker "A" 1000)] [] []),
     Ok tt).
Proof.
  apply (C8_single_source_accepts_any_unit (Sample.worker "A" 1000)
           (Sample.trigger 2 "minutes" 100)); vm_compute; discriminate.
Defined.

(** ** Trigger activation *)

Lemma count_calls_activated a :
  count_calls is_activation (activated a) = S (count_calls is_activation a).
Proof.
  unfold count_calls, activated. cbn [calls acq_log].
  rewrite !List.filter_app, !length_app. cbn. lia.
Qed.

(** C4 (amended).  [start_acquisition] is a no-op when the triggered flag
    is set; otherwise it sets the flag and, under the lock of the first
    acquisition source of the list, invokes the activation primitive of that
    source exactly once, whatever source [set_trigger] designated. *)
Theorem C4_start_acquisition_first_source (c : Core) :
  (triggered_globally c = true -> start_acquisition c = (c, Ok tt))
  /\ (forall a rest,
        triggered_globally c = false -> acquisitions c = a :: rest ->
        start_acquisition c
        = (set_acquisitions (activated a :: rest)
             (set_triggered_globally true c), Ok tt)
        /\ count_calls is_activation (activated a)
           = S (count_calls is_activation a)).
Proof.
  split.
  - intros Ht. unfold start_acquisition, bind, get. rewrite Ht. reflexivity.
  - intros a rest Ht Ha. split; [|apply count_calls_activated].
    unfold start_acquisition, bind, get. rewrite Ht. cbn.
    unfold on_acquisition, acquisition_at, bind. cbn.
    rewrite Ha. cbn. reflexivity.
Qed.

Lemma C4_witness :
  start_acquisition Sample.two_rates
  = (set_acquisitions
       [activated (Sample.worker "A" 1000); Sample.worker "B" 2000]
       (set_triggered_globally true Sample.two_rates), Ok tt)
  /\ count_calls is_activation (activated (Sample.worker "A" 1000))
     = S (count_calls is_activation (Sample.worker "A" 1000)).
Proof.
  apply (proj2 (C4_start_acquisition_first_source Sample.two_rates)
           (Sample.worker "A" 1000) [Sample.worker "B" 2000]);
    reflexivity.
Defined.

(** After [set_trigger] has designated the second of two sources,
    [start_acquisition] activates the first one and not the designated
    one. *)
Lemma C4_counterexample :
  ~ C4_as_stated
      (set_trigger (SourceIndex 1) (Sample.trigger 2 "seconds" 100)
         Sample.two_rates).1.
Proof.
  intros H.
  destruct (H eq_refl 1%Z _ eq_refl eq_refl) as (a' & Ha' & Hc).
  vm_compute in Ha'. injection Ha' as <-. vm_compute in Hc. discriminate.
Qed.

(** ** A session without acquisition source *)

(** C10 (amended).  The constructor accepts an empty list of acquisition
    sources; every iteration of the monitor then raises [IndexError], and so
    does every call of [start_acquisition] made while the triggered flag is
    unset; a call made when the flag is set is a no-op. *)
Theorem C10_no_acquisition_index_error (c : Core) :
  acquisitions c = [] ->
  (forall gens ctls,
      has_duplicates (map generation_name gens) = false ->
      __init__ (Some []) (Some gens) (Some ctls)
      = Ok (new_core [] gens ctls))
  /\ (forall checks, (_check_events_body checks c).2 = Raise IndexError)
  /\ (triggered_globally c = false ->
      (start_acquisition c).2 = Raise IndexError)
  /\ (triggered_globally c = true -> start_acquisition c = (c, Ok tt)).
Proof.
  intros Ha. repeat split.
  - intros gens ctls Hd. unfold __init__.
    cbv beta iota zeta delta [default from_option id].
    change (has_duplicates (map acquisition_name [])) with false.
    cbv iota. rewrite Hd. reflexivity.
  - intros checks. unfold _check_events_body, bind, get, modify.
    cbn. unfold acquisition_at. cbn. rewrite Ha. reflexivity.
  - intros Ht. unfold start_acquisition, bind, get. rewrite Ht. cbn.
    unfold on_acquisition, acquisition_at, bind. cbn. rewrite Ha. reflexivity.
  - intros Ht. unfold start_acquisition, bind, get. rewrite Ht. reflexivity.
Qed.

Lemma C10_witness :
  (forall checks,
      (_check_events_body checks (new_core [] [] [])).2 = Raise IndexError)
  /\ (start_acquisition (new_core [] [] [])).2 = Raise IndexError.
Proof.
  destruct (C10_no_acquisition_index_error (new_core [] [] []) eq_refl)
    as (_ & Hm & Hs & _).
  split; [exact Hm | exact (Hs eq_refl)].
Defined.

(** Without acquisition source and with the triggered flag set (after a
    first call has raised), [start_acquisition] returns normally. *)
Lemma C10_counterexample :
  ~ C10_as_stated (set_triggered_globally true (new_core [] [] [])).
Proof.
  intros H. destruct (H eq_refl) as [_ Hs]. vm_compute in Hs. discriminate.
Qed.

(** ** Frame reasoning: what a method leaves unchanged *)

Lemma keeps_ret {S A X} (f : S -> X) (a : A) : keeps f (ret a).
Proof. intros s. reflexivity. Qed.

Lemma keeps_raise {S A X} (f : S -> X) e : keeps f (raise (A := A) e).
Proof. intros s. reflexivity. Qed.

Lemma keeps_get {S X} (f : S -> X) : keeps f get.
Proof. intros s. reflexivity. Qed.

Lemma keeps_lift_result {S A X} (f : S -> X) (r : result A) :
  keeps f (lift_result r).
Proof. intros s. reflexivity. Qed.

Lemma keeps_modify {S X} (f : S -> X) (g : S -> S) :
  (forall s, f (g s) = f s) -> keeps f (modify g).
Proof. intros H s. apply H. Qed.

Lemma keeps_bind {S A B X} (f : S -> X) (m : M S A) (k : A -> M S B) :
  keeps f m -> (forall a, keeps f (k a)) -> keeps f (bind m k).
Proof.
  intros Hm Hk s. unfold bind. specialize (Hm s).
  destruct (m s) as [s' [a|e]]; cbn in *.
  - rewrite Hk. exact Hm.
  - exact Hm.
Qed.

Lemma keeps_for_each {S A X} (f : S -> X) (xs : list A) body :
  (forall x, keeps f (body x)) -> keeps f (for_each xs body).
Proof.
  intros H. induction xs as [|x xs IH]; cbn.
  - apply keeps_ret.
  - apply keeps_bind; auto.
Qed.

Lemma keeps_on_core {A X} (f : Core -> X) (m : M Core A) :
  keeps f m -> keeps (fun w => f (core w)) (on_core m).
Proof.
  intros H w. unfold on_core. specialize (H (core w)).
  destruct (m (core w)) as [c r]. exact H.
Qed.

Lemma keeps_acquisition_at {X} (f : Core -> X) i :
  keeps f (acquisition_at i).
Proof. intros c. reflexivity. Qed.

Lemma keeps_on_acquisition i g :
  keeps is_running_global (on_acquisition i g).
Proof.
  unfold on_acquisition. apply keeps_bind.
  - apply keeps_acquisition_at.
  - intros a c. reflexivity.
Qed.

(** Closes [keeps f m] when [m] is built from the operations of the monad,
    accesses to the sources and assignments that [f] does not see. *)
Ltac frame :=
  repeat first
    [ apply keeps_ret | apply keeps_raise | apply keeps_get
    | apply keeps_lift_result | apply keeps_acquisition_at
    | apply keeps_on_acquisition
    | (apply keeps_modify; intros ?; reflexivity)
    | (apply keeps_bind; [|intros ?])
    | (apply keeps_for_each; intros ?)
    | match goal with
      | |- keeps _ (if ?b then _ else _) => destruct b
      | |- keeps _ (match ?x with _ => _ end) => destruct x
      | |- keeps _ (let '(_, _) := ?x in _) => destruct x
      end ].

Lemma keeps_start_acquisition : keeps is_running_global start_acquisition.
Proof. unfold start_acquisition. frame. Qed.

Lemma keeps_stop_acquisition_and_generation :
  keeps is_running_global stop_acquisition_and_generation.
Proof. unfold stop_acquisition_and_generation. frame. Qed.

Lemma keeps_update_loop idxs tld :
  forall data, keeps is_running_global (update_loop idxs tld data).
Proof.
  induction idxs as [|idx idxs IH]; intros data; cbn [update_loop].
  - frame.
  - apply keeps_bind; [unfold update_iteration; frame|]. intros d. apply IH.
Qed.

Lemma keeps_running_on_core {A} (m : M Core A) :
  keeps is_running_global m -> keeps running_of (on_core m).
Proof. apply (keeps_on_core is_running_global). Qed.

Lemma keeps_open_and_save sz base dir idx :
  keeps running_of (_open_and_save sz base dir idx).
Proof.
  unfold _open_and_save, path_exists, getsize, load_measurement, dump.
  destruct (splitext base) as [b ext].
  frame; try (intros w; reflexivity).
  all: try (apply keeps_running_on_core; apply keeps_update_loop).
Qed.

Lemma keeps_saver_iteration sz clk l :
  keeps running_of (saver_iteration sz clk l).
Proof.
  unfold saver_iteration. frame; try apply keeps_open_and_save.
Qed.

Lemma keeps_saver_final sz l : keeps running_of (saver_final sz l).
Proof.
  unfold saver_final. frame; try apply keeps_open_and_save.
Qed.

Lemma keeps_stop_event_handling {A} (func : M World A) :
  keeps running_of func -> keeps running_of (_stop_event_handling func).
Proof.
  intros H w. unfold _stop_event_handling. specialize (H w).
  destruct (func w) as [w' [a|e]]; exact H.
Qed.

(** ** The running flag *)

(** The monitor assigns the conjunction of the three liveness values and
    nothing later in the iteration assigns the flag again. *)
Lemma check_events_body_running checks c :
  is_running_global (_check_events_body checks c).1
  = category_running is_running (acquisitions c)
    && category_running gen_is_running (generations c)
    && category_running ctl_is_running (controls c).
Proof.
  unfold _check_events_body.
  unfold bind at 1, get at 1. unfold bind at 1, modify at 1.
  match goal with
  | |- is_running_global (?rest ?s).1 = _ =>
      assert (K : keeps is_running_global rest)
  end.
  { frame; try apply keeps_start_acquisition;
      try apply keeps_stop_acquisition_and_generation. }
  rewrite K. reflexivity.
Qed.

Lemma category_running_false {W} (alive : W -> bool) (ws : list W) :
  category_running alive ws = false
  <-> ws <> [] /\ forall w, w ∈ ws -> alive w = false.
Proof.
  unfold category_running. rewrite negb_false_iff, andb_true_iff.
  rewrite forallb_forall. split.
  - intros [Hall Hlen]. split.
    + intros ->. discriminate.
    + intros w Hw. apply list_elem_of_In in Hw. specialize (Hall w Hw).
      destruct (alive w); [discriminate|reflexivity].
  - intros [Hne Hall]. split.
    + intros w Hw. apply list_elem_of_In in Hw. rewrite (Hall w Hw).
      reflexivity.
    + destruct ws; [congruence|reflexivity].
Qed.

Lemma flag_with_world w s : flag_running (with_world w s) = running_of w.
Proof. reflexivity. Qed.

Lemma flag_with_main m s : flag_running (with_main m s) = flag_running s.
Proof. reflexivity. Qed.

(** Only an iteration of the monitor assigns the flag, and the monitor runs
    an iteration only while the flag is set. *)
Lemma step_keeps_stopped sz s s' :
  step sz s s' -> flag_running s = false -> flag_running s' = false.
Proof.
  intros Hstep Hflag.
  assert (Hw : running_of (world s) = false) by exact Hflag.
  destruct Hstep.
  - unfold monitor_step. destruct (monitor s); try exact Hflag.
    rewrite Hflag. exact Hflag.
  - unfold saver_step. destruct (saver s); try exact Hflag.
    destruct (running (saver_locals s)).
    + pose proof (keeps_stop_event_handling _
                    (keeps_saver_iteration sz clk (saver_locals s))
                    (world s)) as K.
      destruct (_stop_event_handling _ (world s)) as [w r].
      change (running_of w = false). cbn [fst] in K. congruence.
    + pose proof (keeps_stop_event_handling _
                    (keeps_saver_final sz (saver_locals s))
                    (world s)) as K.
      destruct (_stop_event_handling _ (world s)) as [w r].
      change (running_of w = false). cbn [fst] in K. congruence.
  - unfold main_step. destruct (main s); try exact Hflag.
    + rewrite Hflag, flag_with_main, flag_with_world.
      rewrite (keeps_running_on_core _
                 keeps_stop_acquisition_and_generation).
      exact Hw.
    + destruct (monitor s), (saver s); try exact Hflag;
        rewrite flag_with_main, flag_with_world; unfold running_of;
        cbn [core]; destruct (verbose_in_1_2 (core (world s))); exact Hflag.
  - rewrite flag_with_world.
    rewrite (keeps_running_on_core _ keeps_start_acquisition). exact Hw.
  - rewrite flag_with_world.
    rewrite (keeps_running_on_core _ keeps_stop_acquisition_and_generation).
    exact Hw.
  - rewrite flag_with_world. unfold running_of. cbn [core].
    match goal with H : workers_progress _ _ |- _ =>
      rewrite (wp_core _ _ H) end.
    exact Hflag.
  - rewrite flag_with_world.
    rewrite (keeps_stop_event_handling (A := unit) (raise e)
               (keeps_raise _ e)).
    exact Hw.
Qed.

(** C6.  Each iteration of the monitor sets the running flag to the
    conjunction of the three liveness values; a category is reported as not
    running exactly when it is non-empty and every member reports not
    running; and over the steps of a session, once the flag is false it
    stays false. *)
Theorem C6_running_flag_monotone
    (pickled_size : gmap string Measurement -> Z) :
  (forall checks c,
      is_running_global (_check_events_body checks c).1
      = category_running is_running (acquisitions c)
        && category_running gen_is_running (generations c)
        && category_running ctl_is_running (controls c))
  /\ (forall W (alive : W -> bool) (ws : list W),
        category_running alive ws = false
        <-> ws <> [] /\ forall w, w ∈ ws -> alive w = false)
  /\ (forall s s',
        steps pickled_size s s' ->
        flag_running s = false -> flag_running s' = false).
Proof.
  split; [exact check_events_body_running|].
  split; [intros W alive ws; apply category_running_false|].
  intros s s' Hsteps. induction Hsteps as [s|s1 s2 s3 _ IH Hstep].
  - auto.
  - intros H. eapply step_keeps_stopped; eauto.
Qed.

Lemma C6_witness :
  flag_running (monitor_step (main_step Run.stopped)) = false.
Proof.
  apply (proj2 (proj2 (C6_running_flag_monotone Sample.size_zero))
           Run.stopped (monitor_step (main_step Run.stopped))).
  - eapply steps_step; [eapply steps_step; [apply steps_refl|]|].
    + apply step_main.
    + apply step_monitor.
  - reflexivity.
Defined.

(** ** The sample runs are runs of a session *)

Lemma source_ends_is_a_step sz s : step sz s (Run.source_ends s).
Proof.
  apply step_workers.
  constructor; cbn [acquisitions generations controls set_acquisitions].
  - rewrite map_map. reflexivity.
  - rewrite map_map. reflexivity.
  - reflexivity.
  - reflexivity.
  - reflexivity.
Qed.

Lemma source_acquires_is_a_step sz m s :
  step sz s (Run.source_acquires m s).
Proof.
  apply step_workers.
  constructor; cbn [acquisitions generations controls set_acquisitions].
  - rewrite map_map. reflexivity.
  - rewrite map_map. reflexivity.
  - reflexivity.
  - reflexivity.
  - reflexivity.
Qed.

Lemma short_session_is_a_run sz :
  exists s0 s7,
    head (Run.short_session sz) = Some s0
    /\ last (Run.short_session sz) = Some s7
    /\ steps sz s0 s7.
Proof.
  eexists _, _. split; [reflexivity|]. split; [reflexivity|].
  repeat (eapply steps_step;
          [|first [apply step_monitor | apply step_saver
                  | apply source_ends_is_a_step]]).
  apply steps_refl.
Qed.

Lemma generator_fails_is_a_run sz n :
  steps sz Run.generating (Nat.iter n Run.round Run.generator_fails).
Proof.
  induction n as [|n IH].
  - eapply steps_step; [apply steps_refl|].
    exact (step_worker_fault sz Run.generating (Exception "generate failed")).
  - cbn [Nat.iter]. unfold Run.round at 1.
    eapply steps_step; [eapply steps_step; [exact IH|]|].
    + apply step_monitor.
    + apply step_main.
Qed.

(** ** The fault boundary *)

Lemma round_fixed n :
  Nat.iter (S n) Run.round Run.generator_fails
  = Run.round Run.generator_fails.
Proof.
  induction n as [|n IH]; [reflexivity|].
  change (Nat.iter (S (S n)) Run.round Run.generator_fails)
    with (Run.round (Nat.iter (S n) Run.round Run.generator_fails)).
  rewrite IH. vm_compute. reflexivity.
Qed.

(** C1.  The wrapper reports the exception and sets the stop event, and it
    leaves the running flag as the body left it.  In the session
    [Run.generator_fails], where the generator thread has raised, the flag
    is still set after any number of iterations of the monitor and of the
    caller of [run], which is still polling: these states are reached by
    steps of the session. *)
Theorem C1_task_fault_leaves_session_running
    (pickled_size : gmap string Measurement -> Z) :
  (forall A (func : M World A) w w' e,
      func w = (w', Raise e) ->
      let w'' := (_stop_event_handling func w).1 in
      stop_event (core w'') = true
      /\ stdout (core w'')
         = stdout (core w')
             ++ [Print "An exception occurred in a process:"; PrintException e]
      /\ is_running_global (core w'') = is_running_global (core w'))
  /\ stop_event (core (world Run.generator_fails)) = true
  /\ forall n,
       let s := Nat.iter n Run.round Run.generator_fails in
       steps pickled_size Run.generating s
       /\ flag_running s = true /\ main s = Polling /\ monitor s = Alive.
Proof.
  split; [|split].
  - intros A func w w' e H. unfold _stop_event_handling. rewrite H. cbn.
    rewrite <- app_assoc. repeat split.
  - reflexivity.
  - intros n. cbv zeta. split; [apply generator_fails_is_a_run|].
    destruct n as [|n].
    + vm_compute. repeat split.
    + rewrite round_fixed. vm_compute. repeat split.
Qed.

Lemma C1_witness :
  let w'' := (_stop_event_handling (A := unit)
                (raise (Exception "generate failed"))
                (world Run.generating)).1 in
  stop_event (core w'') = true
  /\ stdout (core w'')
     = stdout (core (world Run.generating))
         ++ [Print "An exception occurred in a process:";
             PrintException (Exception "generate failed")]
  /\ is_running_global (core w'')
     = is_running_global (core (world Run.generating)).
Proof.
  apply (proj1 (C1_task_fault_leaves_session_running Sample.size_zero) unit
           (raise (Exception "generate failed")) (world Run.generating)
           (world Run.generating) (Exception "generate failed")).
  reflexivity.
Defined.

(** ** File names and the final save *)

(** C2.  A save tick with the base name [20240101_120000_Run.pkl] and the
    index 0 writes the file [20240101_120000_Run_0.pkl]: the index in the
    name of the written file is not padded. *)
Theorem C2_written_file_name_is_not_padded
    (pickled_size : gmap string Measurement -> Z) :
  let r := _open_and_save pickled_size "20240101_120000_Run.pkl" "" 0
             Run.saving_world in
  r.2 = Ok 0%Z
  /\ dom (disk r.1) = {["20240101_120000_Run_0.pkl"]}
  /\ disk r.1 !! "20240101_120000_Run_0000.pkl" = None.
Proof.
  cbv zeta. split; [|split]; vm_compute; reflexivity.
Qed.

(** C7.  When the trigger has fired and no periodic save has taken place,
    the statements after the loop raise [UnboundLocalError] in place of the
    final save; when the trigger has not fired they write nothing; when a
    periodic save has taken place they run one more save tick.  The
    session [Run.short_session], shorter than its save interval, is a run of
    steps that ends with the trigger fired, the saving thread faulted and
    no file on the disk. *)
Theorem C7_final_save_needs_an_earlier_save
    (pickled_size : gmap string Measurement -> Z) :
  (forall l w,
      triggered_globally (core w) = true -> file_name l = None ->
      saver_final pickled_size l w = (w, Raise (UnboundLocalError "file_name")))
  /\ (forall l w,
        triggered_globally (core w) = false ->
        saver_final pickled_size l w = (w, Ok tt))
  /\ (forall l w name,
        triggered_globally (core w) = true -> file_name l = Some name ->
        saver_final pickled_size l w
        = (let* _ := _open_and_save pickled_size name (root (core w))
                       (file_index l) in ret tt) w)
  /\ exists s0 s,
       head (Run.short_session pickled_size) = Some s0
       /\ last (Run.short_session pickled_size) = Some s
       /\ steps pickled_size s0 s
       /\ triggered_globally (core (world s)) = true
       /\ running (saver_locals s) = false
       /\ saver s = Faulted
       /\ disk (world s) = ∅
       /\ last (stdout (core (world s)))
          = Some (PrintException (UnboundLocalError "file_name")).
Proof.
  split; [|split; [|split]].
  - intros l w Ht Hf. unfold saver_final, bind, get. rewrite Ht, Hf.
    reflexivity.
  - intros l w Ht. unfold saver_final, bind, get. rewrite Ht. reflexivity.
  - intros l w name Ht Hf. unfold saver_final, bind, get, ret.
    rewrite Ht, Hf. reflexivity.
  - destruct (short_session_is_a_run pickled_size)
      as (s0 & s & Hhead & Hlast & Hsteps).
    exists s0, s. split; [exact Hhead|]. split; [exact Hlast|].
    split; [exact Hsteps|].
    vm_compute in Hlast. injection Hlast as <-.
    vm_compute. repeat split; reflexivity.
Qed.

Lemma C7_witness :
  saver_final Sample.size_zero (saver_enter 0)
    {| core := set_triggered_globally true Run.saving_core; disk := ∅ |}
  = ({| core := set_triggered_globally true Run.saving_core; disk := ∅ |},
     Raise (UnboundLocalError "file_name")).
Proof.
  apply (proj1 (C7_final_save_needs_an_earlier_save Sample.size_zero));
    reflexivity.
Defined.

(** ** One iteration of the update loop *)

Lemma update_iteration_idle k tld data c a :
  acquisitions c !! k = Some a -> is_triggered a = false ->
  update_iteration k tld data c = (c, Ok data).
Proof.
  intros Ha Ht. unfold update_iteration, bind.
  rewrite (acquisition_at_of_nat _ _ _ Ha), Ht. reflexivity.
Qed.

Lemma update_iteration_drains k tld data c a :
  acquisitions c !! k = Some a -> is_triggered a = true ->
  exists r,
    update_iteration k tld data c
    = (set_acquisitions (<[k := drained a]> (acquisitions c)) c, r)
    /\ forall data', r = Ok data' ->
         exists e', data' = <[acquisition_name a := e']> data
                    /\ entry_written tld data a e'.
Proof.
  intros Ha Ht. unfold update_iteration, bind at 1.
  rewrite (acquisition_at_of_nat _ _ _ Ha), Ht.
  unfold bind at 1. rewrite (on_acquisition_of_nat _ _ _ _ Ha).
  fold (drained a). unfold entry_written.
  set (c1 := set_acquisitions _ c).
  destruct (data !! acquisition_name a) as [e|] eqn:Hd.
  - unfold bind, ret, raise, lift_result. cbn [acq_drain fst].
    destruct (last (m_time e)) as [tl|] eqn:Hl.
    + destruct (truediv 1 (sample_rate a)) as [p|err] eqn:Hp.
      * apply truediv_inv in Hp as [Hnz ->].
        destruct (extend_entry e (new_samples a) tl (1 / sample_rate a))
          as [e'|err] eqn:He.
        -- eexists. split; [reflexivity|]. intros data' [= <-].
           exists e'. split; [reflexivity|]. split; [exact Hnz|].
           exists tl. split; [left; reflexivity|exact He].
        -- eexists. split; [reflexivity|]. discriminate.
      * eexists. split; [reflexivity|]. discriminate.
    + destruct (tld !! acquisition_name a) as [tl|] eqn:Htl.
      * destruct (truediv 1 (sample_rate a)) as [p|err] eqn:Hp.
        -- apply truediv_inv in Hp as [Hnz ->].
           destruct (extend_entry e (new_samples a) tl (1 / sample_rate a))
             as [e'|err] eqn:He.
           ++ eexists. split; [reflexivity|]. intros data' [= <-].
              exists e'. split; [reflexivity|]. split; [exact Hnz|].
              exists tl. split; [right; split; reflexivity|exact He].
           ++ eexists. split; [reflexivity|]. discriminate.
        -- eexists. split; [reflexivity|]. discriminate.
      * eexists. split; [reflexivity|]. discriminate.
  - unfold bind, ret, raise, lift_result. cbn [acq_drain fst].
    destruct (tld !! acquisition_name a) as [tl|] eqn:Htl.
    + destruct (truediv 1 (sample_rate a)) as [p|err] eqn:Hp.
      * apply truediv_inv in Hp as [Hnz ->].
        eexists. split; [reflexivity|]. intros data' [= <-].
        eexists. split; [reflexivity|]. split; [exact Hnz|].
        exists tl. split; reflexivity.
      * eexists. split; [reflexivity|]. discriminate.
    + eexists. split; [reflexivity|]. discriminate.
Qed.

(** ** The invariant of a saved accumulator *)

Lemma nondecreasing_cons (x y : Q) (ts : list Q) :
  nondecreasing (x :: y :: ts) = Qle_bool x y && nondecreasing (y :: ts).
Proof. reflexivity. Qed.

Lemma nondecreasing_app (ts1 ts2 : list Q) :
  nondecreasing ts1 = true -> nondecreasing ts2 = true ->
  (forall x y, last ts1 = Some x -> head ts2 = Some y -> (x <= y)%Q) ->
  nondecreasing (ts1 ++ ts2) = true.
Proof.
  intros H1 H2 Hb. induction ts1 as [|x ts1 IH]; [exact H2|].
  destruct ts1 as [|y ts1].
  - cbn [app nondecreasing]. rewrite H2, andb_true_r.
    destruct ts2 as [|z ts2]; [reflexivity|].
    apply Qle_bool_iff. apply Hb; reflexivity.
  - rewrite nondecreasing_cons in H1. apply andb_true_iff in H1 as [Hxy H1].
    change ((x :: y :: ts1) ++ ts2) with (x :: y :: (ts1 ++ ts2)).
    rewrite nondecreasing_cons, Hxy. cbn [andb]. apply IH.
    + exact H1.
    + intros a b Ha. apply Hb. rewrite last_cons_cons. exact Ha.
Qed.

Lemma nondecreasing_map (f : Q -> Q) (ts : list Q) :
  (forall x y, (x <= y)%Q -> (f x <= f y)%Q) ->
  nondecreasing ts = true -> nondecreasing (map f ts) = true.
Proof.
  intros Hf. induction ts as [|x ts IH]; [reflexivity|].
  destruct ts as [|y ts]; [reflexivity|].
  change (map f (x :: y :: ts)) with (f x :: f y :: map f ts).
  rewrite !nondecreasing_cons. intros H.
  apply andb_true_iff in H as [Hxy H]. apply andb_true_iff. split.
  - apply Qle_bool_iff. apply Hf. apply Qle_bool_iff. exact Hxy.
  - apply IH. exact H.
Qed.

Lemma concat_video_lengths (old new v : list (list Frame)) (n m : nat) :
  concat_video old new = Ok v ->
  forallb (fun b => (length b =? n)%nat) old = true ->
  forallb (fun b => (length b =? m)%nat) new = true ->
  forallb (fun b => (length b =? n + m)%nat) v = true.
Proof.
  revert old v. induction new as [|b new IH]; intros old v.
  - cbn [concat_video]. intros [= <-] _ _. reflexivity.
  - cbn [concat_video]. destruct old as [|o old]; [discriminate|].
    destruct (concat_video old new) as [r|err] eqn:Hr; [|discriminate].
    intros [= <-]. cbn [forallb]. rewrite !andb_true_iff.
    intros [Ho Hold] [Hb Hnew]. split.
    + apply Nat.eqb_eq in Ho, Hb. apply Nat.eqb_eq.
      rewrite length_app. lia.
    + eapply IH; eauto.
Qed.

Lemma first_entry_ok (m : Measurement) (offset : Q) :
  entry_ok m = true -> entry_ok (first_entry m offset) = true.
Proof.
  unfold entry_ok, shape_ok, first_entry. cbn [m_time m_data m_video].
  rewrite length_map, !andb_true_iff. intros [Hs [Hd Hv]].
  split; [|split; assumption].
  apply nondecreasing_map; [|exact Hs]. intros x y Hxy. lra.
Qed.

Lemma forallb_head (P : Q -> bool) (ts : list Q) (y : Q) :
  forallb P ts = true -> head ts = Some y -> P y = true.
Proof.
  destruct ts as [|z ts]; [discriminate|]. cbn.
  intros H [= <-]. apply andb_true_iff in H. tauto.
Qed.

Lemma last_None_nil {A} (l : list A) : last l = None -> l = [].
Proof.
  destruct l as [|x l]; [reflexivity|].
  intros H. exfalso. revert x H. induction l as [|y l IH]; intros x H.
  - discriminate.
  - rewrite last_cons_cons in H. eauto.
Qed.

Lemma extend_entry_ok (e m e' : Measurement) (time_last period : Q) :
  entry_ok e = true -> measurement_ok m = true -> covers m e = true ->
  (0 <= period)%Q ->
  last (m_time e) = Some time_last \/ last (m_time e) = None ->
  extend_entry e m time_last period = Ok e' ->
  entry_ok e' = true.
Proof.
  unfold entry_ok, measurement_ok, entry_ok, shape_ok, covers, extend_entry.
  rewrite !andb_true_iff.
  intros [Hse [Hde Hve]] [[Hsm [Hdm Hvm]] Hpos] [Hcd Hcv] Hp Hlast.
  assert (Htime : nondecreasing
                    (m_time e
                     ++ map (fun t => t + time_last + period)%Q (m_time m))
                  = true).
  { apply nondecreasing_app.
    - exact Hse.
    - apply nondecreasing_map; [|exact Hsm]. intros x y Hxy. lra.
    - intros x y Hx Hy.
      destruct Hlast as [Hl|Hl]; [|congruence].
      assert (x = time_last) by congruence. subst x.
      destruct (m_time m) as [|t0 ts]; [discriminate|].
      cbn in Hy. injection Hy as <-.
      cbn in Hpos. apply andb_true_iff in Hpos as [H0 _].
      apply Qle_bool_iff in H0. lra. }
  destruct (m_data m) as [nd|], (m_data e) as [od|];
    try discriminate;
    destruct (m_video m) as [nv|], (m_video e) as [ov|];
    try discriminate;
    try (destruct (concat_video ov nv) as [v|err] eqn:Hc; [|discriminate]);
    intros [= <-]; cbn [m_time m_data m_video];
    rewrite Htime; cbn [andb]; rewrite ?length_app, ?length_map;
    repeat match goal with
           | H : (_ =? _)%nat = true |- _ => apply Nat.eqb_eq in H
           end;
    rewrite ?length_app, ?andb_true_iff;
    repeat split;
    try (apply Nat.eqb_eq; lia);
    try (eapply concat_video_lengths; eauto).
Qed.

Lemma drained_name a : acquisition_name (drained a) = acquisition_name a.
Proof. reflexivity. Qed.

Lemma names_insert_drained (l : list Acquisition) k a :
  l !! k = Some a ->
  map acquisition_name (<[k := drained a]> l) = map acquisition_name l.
Proof.
  intros H. change (map acquisition_name) with (fmap (M := list) acquisition_name).
  rewrite list_fmap_insert, drained_name.
  apply list_insert_id. rewrite list_lookup_fmap, H. reflexivity.
Qed.

Lemma names_distinct (l : list Acquisition) i j a b :
  NoDup (map acquisition_name l) ->
  l !! i = Some a -> l !! j = Some b -> i <> j ->
  acquisition_name a <> acquisition_name b.
Proof.
  intros Hnd Ha Hb Hij Heq. apply Hij.
  eapply (NoDup_lookup _ i j (acquisition_name a) Hnd).
  - change (map acquisition_name) with (fmap (M := list) acquisition_name).
    rewrite list_lookup_fmap, Ha. reflexivity.
  - change (map acquisition_name) with (fmap (M := list) acquisition_name).
    rewrite list_lookup_fmap, Hb, Heq. reflexivity.
Qed.

Lemma entry_written_ok tld data a e' :
  accumulator_ok data -> feeds data a -> entry_written tld data a e' ->
  entry_ok e' = true.
Proof.
  intros Hacc (Hrate & Hm & Hcov) [Hnz Hw].
  assert (Hp : (0 <= 1 / sample_rate a)%Q).
  { apply Qlt_le_weak. apply Qlt_shift_div_l; [exact Hrate|]. lra. }
  destruct (data !! acquisition_name a) as [e|] eqn:Hd.
  - destruct Hw as (tl & Hlast & Hext).
    apply (extend_entry_ok e (new_samples a) e' tl (1 / sample_rate a));
      auto.
    + exact (Hacc _ _ Hd).
    + destruct Hlast as [H|[H _]]; auto.
  - destruct Hw as (carried & _ & ->). apply first_entry_ok.
    unfold measurement_ok in Hm. apply andb_true_iff in Hm. tauto.
Qed.

Lemma update_loop_ok tld (m : nat) :
  forall (k : nat) (c : Core) (data : gmap string Measurement),
    NoDup (map acquisition_name (acquisitions c)) ->
    accumulator_ok data ->
    (forall j a, k <= j -> acquisitions c !! j = Some a -> feeds data a) ->
    forall c' data',
      update_loop (seq k m) tld data c = (c', Ok data') ->
      accumulator_ok data'.
Proof.
  induction m as [|m IH]; intros k c data Hnd Hacc Hfeed c' data'.
  - cbn. intros [= _ <-]. exact Hacc.
  - cbn [seq update_loop]. unfold bind at 1.
    destruct (acquisitions c !! k) as [a|] eqn:Ha.
    2:{ unfold update_iteration, bind, acquisition_at.
        rewrite getitem_of_nat, Ha. discriminate. }
    destruct (is_triggered a) eqn:Ht.
    + destruct (update_iteration_drains k tld data c a Ha Ht)
        as (r & -> & Hr).
      destruct r as [data1|err]; [|discriminate].
      destruct (Hr data1 eq_refl) as (e' & -> & Hw).
      apply IH.
      * cbn [acquisitions set_acquisitions].
        rewrite (names_insert_drained _ _ _ Ha). exact Hnd.
      * apply map_Forall_insert_2; [|exact Hacc].
        exact (entry_written_ok tld data a e' Hacc
                 (Hfeed k a (Nat.le_refl k) Ha) Hw).
      * intros j b Hj Hb. cbn [acquisitions set_acquisitions] in Hb.
        rewrite list_lookup_insert_ne in Hb by lia.
        destruct (Hfeed j b ltac:(lia) Hb) as (H1 & H2 & H3).
        repeat split; auto. intros e He. apply H3.
        rewrite lookup_insert_ne in He; [exact He|].
        eapply names_distinct; eauto. lia.
    + rewrite (update_iteration_idle k tld data c a Ha Ht).
      apply IH; auto. intros j b Hj Hb. apply (Hfeed j b); auto. lia.
Qed.

Lemma open_and_save_disk_ok sz base dir idx w :
  disk_ok (disk w) -> well_fed w ->
  disk_ok (disk (_open_and_save sz base dir idx w).1).
Proof.
  intros Hdisk [Hnd Hfed]. unfold _open_and_save.
  destruct (splitext base) as [stem ext].
  unfold bind, path_exists, getsize, get, load_measurement, lift_result, ret,
    dump, modify, on_core.
  repeat match goal with
         | |- context [match ?x with _ => _ end] =>
             lazymatch x with
             | context [match _ with _ => _ end] => fail
             | _ => destruct x eqn:?
             end
         end; cbn [fst snd disk]; try exact Hdisk.
  all: apply map_Forall_insert_2; [|exact Hdisk]; cbn [file_content].
  all: match goal with
       | H : update_loop _ _ ?d0 ?c0 = (_, Ok ?d) |- accumulator_ok ?d =>
           apply (fun A B => update_loop_ok _ _ 0 c0 d0 Hnd A B _ _ H)
       end.
  all: try apply map_Forall_empty.
  all: try match goal with
           | H : disk _ !! _ = Some ?f |- accumulator_ok (file_content ?f) =>
               exact (Hdisk _ _ H)
           end.
  all: intros j b _ Hb;
    destruct (Hfed b (list_elem_of_lookup_2 _ _ _ Hb)) as (H1 & H2 & H3);
    repeat split; auto.
  all: intros e He; try (rewrite lookup_empty in He; discriminate).
  all: match goal with
       | H : disk _ !! _ = Some ?f, He : file_content ?f !! _ = Some _ |- _ =>
           exact (H3 _ _ _ H He)
       end.
Qed.


Lemma disk_stop_event_handling {A} (func : M World A) w :
  disk (_stop_event_handling func w).1 = disk (func w).1.
Proof.
  unfold _stop_event_handling. destruct (func w) as [w' [a|e]]; reflexivity.
Qed.

Lemma disk_on_core {A} (m : M Core A) w : disk (on_core m w).1 = disk w.
Proof. unfold on_core. destruct (m (core w)). reflexivity. Qed.

Lemma saver_iteration_disk_ok sz clk l w :
  disk_ok (disk w) -> well_fed w ->
  disk_ok (disk (saver_iteration sz clk l w).1).
Proof.
  intros Hdisk Hfed.
  unfold saver_iteration, bind, get, ret, raise.
  repeat match goal with
         | |- context [_open_and_save ?a ?b ?c ?d ?e] =>
             pose proof (open_and_save_disk_ok a b c d e Hdisk Hfed);
             destruct (_open_and_save a b c d e) as [? [?|?]]
         | |- context [match ?x with _ => _ end] =>
             lazymatch x with
             | context [match _ with _ => _ end] => fail
             | _ => destruct x eqn:?
             end
         end; cbn [fst snd] in *; auto.
Qed.

Lemma saver_final_disk_ok sz l w :
  disk_ok (disk w) -> well_fed w ->
  disk_ok (disk (saver_final sz l w).1).
Proof.
  intros Hdisk Hfed.
  unfold saver_final, bind, get, ret, raise.
  repeat match goal with
         | |- context [_open_and_save ?a ?b ?c ?d ?e] =>
             pose proof (open_and_save_disk_ok a b c d e Hdisk Hfed);
             destruct (_open_and_save a b c d e) as [? [?|?]]
         | |- context [match ?x with _ => _ end] =>
             lazymatch x with
             | context [match _ with _ => _ end] => fail
             | _ => destruct x eqn:?
             end
         end; cbn [fst snd] in *; auto.
Qed.

Lemma step_disk_ok sz s s' :
  step sz s s' -> well_fed (world s) ->
  disk_ok (disk (world s)) -> disk_ok (disk (world s')).
Proof.
  intros Hstep Hfed Hdisk. destruct Hstep.
  - unfold monitor_step. destruct (monitor s); try exact Hdisk.
    destruct (flag_running s); [|exact Hdisk].
    pose proof (disk_stop_event_handling
                  (on_core (_check_events_body (additional_check_functions s)))
                  (world s)) as K.
    rewrite disk_on_core in K.
    destruct (_stop_event_handling _ (world s)) as [w r].
    cbn [world]. cbn [fst] in K. rewrite K. exact Hdisk.
  - unfold saver_step. destruct (saver s); try exact Hdisk.
    destruct (running (saver_locals s)).
    + pose proof (disk_stop_event_handling
                    (saver_iteration sz clk (saver_locals s)) (world s)) as K.
      pose proof (saver_iteration_disk_ok sz clk (saver_locals s) (world s)
                    Hdisk Hfed) as Hok.
      destruct (_stop_event_handling _ (world s)) as [w r].
      cbn [world]. cbn [fst] in K. rewrite K. exact Hok.
    + pose proof (disk_stop_event_handling
                    (saver_final sz (saver_locals s)) (world s)) as K.
      pose proof (saver_final_disk_ok sz (saver_locals s) (world s)
                    Hdisk Hfed) as Hok.
      destruct (_stop_event_handling _ (world s)) as [w r].
      cbn [world]. cbn [fst] in K. rewrite K. exact Hok.
  - unfold main_step. destruct (main s); try exact Hdisk.
    + destruct (flag_running s); [exact Hdisk|].
      cbn [world with_main with_world]. rewrite disk_on_core. exact Hdisk.
    + destruct (monitor s), (saver s); exact Hdisk.
  - cbn [world with_world]. rewrite disk_on_core. exact Hdisk.
  - cbn [world with_world]. rewrite disk_on_core. exact Hdisk.
  - exact Hdisk.
  - cbn [world with_world]. rewrite disk_stop_event_handling. exact Hdisk.
Qed.

(** C9 (amended).  Along any run of a session in which, whenever a step
    is taken, the acquisition sources have distinct names and positive
    sample rates, and every pending measurement satisfies the shape
    relation, has non-negative non-decreasing relative times and carries
    every sequence (data, video) of the entries already saved for its
    source: every entry of every saved accumulator keeps a non-decreasing
    time sequence whose length is the first dimension of its data block and
    of each of its video blocks. *)
Theorem C9_accumulator_invariant (pickled_size : gmap string Measurement -> Z)
    (s s' : Session) :
  disk_ok (disk (world s)) ->
  run_under pickled_size (fun s => well_fed (world s)) s s' ->
  disk_ok (disk (world s')).
Proof.
  intros Hdisk Hrun. induction Hrun as [s|s1 s2 s3 _ IH Hfed Hstep].
  - exact Hdisk.
  - eapply step_disk_ok; eauto.
Qed.

Lemma well_fed_empty_disk (w : World) :
  disk w = ∅ ->
  NoDup (map acquisition_name (acquisitions (core w))) ->
  (forall a, a ∈ acquisitions (core w) ->
     (0 < sample_rate a)%Q /\ measurement_ok (new_samples a) = true) ->
  well_fed w.
Proof.
  intros Hd Hnd Hall. split; [exact Hnd|]. intros a Ha.
  destruct (Hall a Ha) as [H1 H2]. repeat split; auto.
  intros path f e Hf. rewrite Hd, lookup_empty in Hf. discriminate.
Qed.

Lemma C9_witness : disk_ok (disk (world Run.filming_saved)).
Proof.
  apply (C9_accumulator_invariant Sample.size_zero Run.filming
           Run.filming_saved).
  - apply map_Forall_empty.
  - eapply run_step;
      [eapply run_step; [apply run_done| |apply step_monitor]
      | |apply step_saver].
    + apply well_fed_empty_disk; [reflexivity| |].
      * vm_compute. apply NoDup_singleton.
      * intros a Ha. vm_compute in Ha.
        apply list_elem_of_singleton in Ha. subst a.
        split; vm_compute; reflexivity.
    + apply well_fed_empty_disk; [reflexivity| |].
      * vm_compute. apply NoDup_singleton.
      * intros a Ha. vm_compute in Ha.
        apply list_elem_of_singleton in Ha. subst a.
        split; vm_compute; reflexivity.
Defined.

(** A source drains a measurement with a video sequence, which is saved,
    then a measurement without the video sequence (both satisfy the shape
    relation): the saved entry then has two times and one video frame. *)
Lemma C9_counterexample :
  ~ C9_as_stated Sample.size_zero Run.filming Run.filming_saved_twice.
Proof.
  intros H.
  assert (Hrun : run_under Sample.size_zero
                   (fun s => measurements_ok (world s) = true)
                   Run.filming Run.filming_saved_twice).
  { unfold Run.filming_saved_twice, Run.filming_saved.
    eapply run_step;
      [eapply run_step;
         [eapply run_step;
            [eapply run_step; [apply run_done| |apply step_monitor]
            | |apply step_saver]
         | |apply step_workers]
      | |apply step_saver];
      try (vm_compute; reflexivity).
    constructor; vm_compute; reflexivity. }
  specialize (H (map_Forall_empty _) Hrun).
  assert (Hbad : exists f e,
            disk (world Run.filming_saved_twice)
              !! "20240101_120000_Run_0.pkl" = Some f
            /\ file_content f !! "A" = Some e
            /\ entry_ok e = false).
  { vm_compute. eexists _, _. repeat split. }
  destruct Hbad as (f & e & Hf & He & Hbad).
  rewrite (H _ _ Hf _ _ He) in Hbad. discriminate.
Qed.

(** ** Rotation *)

Lemma time_last_of_spec data acqs :
  (forall a, a ∈ acqs -> is_Some (last_time data (acquisition_name a))) ->
  forall acc, exists d,
    time_last_of data acqs acc = Ok d
    /\ forall nm,
         d !! nm = if decide (nm ∈ map acquisition_name acqs)
                   then last_time data nm else acc !! nm.
Proof.
  induction acqs as [|a acqs IH]; intros Hall acc.
  - exists acc. split; [reflexivity|]. intros nm.
    destruct (decide (nm ∈ map acquisition_name [])) as [H|H]; [|reflexivity].
    cbn in H. apply elem_of_nil in H. contradiction.
  - destruct (Hall a ltac:(left)) as [t Ht].
    unfold last_time in Ht. cbn [time_last_of].
    destruct (data !! acquisition_name a) as [e|] eqn:He; [|discriminate].
    rewrite Ht.
    destruct (IH (fun b Hb => Hall b ltac:(right; exact Hb))
                (<[acquisition_name a := t]> acc)) as (d & -> & Hd).
    exists d. split; [reflexivity|]. intros nm. rewrite Hd.
    cbn [map].
    destruct (decide (nm ∈ map acquisition_name acqs)) as [H|H].
    + rewrite decide_True by (right; exact H). reflexivity.
    + destruct (decide (nm = acquisition_name a)) as [->|Hne].
      * rewrite decide_True by left. rewrite lookup_insert_eq.
        unfold last_time. rewrite He, Ht. reflexivity.
      * rewrite lookup_insert_ne by auto.
        rewrite decide_False; [reflexivity|].
        intros Hin. apply elem_of_cons in Hin as [?|?]; contradiction.
Qed.

Lemma update_iteration_first k tld data c a t :
  acquisitions c !! k = Some a -> is_triggered a = true ->
  data !! acquisition_name a = None ->
  tld !! acquisition_name a = Some t ->
  ~ (sample_rate a == 0)%Q ->
  update_iteration k tld data c
  = (set_acquisitions (<[k := drained a]> (acquisitions c)) c,
     Ok (<[acquisition_name a
           := first_entry (new_samples a) (t + 1 / sample_rate a)%Q]> data)).
Proof.
  intros Ha Ht Hd Htl Hnz. unfold update_iteration, bind at 1.
  rewrite (acquisition_at_of_nat _ _ _ Ha), Ht.
  unfold bind at 1. rewrite (on_acquisition_of_nat _ _ _ _ Ha).
  rewrite Hd, Htl. unfold bind, ret, lift_result.
  rewrite (truediv_ok _ _ Hnz). reflexivity.
Qed.

(** The loop on an accumulator that has no entry for the sources still to
    be visited: every triggered source gets a first entry. *)
Lemma update_loop_first_entries tld (m : nat) :
  forall (k : nat) (c : Core) (data : gmap string Measurement),
    NoDup (map acquisition_name (acquisitions c)) ->
    (forall j a, k <= j -> acquisitions c !! j = Some a ->
       data !! acquisition_name a = None
       /\ ~ (sample_rate a == 0)%Q
       /\ is_Some (tld !! acquisition_name a)) ->
    k + m = length (acquisitions c) ->
    exists c' data',
      update_loop (seq k m) tld data c = (c', Ok data')
      /\ (forall j a t, k <= j -> acquisitions c !! j = Some a ->
            is_triggered a = true -> tld !! acquisition_name a = Some t ->
            data' !! acquisition_name a
            = Some (first_entry (new_samples a) (t + 1 / sample_rate a)%Q))
      /\ (forall nm,
            (forall j a, k <= j -> acquisitions c !! j = Some a ->
                         acquisition_name a <> nm) ->
            data' !! nm = data !! nm).
Proof.
  induction m as [|m IH]; intros k c data Hnd Hpre Hlen.
  - exists c, data. split; [reflexivity|]. split; [|reflexivity].
    intros j a t Hj Ha. apply lookup_lt_Some in Ha. lia.
  - assert (Hk : k < length (acquisitions c)) by lia.
    destruct (lookup_lt_is_Some_2 _ _ Hk) as [ak Hak].
    destruct (Hpre k ak (Nat.le_refl k) Hak) as (Hnone & Hnz & [tk Htk]).
    cbn [seq update_loop]. unfold bind at 1.
    destruct (is_triggered ak) eqn:Htrig.
    + rewrite (update_iteration_first k tld data c ak tk Hak Htrig Hnone Htk
                 Hnz).
      set (c1 := set_acquisitions _ c).
      set (data1 := <[acquisition_name ak := _]> data).
      assert (Hlook1 : forall j, j <> k ->
                acquisitions c1 !! j = acquisitions c !! j).
      { intros j Hj. subst c1. cbn [acquisitions set_acquisitions].
        apply list_lookup_insert_ne. auto. }
      destruct (IH (S k) c1 data1) as (c' & data' & Hrun & Hent & Hother).
      * subst c1. cbn [acquisitions set_acquisitions].
        rewrite (names_insert_drained _ _ _ Hak). exact Hnd.
      * intros j a Hj Ha. rewrite Hlook1 in Ha by lia.
        destruct (Hpre j a ltac:(lia) Ha) as (H1 & H2 & H3).
        repeat split; auto. subst data1.
        rewrite lookup_insert_ne; [exact H1|].
        eapply names_distinct; eauto. lia.
      * subst c1. cbn [acquisitions set_acquisitions].
        rewrite length_insert. lia.
      * exists c', data'. split; [exact Hrun|]. split.
        -- intros j a t Hj Ha Ht Htl.
           destruct (Nat.eq_dec j k) as [->|Hne].
           ++ assert (a = ak) by congruence. subst a.
              assert (t = tk) by congruence. subst t.
              rewrite Hother.
              ** subst data1. apply lookup_insert_eq.
              ** intros j b Hj' Hb. rewrite Hlook1 in Hb by lia.
                 eapply names_distinct; eauto. lia.
           ++ apply (Hent j a t); auto; [lia|].
              rewrite Hlook1 by auto. exact Ha.
        -- intros nm Hnm. rewrite Hother.
           ++ subst data1. apply lookup_insert_ne.
              apply (Hnm k ak); auto.
           ++ intros j b Hj' Hb. rewrite Hlook1 in Hb by lia.
              apply (Hnm j b); auto. lia.
    + rewrite (update_iteration_idle k tld data c ak Hak Htrig).
      destruct (IH (S k) c data Hnd) as (c' & data' & Hrun & Hent & Hother).
      * intros j a Hj Ha. apply (Hpre j a); auto. lia.
      * lia.
      * exists c', data'. split; [exact Hrun|]. split.
        -- intros j a t Hj Ha Ht Htl.
           destruct (Nat.eq_dec j k) as [->|Hne]; [congruence|].
           apply (Hent j a t); auto. lia.
        -- intros nm Hnm. apply Hother.
           intros j b Hj' Hb. apply (Hnm j b); auto. lia.
Qed.



(** * Further properties *)

(** ** The constructor *)

Lemma count_cons (s x : string) (l : list string) :
  count s (x :: l) = (if decide (s = x) then 1 else 0) + count s l.
Proof.
  unfold count. rewrite filter_cons.
  destruct (decide (s = x)); reflexivity.
Qed.

Lemma count_absent (s : string) (l : list string) :
  s ∉ l -> count s l = 0.
Proof.
  induction l as [|x l IH]; intros H; [reflexivity|].
  rewrite count_cons. apply not_elem_of_cons in H as [Hne Hl].
  rewrite decide_False by exact Hne. cbn. auto.
Qed.

Lemma count_present (s : string) (l : list string) :
  s ∈ l -> 1 <= count s l.
Proof.
  induction l as [|x l IH]; intros H; [inversion H|].
  rewrite count_cons. destruct (decide (s = x)); [cbn; lia|].
  apply elem_of_cons in H as [?|H]; [contradiction|]. cbn. auto.
Qed.

Lemma has_duplicates_false (l : list string) :
  has_duplicates l = false <-> NoDup l.
Proof.
  unfold has_duplicates. split.
  - intros H.
    assert (Hall : forall s, s ∈ l -> count s l <= 1).
    { intros s Hs. apply list_elem_of_In in Hs.
      destruct (Nat.ltb_spec 1 (count s l)) as [Hlt|]; [|lia].
      exfalso. assert (existsb (fun s => 1 <? count s l) l = true).
      { apply existsb_exists. exists s. split; [exact Hs|].
        apply Nat.ltb_lt. exact Hlt. }
      congruence. }
    clear H. induction l as [|x l IH]; [constructor|].
    constructor.
    + intros Hx. pose proof (Hall x ltac:(left)) as H1.
      rewrite count_cons, decide_True in H1 by reflexivity.
      pose proof (count_present x l Hx). lia.
    + apply IH. intros s Hs. pose proof (Hall s ltac:(right; exact Hs)) as H1.
      rewrite count_cons in H1. lia.
  - intros Hnd. apply not_true_iff_false. intros H.
    apply existsb_exists in H as (s & Hs & Hc). apply Nat.ltb_lt in Hc.
    apply list_elem_of_In in Hs. clear Hs.
    induction Hnd as [|x l Hx Hnd IH]; [cbn in Hc; lia|].
    rewrite count_cons in Hc. destruct (decide (s = x)) as [->|].
    + rewrite (count_absent x l Hx) in Hc. cbn in Hc. lia.
    + apply IH. cbn in Hc. exact Hc.
Qed.

(** X1.  The constructor returns an object exactly when the names of the
    acquisition sources are pairwise distinct and the names of the
    generators are pairwise distinct; otherwise it raises. *)
Theorem init_accepts_exactly_distinct_names (acqs : list Acquisition)
    (gens : list Generation) (ctls : list Control) (c : Core) :
  __init__ (Some acqs) (Some gens) (Some ctls) = Ok c
  <-> NoDup (map acquisition_name acqs)
      /\ NoDup (map generation_name gens)
      /\ c = new_core acqs gens ctls.
Proof.
  unfold __init__. cbv beta iota zeta delta [default from_option id].
  destruct (has_duplicates (map acquisition_name acqs)) eqn:Ea.
  - split; [discriminate|]. intros (Ha & _). apply has_duplicates_false in Ha.
    congruence.
  - apply has_duplicates_false in Ea.
    destruct (has_duplicates (map generation_name gens)) eqn:Eg.
    + split; [discriminate|]. intros (_ & Hg & _).
      apply has_duplicates_false in Hg. congruence.
    + apply has_duplicates_false in Eg. split.
      * intros [= <-]. auto.
      * intros (_ & _ & ->). reflexivity.
Qed.

Lemma init_accepts_exactly_distinct_names_witness :
  NoDup (map acquisition_name (acquisitions Sample.two_rates)).
Proof.
  apply (proj1 (init_accepts_exactly_distinct_names
                  [Sample.worker "A" 1000; Sample.worker "B" 2000] [] []
                  Sample.two_rates)).
  reflexivity.
Defined.

(** ** Designating the trigger source by name *)

Lemma index_from_absent (x : string) (l : list string) (i : Z) :
  x ∉ l -> index_from x l i = Raise ValueError.
Proof.
  revert i. induction l as [|y l IH]; intros i H; [reflexivity|].
  apply not_elem_of_cons in H as [Hne Hl]. cbn [index_from].
  rewrite (eqb_false_of_ne _ _ Hne). apply IH. exact Hl.
Qed.

Lemma index_from_first (x : string) (l : list string) :
  forall (k : nat) (i : Z),
    l !! k = Some x ->
    (forall j, j < k -> l !! j <> Some x) ->
    index_from x l i = Ok (i + Z.of_nat k)%Z.
Proof.
  induction l as [|y l IH]; intros k i Hk Hfirst; [discriminate Hk|].
  cbn [index_from]. destruct k as [|k].
  - injection Hk as ->. rewrite String.eqb_refl. f_equal. lia.
  - assert (Hne : x <> y).
    { intros ->. exact (Hfirst 0 ltac:(lia) eq_refl). }
    rewrite (eqb_false_of_ne _ _ Hne).
    rewrite (IH k (i + 1)%Z Hk).
    + f_equal. lia.
    + intros j Hj. exact (Hfirst (S j) ltac:(lia)).
Qed.

(** X2.  A trigger source given by name: a name that no acquisition
    source has makes [set_trigger] raise [ValueError] and leaves the object
    unchanged; a known name stands for the index of its first occurrence
    in the list of names. *)
Theorem set_trigger_resolves_name (c : Core) (name : string)
    (spec : TriggerSpec) :
  (name ∉ acquisition_names c ->
   set_trigger (SourceName name) spec c = (c, Raise ValueError))
  /\ (forall k,
        acquisition_names c !! k = Some name ->
        (forall j, j < k -> acquisition_names c !! j <> Some name) ->
        set_trigger (SourceName name) spec c
        = set_trigger (SourceIndex (Z.of_nat k)) spec c).
Proof.
  split.
  - intros H. unfold set_trigger, bind, get, lift_result, index.
    rewrite (index_from_absent _ _ _ H). reflexivity.
  - intros k Hk Hfirst. unfold set_trigger, bind, get, lift_result, index, ret.
    rewrite (index_from_first _ _ k 0 Hk Hfirst). reflexivity.
Qed.

Lemma set_trigger_resolves_name_witness :
  set_trigger (SourceName "C") (Sample.trigger 2 "seconds" 100)
    Sample.two_rates = (Sample.two_rates, Raise ValueError)
  /\ set_trigger (SourceName "B") (Sample.trigger 2 "seconds" 100)
       Sample.two_rates
     = set_trigger (SourceIndex 1) (Sample.trigger 2 "seconds" 100)
         Sample.two_rates.
Proof.
  split.
  - apply (proj1 (set_trigger_resolves_name Sample.two_rates "C"
                    (Sample.trigger 2 "seconds" 100))).
    cbn. intros H. repeat (apply elem_of_cons in H as [H|H]; [discriminate H|]).
    inversion H.
  - apply (proj2 (set_trigger_resolves_name Sample.two_rates "B"
                    (Sample.trigger 2 "seconds" 100)) 1).
    + reflexivity.
    + intros j Hj. assert (j = 0) as -> by lia. cbn. discriminate.
Defined.

(** ** The errors of [set_trigger] *)

(** X3.  With two or more acquisition sources and a non-zero sample rate
    of the trigger source, a unit that is neither "seconds" nor "samples"
    makes [set_trigger] raise its [KeyError]; by then the index of the
    trigger source is recorded and, when the trigger source is the first of
    the list, it has been configured with the unknown unit. *)
Theorem set_trigger_unknown_unit_partial (c : Core) (src : nat)
    (spec : TriggerSpec) (a0 a1 source : Acquisition)
    (rest : list Acquisition) :
  let unit_ := lower (ts_duration_unit spec) in
  unit_ <> "seconds"%string ->
  unit_ <> "samples"%string ->
  acquisitions c = a0 :: a1 :: rest ->
  acquisitions c !! src = Some source ->
  ~ (sample_rate source == 0)%Q ->
  set_trigger (SourceIndex (Z.of_nat src)) spec c
  = (set_acquisitions
       (if Nat.eqb src 0
        then acq_log (Call_set_trigger (ts_level spec) (ts_channel spec)
                        (ts_duration spec) unit_ (ts_presamples spec)
                        (lower (ts_trigger_type spec))) a0 :: a1 :: rest
        else acquisitions c)
       (set_trigger_source_index (Some (Z.of_nat src)) c),
     Raise invalid_unit_error).
Proof.
  intros unit_ Hsec Hsam Hacq Hsrc HRs.
  unfold set_trigger. fold unit_.
  rewrite (eqb_false_of_ne _ _ Hsam).
  unfold bind at 1 2, ret at 1, modify at 1. unfold bind at 1, get at 1.
  cbn [acquisitions set_trigger_source_index]. rewrite Hacq.
  cbn [length]. change (seq 0 (S (S (length rest))))
    with (0 :: 1 :: seq 2 (length rest)).
  set (c0 := set_trigger_source_index (Some (Z.of_nat src)) c).
  assert (H0 : acquisitions c0 !! 0 = Some a0) by (cbn; rewrite Hacq; reflexivity).
  assert (H1 : acquisitions c0 !! 1 = Some a1) by (cbn; rewrite Hacq; reflexivity).
  assert (Hs : acquisitions c0 !! src = Some source) by exact Hsrc.
  cbn [set_trigger_loop]. unfold set_trigger_iteration at 1.
  rewrite (eqb_false_of_ne _ _ Hsec), (eqb_false_of_ne _ _ Hsam).
  destruct src as [|src].
  - change (Z.of_nat 0 =? Z.of_nat 0)%Z with true. cbv iota.
    assert (source = a0) by congruence. subst source.
    unfold bind at 1 2 3 4.
    rewrite (on_acquisition_of_nat _ _ _ _ H0).
    unfold ret at 1 2. unfold bind at 1, ret at 1.
    cbn [set_trigger_loop]. unfold set_trigger_iteration at 1.
    rewrite (eqb_false_of_ne _ _ Hsec), (eqb_false_of_ne _ _ Hsam).
    change (Z.of_nat 1 =? Z.of_nat 0)%Z with false. cbv iota.
    unfold bind at 1 2 3 4.
    match goal with |- context [acquisition_at (Z.of_nat 0) ?s] =>
      rewrite (acquisition_at_of_nat s 0
                 (acq_log (Call_set_trigger (ts_level spec) (ts_channel spec)
                        (ts_duration spec) unit_ (ts_presamples spec)
                        (lower (ts_trigger_type spec))) a0))
    end.
    2:{ cbn. rewrite Hacq. reflexivity. }
    unfold lift_result at 1. cbn [sample_rate acq_log].
    rewrite (truediv_ok _ _ HRs). unfold bind at 1.
    match goal with |- context [acquisition_at (Z.of_nat 1) ?s] =>
      rewrite (acquisition_at_of_nat s 1 a1)
    end.
    2:{ cbn. rewrite Hacq. reflexivity. }
    unfold raise. cbn [Nat.eqb]. unfold c0. cbn. rewrite Hacq. reflexivity.
  - replace (Z.of_nat 0 =? Z.of_nat (S src))%Z with false
      by (symmetry; apply Z.eqb_neq; lia).
    cbv iota. unfold bind at 1 2 3 4.
    rewrite (acquisition_at_of_nat _ _ _ Hs).
    unfold lift_result at 1. rewrite (truediv_ok _ _ HRs).
    unfold bind at 1. rewrite (acquisition_at_of_nat _ _ _ H0).
    unfold raise. cbn [Nat.eqb]. unfold c0.
    destruct c; cbn in *. subst. reflexivity.
Qed.

Lemma set_trigger_unknown_unit_partial_witness :
  (set_trigger (SourceIndex 0) (Sample.trigger 2 "minutes" 100)
     Sample.two_rates).2 = Raise invalid_unit_error.
Proof.
  exact (f_equal snd
           (set_trigger_unknown_unit_partial Sample.two_rates 0
              (Sample.trigger 2 "minutes" 100)
              (Sample.worker "A" 1000) (Sample.worker "B" 2000)
              (Sample.worker "A" 1000) []
              ltac:(discriminate) ltac:(discriminate) eq_refl eq_refl
              ltac:(vm_compute; discriminate))).
Defined.

(** X4.  With the unit "samples" and the first acquisition source as
    trigger source, [set_trigger] configures that source and then raises
    [UnboundLocalError] for [source_sample_rate]; no other source is
    configured. *)
Theorem set_trigger_samples_on_first_source (c : Core) (spec : TriggerSpec)
    (a0 : Acquisition) (rest : list Acquisition) :
  lower (ts_duration_unit spec) = "samples"%string ->
  acquisitions c = a0 :: rest ->
  set_trigger (SourceIndex 0) spec c
  = (set_acquisitions
       (acq_log (Call_set_trigger (ts_level spec) (ts_channel spec)
                   (inject_Z (int (ts_duration spec))) "samples"
                   (ts_presamples spec) (lower (ts_trigger_type spec))) a0
        :: rest)
       (set_trigger_source_index (Some 0%Z) c),
     Raise (UnboundLocalError "source_sample_rate")).
Proof.
  intros Hunit Hacq. unfold set_trigger. rewrite Hunit.
  change (String.eqb "samples" "samples") with true. cbv iota.
  unfold bind at 1 2, ret at 1, modify at 1. unfold bind at 1, get at 1.
  cbn [acquisitions set_trigger_source_index]. rewrite Hacq.
  cbn [length]. change (seq 0 (S (length rest)))
    with (0 :: seq 1 (length rest)).
  cbn [set_trigger_loop]. unfold set_trigger_iteration at 1.
  change (Z.of_nat 0 =? 0)%Z with true. cbv iota.
  unfold bind at 1 2 3.
  rewrite (on_acquisition_of_nat _ 0 a0).
  2:{ cbn. rewrite Hacq. reflexivity. }
  unfold ret at 1. cbn [String.eqb Ascii.eqb Bool.eqb]. unfold raise.
  cbn. rewrite Hacq. reflexivity.
Qed.

Lemma set_trigger_samples_on_first_source_witness :
  (set_trigger (SourceIndex 0) (Sample.trigger 2000 "samples" 100)
     Sample.two_rates).2 = Raise (UnboundLocalError "source_sample_rate").
Proof.
  exact (f_equal snd
           (set_trigger_samples_on_first_source Sample.two_rates
              (Sample.trigger 2000 "samples" 100)
              (Sample.worker "A" 1000) [Sample.worker "B" 2000]
              eq_refl eq_refl)).
Defined.

(** ** What [set_trigger] records *)

Lemma keeps_on_acquisition_of {X} (f : Core -> X) i g :
  (forall v c, f (set_acquisitions v c) = f c) ->
  keeps f (on_acquisition i g).
Proof.
  intros Hf. unfold on_acquisition. apply keeps_bind.
  - apply keeps_acquisition_at.
  - intros a c. apply Hf.
Qed.

(** As [frame], for an observation that the assignments to the list of
    sources do not change. *)
Ltac frame_of :=
  repeat first
    [ apply keeps_ret | apply keeps_raise | apply keeps_get
    | apply keeps_lift_result | apply keeps_acquisition_at
    | (apply keeps_on_acquisition_of; intros ? ?; reflexivity)
    | (apply keeps_modify; intros ?; reflexivity)
    | (apply keeps_bind; [|intros ?])
    | (apply keeps_for_each; intros ?)
    | match goal with
      | |- keeps _ (if ?b then _ else _) => destruct b
      | |- keeps _ (match ?x with _ => _ end) => destruct x
      | |- keeps _ (let '(_, _) := ?x in _) => destruct x
      end ].

Lemma set_trigger_iteration_frame k src channel level duration duration_unit
    presamples trigger_type ssr :
  keeps (fun c => set_measurement_duration None (set_acquisitions [] c))
    (set_trigger_iteration k src channel level duration duration_unit
       presamples trigger_type ssr).
Proof. unfold set_trigger_iteration. frame_of. Qed.

Lemma set_trigger_loop_frame idxs src channel level duration duration_unit
    presamples trigger_type :
  forall ssr,
    keeps (fun c => set_measurement_duration None (set_acquisitions [] c))
      (set_trigger_loop idxs src channel level duration duration_unit
         presamples trigger_type ssr).
Proof.
  induction idxs as [|idx idxs IH]; intros ssr; cbn [set_trigger_loop].
  - apply keeps_ret.
  - apply keeps_bind; [apply set_trigger_iteration_frame|]. intros s. apply IH.
Qed.

Lemma core_of_frame (c c' : Core) :
  set_measurement_duration None (set_acquisitions [] c')
  = set_measurement_duration None (set_acquisitions [] c) ->
  c' = set_measurement_duration (measurement_duration c')
         (set_acquisitions (acquisitions c') c).
Proof.
  destruct c, c'. unfold set_measurement_duration, set_acquisitions. cbn.
  intros [=]. subst. reflexivity.
Qed.

(** A returning iteration has assigned [measurement_duration]. *)
Lemma set_trigger_iteration_duration k src channel level duration
    duration_unit presamples trigger_type ssr c c1 ssr1 (Rs : Q) :
  duration_unit = "seconds"%string \/ duration_unit = "samples"%string ->
  set_trigger_iteration k src channel level duration duration_unit
    presamples trigger_type ssr c = (c1, Ok ssr1) ->
  (duration_unit = "samples"%string -> ssr1 = Some Rs) ->
  measurement_duration c1
  = Some (duration_recorded duration duration_unit Rs).
Proof.
  intros Hunit Hrun Hssr. unfold set_trigger_iteration in Hrun.
  unfold bind at 1 in Hrun.
  match type of Hrun with
  | context [match ?m c with _ => _ end] => destruct (m c) as [cA [sA|e]]
  end; [|discriminate Hrun].
  unfold duration_recorded.
  destruct Hunit as [U|U]; rewrite U in *;
    cbn [String.eqb Ascii.eqb Bool.eqb] in *.
  - unfold bind, modify, ret in Hrun. injection Hrun as <- <-. reflexivity.
  - destruct sA as [rate|]; [|discriminate Hrun].
    unfold bind, lift_result, modify, ret in Hrun.
    destruct (truediv duration rate) as [d|e] eqn:Ed; [|discriminate Hrun].
    injection Hrun as <- <-. specialize (Hssr eq_refl).
    injection Hssr as <-. apply truediv_inv in Ed as [_ ->]. reflexivity.
Qed.

Section Recording.
Variables (src : nat) (channel : Channel) (level duration : Q)
  (duration_unit : string) (presamples : Z) (trigger_type : string)
  (Rs : Q).
Hypothesis Rs_nonzero : ~ (Rs == 0)%Q.
Hypothesis unit_known :
  duration_unit = "seconds"%string \/ duration_unit = "samples"%string.

(** A returning loop over at least one index has assigned
    [measurement_duration]. *)
Lemma set_trigger_loop_duration (m : nat) :
  forall (k : nat) (c : Core) (ssr : option Q) (source : Acquisition),
    acquisitions c !! src = Some source ->
    sample_rate source = Rs ->
    k + S m = length (acquisitions c) ->
    (duration_unit = "samples"%string ->
     (k = 0 /\ 0 < src) \/ ssr = Some Rs) ->
    forall c',
      set_trigger_loop (seq k (S m)) (Z.of_nat src) channel level duration
        duration_unit presamples trigger_type ssr c = (c', Ok tt) ->
      measurement_duration c'
      = Some (duration_recorded duration duration_unit Rs).
Proof.
  induction m as [|m IH]; intros k c ssr source Hsrc Hrate Hlen Hssr c' Hrun.
  - change (seq k 1) with [k] in Hrun. cbn [set_trigger_loop] in Hrun.
    unfold bind at 1 in Hrun.
    assert (Hk : k < length (acquisitions c)) by lia.
    destruct (lookup_lt_is_Some_2 _ _ Hk) as [ak Hak].
    destruct (set_trigger_iteration_spec src channel level duration
                duration_unit presamples trigger_type Rs Rs_nonzero
                unit_known k c ssr source ak Hsrc Hrate Hak)
      as (c1 & ssr1 & Hit & Hl1 & Hssr1).
    { intros U ->. destruct (Hssr U) as [[-> H0]|Hs]; [lia|exact Hs]. }
    rewrite Hit in Hrun. injection Hrun as <-.
    eapply set_trigger_iteration_duration; eauto.
  - change (seq k (S (S m))) with (k :: seq (S k) (S m)) in Hrun.
    cbn [set_trigger_loop] in Hrun. unfold bind at 1 in Hrun.
    assert (Hk : k < length (acquisitions c)) by lia.
    destruct (lookup_lt_is_Some_2 _ _ Hk) as [ak Hak].
    destruct (set_trigger_iteration_spec src channel level duration
                duration_unit presamples trigger_type Rs Rs_nonzero
                unit_known k c ssr source ak Hsrc Hrate Hak)
      as (c1 & ssr1 & Hit & Hl1 & Hssr1).
    { intros U ->. destruct (Hssr U) as [[-> H0]|Hs]; [lia|exact Hs]. }
    rewrite Hit in Hrun.
    assert (Hsrc1 : exists source1, acquisitions c1 !! src = Some source1
                                    /\ sample_rate source1 = Rs).
    { rewrite Hl1.
      destruct (Nat.eq_dec k src) as [->|Hne].
      - eexists. split.
        + apply list_lookup_insert_eq. exact Hk.
        + rewrite sample_rate_configured. congruence.
      - exists source. split; [|exact Hrate].
        rewrite list_lookup_insert_ne by exact Hne. exact Hsrc. }
    destruct Hsrc1 as (source1 & Hsrc1 & Hrate1).
    apply (IH (S k) c1 ssr1 source1 Hsrc1 Hrate1); auto.
    rewrite Hl1, length_insert. lia.
Qed.

End Recording.



(** ** The error of the truncation *)

Lemma int_floor (x : Q) :
  (0 <= x)%Q -> (inject_Z (int x) <= x < inject_Z (int x) + 1)%Q.
Proof.
  intros Hx. assert (E : int x = Qfloor x).
  { destruct x as [n d]. unfold int, Qfloor. cbn [Qnum Qden].
    apply Z.quot_div_nonneg; [|lia].
    unfold Qle in Hx. cbn in Hx. lia. }
  rewrite E. split; [apply Qfloor_le|].
  pose proof (Qlt_floor x) as H. rewrite inject_Z_plus in H. exact H.
Qed.

(** A count [n] at the rate [Rs], converted to the rate [Rt] and truncated,
    stands for a time that is not later than [n / Rs] and less than one
    period of [Rt] earlier. *)
Lemma int_conversion_bound (x Rs Rt : Q) :
  (0 <= x)%Q -> (0 < Rs)%Q -> (0 < Rt)%Q ->
  (inject_Z (int (x / Rs * Rt)) / Rt <= x / Rs
   < inject_Z (int (x / Rs * Rt)) / Rt + 1 / Rt)%Q.
Proof.
  intros Hx HRs HRt.
  assert (H0 : (0 <= x / Rs * Rt)%Q).
  { apply Qmult_le_0_compat; [|apply Qlt_le_weak; exact HRt].
    apply Qle_shift_div_l; [exact HRs|]. rewrite Qmult_0_l. exact Hx. }
  destruct (int_floor _ H0) as [Hlo Hhi].
  set (n := inject_Z (int (x / Rs * Rt))) in *.
  split.
  - apply Qle_shift_div_r; [exact HRt|]. exact Hlo.
  - assert (E : (n / Rt + 1 / Rt == (n + 1) / Rt)%Q) by (field; lra).
    rewrite E. apply Qlt_shift_div_l; [exact HRt|]. exact Hhi.
Qed.



(** ** Stopping *)

Lemma preserves_ret {S A} (P : S -> Prop) (a : A) : preserves P (ret a).
Proof. intros s H. exact H. Qed.

Lemma preserves_bind {S A B} (P : S -> Prop) (m : M S A) (k : A -> M S B) :
  preserves P m -> (forall a, preserves P (k a)) -> preserves P (bind m k).
Proof.
  intros Hm Hk s H. unfold bind. specialize (Hm s H).
  destruct (m s) as [s' [a|e]]; cbn in *.
  - apply Hk. exact Hm.
  - exact Hm.
Qed.

Lemma preserves_for_each {S A} (P : S -> Prop) (xs : list A) body :
  (forall x, preserves P (body x)) -> preserves P (for_each xs body).
Proof.
  intros H. induction xs as [|x xs IH]; cbn.
  - apply preserves_ret.
  - apply preserves_bind; auto.
Qed.

Lemma preserves_of_keeps {S A X} (f : S -> X) (Q : X -> Prop) (m : M S A) :
  keeps f m -> preserves (fun s => Q (f s)) m.
Proof. intros K s H. rewrite K. exact H. Qed.

Lemma count_calls_log k call a :
  count_calls k (acq_log call a)
  = count_calls k a + (if k call then 1 else 0).
Proof.
  unfold count_calls. cbn [calls acq_log].
  rewrite List.filter_app, length_app. cbn. destruct (k call); reflexivity.
Qed.

Lemma stop_reaches_all_stopped (c : Core) :
  all_stopped (stop_acquisition_and_generation c).1.
Proof.
  unfold stop_acquisition_and_generation, bind, modify, all_stopped.
  cbn [fst generations acquisitions set_generations set_acquisitions].
  split.
  - apply Forall_forall. intros g Hg. apply list_elem_of_In in Hg.
    apply in_map_iff in Hg as (g0 & <- & _). reflexivity.
  - apply Forall_forall. intros a Ha. apply list_elem_of_In in Ha.
    apply in_map_iff in Ha as (a0 & <- & _).
    rewrite count_calls_log. cbn. lia.
Qed.

Lemma stop_fires_once_more (c : Core) :
  stop_acquisition_and_generation c
  = (set_generations (map gen_stop (generations c))
       (set_acquisitions (map (acq_log Call_stop) (acquisitions c)) c),
     Ok tt).
Proof. reflexivity. Qed.

Lemma category_running_stopped (gens : list Generation) :
  gens <> [] ->
  Forall (fun g => gen_is_running g = false) gens ->
  category_running gen_is_running gens = false.
Proof.
  intros Hne Hall. apply category_running_false. split; [exact Hne|].
  intros g Hg. rewrite Forall_forall in Hall. auto.
Qed.

(** X7.  After [stop_acquisition_and_generation] on a session with at
    least one generator, the next iteration of the monitor clears the
    running flag, and no iteration of a generator loop calls [generate]. *)
Theorem stop_ends_the_session (c : Core)
    (checks : option (list (Core -> bool))) :
  generations c <> [] ->
  let c1 := (stop_acquisition_and_generation c).1 in
  is_running_global (_check_events_body checks c1).1 = false
  /\ forall i generate files,
       run_generation_iteration i generate {| core := c1; disk := files |}
       = ({| core := c1; disk := files |}, Ok tt).
Proof.
  intros Hne c1. split.
  - rewrite check_events_body_running.
    rewrite (category_running_stopped (generations c1)).
    + rewrite andb_false_r. reflexivity.
    + unfold c1. cbn. destruct (generations c); [congruence|discriminate].
    + exact (proj1 (stop_reaches_all_stopped c)).
  - intros i generate files.
    unfold run_generation_iteration, bind, get. cbn [core].
    destruct (generations c1 !! i) as [g|] eqn:Hg; [|reflexivity].
    pose proof (proj1 (stop_reaches_all_stopped c)) as Hall.
    rewrite Forall_forall in Hall.
    rewrite (Hall g (list_elem_of_lookup_2 _ _ _ Hg)). reflexivity.
Qed.

Lemma stop_ends_the_session_witness :
  is_running_global
    (_check_events_body None
       (stop_acquisition_and_generation
          (core (world Run.generating))).1).1 = false.
Proof.
  apply (stop_ends_the_session (core (world Run.generating)) None).
  discriminate.
Defined.

(** ** The additional check functions *)

Lemma all_stopped_stop :
  preserves all_stopped stop_acquisition_and_generation.
Proof. intros c _. apply stop_reaches_all_stopped. Qed.

Lemma check_loop_keeps_stopped (funs : list (Core -> bool)) :
  preserves all_stopped
    (for_each funs (fun fn =>
       let* c := get in
       if fn c then stop_acquisition_and_generation else ret tt)).
Proof.
  apply preserves_for_each. intros fn c H. unfold bind, get.
  destruct (fn c); [apply all_stopped_stop; exact H|exact H].
Qed.

Lemma check_loop_stops (funs : list (Core -> bool)) (fn : Core -> bool) :
  fn ∈ funs -> (forall c, fn c = true) ->
  forall c c',
    for_each funs (fun fn =>
      let* c := get in
      if fn c then stop_acquisition_and_generation else ret tt) c
    = (c', Ok tt) ->
    all_stopped c'.
Proof.
  intros Hin Htrue. induction funs as [|g funs IH]; [inversion Hin|].
  intros c c'. cbn [for_each]. unfold bind at 1.
  apply elem_of_cons in Hin as [<-|Hin].
  - unfold bind at 1, get at 1. rewrite Htrue.
    rewrite stop_fires_once_more. intros Hrun.
    pose proof (check_loop_keeps_stopped funs _
                  (stop_reaches_all_stopped c)) as K.
    rewrite stop_fires_once_more in K. cbn [fst] in K.
    rewrite Hrun in K. exact K.
  - unfold bind at 1, get at 1. destruct (g c).
    + rewrite stop_fires_once_more. apply IH. exact Hin.
    + apply IH. exact Hin.
Qed.



(** ** The trigger flag *)

Lemma preserves_triggered_start :
  preserves (fun c => triggered_globally c = true) start_acquisition.
Proof.
  intros c H. unfold start_acquisition, bind, get. rewrite H. exact H.
Qed.

Lemma keeps_triggered_stop :
  keeps triggered_globally stop_acquisition_and_generation.
Proof. unfold stop_acquisition_and_generation. frame_of. Qed.

Lemma triggered_start (c : Core) :
  triggered_globally (start_acquisition c).1 = true.
Proof.
  unfold start_acquisition, bind at 1, get at 1.
  destruct (triggered_globally c) eqn:E; [exact E|]. cbn [negb].
  unfold bind at 1, modify at 1.
  match goal with |- triggered_globally (?m ?s).1 = true =>
    assert (K : keeps triggered_globally m) by frame_of; rewrite K
  end.
  reflexivity.
Qed.

Lemma preserves_triggered_body checks :
  preserves (fun c => triggered_globally c = true)
    (_check_events_body checks).
Proof.
  unfold _check_events_body.
  repeat first
    [ apply preserves_ret
    | apply preserves_triggered_start
    | (apply (preserves_of_keeps triggered_globally (fun b => b = true));
       first [ apply keeps_triggered_stop | frame_of; fail ])
    | (apply preserves_bind; [|intros ?])
    | (apply preserves_for_each; intros ?)
    | (intros ? ?; reflexivity)
    | match goal with
      | |- preserves _ (if ?b then _ else _) => destruct b
      | |- preserves _ (match ?x with _ => _ end) => destruct x
      end ].
Qed.

(** The saving thread changes nothing of the [Core] object but the
    acquisition sources, which it drains. *)
Lemma keeps_rest_update_loop idxs tld :
  forall data, keeps (set_acquisitions []) (update_loop idxs tld data).
Proof.
  induction idxs as [|idx idxs IH]; intros data; cbn [update_loop].
  - frame_of.
  - apply keeps_bind; [unfold update_iteration; frame_of|]. intros d. apply IH.
Qed.

Lemma keeps_rest_open_and_save sz base dir idx :
  keeps (fun w => set_acquisitions [] (core w))
    (_open_and_save sz base dir idx).
Proof.
  unfold _open_and_save, path_exists, getsize, load_measurement, dump.
  destruct (splitext base) as [b ext].
  frame_of; try (intros w; reflexivity).
  all: try (apply (keeps_on_core (set_acquisitions []));
            apply keeps_rest_update_loop).
Qed.

Lemma keeps_rest_saver_iteration sz clk l :
  keeps (fun w => set_acquisitions [] (core w)) (saver_iteration sz clk l).
Proof.
  unfold saver_iteration. frame_of; try apply keeps_rest_open_and_save.
Qed.

Lemma keeps_rest_saver_final sz l :
  keeps (fun w => set_acquisitions [] (core w)) (saver_final sz l).
Proof.
  unfold saver_final. frame_of; try apply keeps_rest_open_and_save.
Qed.

Lemma triggered_stop_event_handling {A} (func : M World A) w :
  triggered_of (_stop_event_handling func w).1 = triggered_of (func w).1.
Proof.
  unfold _stop_event_handling. destruct (func w) as [w' [a|e]]; reflexivity.
Qed.

Lemma triggered_on_core {A} (m : M Core A) w :
  triggered_of (on_core m w).1 = triggered_globally (m (core w)).1.
Proof. unfold on_core. destruct (m (core w)). reflexivity. Qed.

Lemma triggered_of_rest (w w' : World) :
  set_acquisitions [] (core w') = set_acquisitions [] (core w) ->
  triggered_of w' = triggered_of w.
Proof.
  intros H. unfold triggered_of.
  change (triggered_globally (set_acquisitions [] (core w'))
          = triggered_globally (set_acquisitions [] (core w))).
  rewrite H. reflexivity.
Qed.

(** The saving thread does not assign the trigger flag. *)
Lemma saver_step_triggered sz clk s :
  triggered_of (world (saver_step sz clk s)) = triggered_of (world s).
Proof.
  unfold saver_step. destruct (saver s); try reflexivity.
  destruct (running (saver_locals s)).
  - pose proof (triggered_stop_event_handling
                  (saver_iteration sz clk (saver_locals s)) (world s)) as K.
    pose proof (keeps_rest_saver_iteration sz clk (saver_locals s) (world s))
      as R.
    destruct (_stop_event_handling _ (world s)) as [w r].
    cbn [world]. cbn [fst] in K. rewrite K. apply triggered_of_rest. exact R.
  - pose proof (triggered_stop_event_handling
                  (saver_final sz (saver_locals s)) (world s)) as K.
    pose proof (keeps_rest_saver_final sz (saver_locals s) (world s)) as R.
    destruct (_stop_event_handling _ (world s)) as [w r].
    cbn [world]. cbn [fst] in K. rewrite K. apply triggered_of_rest. exact R.
Qed.

Lemma step_latches_triggered sz s s' :
  step sz s s' ->
  triggered_of (world s) = true -> triggered_of (world s') = true.
Proof.
  intros Hstep H. destruct Hstep.
  - unfold monitor_step. destruct (monitor s); try exact H.
    destruct (flag_running s); [|exact H].
    pose proof (triggered_stop_event_handling
                  (on_core (_check_events_body (additional_check_functions s)))
                  (world s)) as K.
    rewrite triggered_on_core in K.
    destruct (_stop_event_handling _ (world s)) as [w r].
    cbn [world]. cbn [fst] in K. rewrite K.
    apply preserves_triggered_body. exact H.
  - rewrite saver_step_triggered. exact H.
  - unfold main_step. destruct (main s); try exact H.
    + destruct (flag_running s); [exact H|].
      cbn [world with_main with_world]. rewrite triggered_on_core.
      rewrite keeps_triggered_stop. exact H.
    + destruct (monitor s), (saver s); try exact H;
        cbn [world with_main with_world]; unfold triggered_of; cbn [core];
        destruct (verbose_in_1_2 (core (world s))); exact H.
  - cbn [world with_world]. rewrite triggered_on_core. apply triggered_start.
  - cbn [world with_world]. rewrite triggered_on_core.
    rewrite keeps_triggered_stop. exact H.
  - cbn [world with_world]. unfold triggered_of. cbn [core].
    match goal with W : workers_progress _ _ |- _ =>
      rewrite (wp_core _ _ W) end.
    exact H.
  - cbn [world with_world]. rewrite triggered_stop_event_handling. exact H.
Qed.

(** X9.  Over the steps of a session, once the global trigger flag is set
    it stays set. *)
Theorem trigger_flag_is_latched (pickled_size : gmap string Measurement -> Z)
    (s s' : Session) :
  steps pickled_size s s' ->
  triggered_of (world s) = true -> triggered_of (world s') = true.
Proof.
  intros Hsteps. induction Hsteps as [s|s1 s2 s3 _ IH Hstep]; [auto|].
  intros H. eapply step_latches_triggered; eauto.
Qed.

Lemma trigger_flag_is_latched_witness :
  triggered_of
    (world (monitor_step
              (with_world
                 (on_core start_acquisition (world Run.generating)).1
                 Run.generating))) = true.
Proof.
  apply (trigger_flag_is_latched Sample.size_zero
           (with_world (on_core start_acquisition (world Run.generating)).1
              Run.generating)).
  - eapply steps_step; [apply steps_refl|apply step_monitor].
  - reflexivity.
Defined.

(** ** No file before the trigger *)

Lemma saver_step_idle sz clk s :
  triggered_of (world s) = false ->
  disk (world (saver_step sz clk s)) = disk (world s).
Proof.
  intros H. unfold saver_step. destruct (saver s); try reflexivity.
  unfold triggered_of in H.
  destruct (running (saver_locals s)).
  - unfold _stop_event_handling, saver_iteration, bind at 1, get at 1.
    destruct (is_running_global (core (world s)));
      [|destruct (Qltb _ _)]; cbv beta iota zeta;
      unfold bind, get; rewrite H; reflexivity.
  - unfold _stop_event_handling, saver_final, bind, get.
    rewrite H. reflexivity.
Qed.

Lemma step_disk (sz : gmap string Measurement -> Z) s s' :
  step sz s s' ->
  (forall clk, s' <> saver_step sz clk s) \/ triggered_of (world s) = false ->
  disk (world s') = disk (world s).
Proof.
  intros Hstep Hside. destruct Hstep.
  - unfold monitor_step. destruct (monitor s); try reflexivity.
    destruct (flag_running s); [|reflexivity].
    pose proof (disk_stop_event_handling
                  (on_core (_check_events_body (additional_check_functions s)))
                  (world s)) as K.
    rewrite disk_on_core in K.
    destruct (_stop_event_handling _ (world s)) as [w r].
    cbn [world]. cbn [fst] in K. exact K.
  - destruct Hside as [Hne|Ht]; [exfalso; exact (Hne clk eq_refl)|].
    apply saver_step_idle. exact Ht.
  - unfold main_step. destruct (main s); try reflexivity.
    + destruct (flag_running s); [reflexivity|].
      cbn [world with_main with_world]. apply disk_on_core.
    + destruct (monitor s), (saver s); reflexivity.
  - cbn [world with_world]. apply disk_on_core.
  - cbn [world with_world]. apply disk_on_core.
  - reflexivity.
  - cbn [world with_world]. rewrite disk_stop_event_handling. reflexivity.
Qed.

(** X10.  As long as the global trigger flag is not set, the steps of a
    session leave the disk as it was: the saving thread writes nothing
    before the trigger. *)
Theorem no_file_before_the_trigger
    (pickled_size : gmap string Measurement -> Z) (s s' : Session) :
  steps pickled_size s s' ->
  triggered_of (world s') = false ->
  disk (world s') = disk (world s).
Proof.
  intros Hsteps. induction Hsteps as [s|s1 s2 s3 Hsteps IH Hstep]; [auto|].
  intros H3.
  assert (H2 : triggered_of (world s2) = false).
  { destruct (triggered_of (world s2)) eqn:E; [|reflexivity].
    rewrite (step_latches_triggered _ _ _ Hstep E) in H3. discriminate. }
  rewrite <- (IH H2). eapply step_disk; eauto.
Qed.

Lemma no_file_before_the_trigger_witness :
  disk (world (saver_step Sample.size_zero (Run.clock 6)
                 (monitor_step Scenario.waiting))) = ∅.
Proof.
  apply (no_file_before_the_trigger Sample.size_zero Scenario.waiting
           (saver_step Sample.size_zero (Run.clock 6)
              (monitor_step Scenario.waiting))).
  - eapply steps_step; [eapply steps_step; [apply steps_refl|]|].
    + apply step_monitor.
    + apply step_saver.
  - vm_compute. reflexivity.
Defined.

(** ** The return of [run] *)

Lemma main_monitor_step s : main (monitor_step s) = main s.
Proof.
  unfold monitor_step. destruct (monitor s); try reflexivity.
  destruct (flag_running s); [|reflexivity].
  destruct (_stop_event_handling _ (world s)) as [w r]. reflexivity.
Qed.

Lemma main_saver_step sz clk s : main (saver_step sz clk s) = main s.
Proof.
  unfold saver_step. destruct (saver s); try reflexivity.
  destruct (running (saver_locals s));
    destruct (_stop_event_handling _ (world s)) as [w r]; reflexivity.
Qed.

Lemma monitor_step_ended s : monitor s <> Alive -> monitor_step s = s.
Proof. unfold monitor_step. destruct (monitor s); [congruence|auto|auto]. Qed.

Lemma saver_step_ended sz clk s :
  saver s <> Alive -> saver_step sz clk s = s.
Proof. unfold saver_step. destruct (saver s); [congruence|auto|auto]. Qed.

Lemma step_run_exit_ok sz s s' :
  step sz s s' -> run_exit_ok s -> run_exit_ok s'.
Proof.
  intros Hstep [Hflag Hjoin].
  pose proof (step_keeps_stopped sz s s' Hstep) as Hkeep.
  destruct Hstep.
  - split; rewrite main_monitor_step; intros Hm.
    + apply Hkeep. exact (Hflag Hm).
    + destruct (Hjoin Hm) as [H1 H2].
      rewrite (monitor_step_ended s H1). auto.
  - split; rewrite main_saver_step; intros Hm.
    + apply Hkeep. exact (Hflag Hm).
    + destruct (Hjoin Hm) as [H1 H2].
      rewrite (saver_step_ended sz clk s H2). auto.
  - unfold main_step in *. destruct (main s) eqn:Em.
    + destruct (flag_running s) eqn:Ef.
      * split; intros Hm; congruence.
      * split; [intros _; apply Hkeep; reflexivity|].
        cbn [main with_main]. intros Hm. discriminate Hm.
    + assert (Hf : flag_running s = false) by (apply Hflag; discriminate).
      destruct (monitor s) eqn:E1, (saver s) eqn:E2;
        (split; [intros _; apply Hkeep; exact Hf|]);
        cbn [main monitor saver with_main with_world];
        try (rewrite Em; intros Hm; discriminate Hm);
        intros _; rewrite E1, E2; split; intros Hm; discriminate Hm.
    + unfold run_exit_ok. rewrite Em. split; [exact Hflag|exact Hjoin].
  - split; [intros Hm; apply Hkeep; exact (Hflag Hm)|exact Hjoin].
  - split; [intros Hm; apply Hkeep; exact (Hflag Hm)|exact Hjoin].
  - split; [intros Hm; apply Hkeep; exact (Hflag Hm)|exact Hjoin].
  - split; [intros Hm; apply Hkeep; exact (Hflag Hm)|exact Hjoin].
Qed.

(** X11.  When [run] returns, the running flag is cleared and neither the
    monitor nor the saving thread is still running. *)
Theorem run_returns_only_when_stopped
    (pickled_size : gmap string Measurement -> Z) (s s' : Session) :
  steps pickled_size s s' ->
  main s = Polling ->
  main s' = Returned ->
  flag_running s' = false /\ monitor s' <> Alive /\ saver s' <> Alive.
Proof.
  intros Hsteps Hstart Hret.
  assert (H : run_exit_ok s').
  { clear Hret. induction Hsteps as [s|s1 s2 s3 _ IH Hstep].
    - split; intros Hm; congruence.
    - eapply step_run_exit_ok; eauto. }
  destruct H as [Hflag Hjoin]. split.
  - apply Hflag. congruence.
  - exact (Hjoin Hret).
Qed.

Lemma run_returns_only_when_stopped_witness :
  flag_running (main_step (monitor_step (main_step Run.stopped))) = false
  /\ monitor (main_step (monitor_step (main_step Run.stopped))) <> Alive
  /\ saver (main_step (monitor_step (main_step Run.stopped))) <> Alive.
Proof.
  apply (run_returns_only_when_stopped Sample.size_zero Run.generating
           (main_step (monitor_step (main_step Run.stopped)))).
  - unfold Run.stopped.
    repeat (eapply steps_step;
            [|first [apply step_monitor | apply step_main
                    | apply source_ends_is_a_step]]).
    apply steps_refl.
  - reflexivity.
  - vm_compute. reflexivity.
Defined.

(** ** The monitor and the trigger *)

Lemma getitem_lookup {A} (l : list A) (i : Z) (a : A) :
  getitem l i = Ok a ->
  l !! Z.to_nat (if (i <? 0)%Z then (i + Z.of_nat (length l))%Z else i)
  = Some a.
Proof.
  unfold getitem.
  destruct (_ <? 0)%Z; [discriminate|].
  destruct (l !! _) as [x|]; [|discriminate]. intros [= ->]. reflexivity.
Qed.

Lemma keeps_on_acquisition_map {X} (h : Acquisition -> X) i g :
  (forall a, h (g a) = h a) ->
  keeps (fun c => map h (acquisitions c)) (on_acquisition i g).
Proof.
  intros Hg c. unfold on_acquisition, bind, acquisition_at.
  destruct (getitem (acquisitions c) i) as [a|e] eqn:E; [|reflexivity].
  cbn [fst acquisitions set_acquisitions].
  apply getitem_lookup in E.
  change (map h) with (fmap (M := list) h).
  rewrite list_fmap_insert, Hg.
  apply list_insert_id. rewrite list_lookup_fmap, E. reflexivity.
Qed.

(** As [frame], for the values of an attribute [h] over the list of
    sources. *)
Ltac frame_map :=
  repeat first
    [ apply keeps_ret | apply keeps_raise | apply keeps_get
    | apply keeps_lift_result | apply keeps_acquisition_at
    | (apply keeps_on_acquisition_map; intros ?; reflexivity)
    | (apply keeps_modify; intros ?; reflexivity)
    | (apply keeps_bind; [|intros ?])
    | (apply keeps_for_each; intros ?)
    | match goal with
      | |- keeps _ (if ?b then _ else _) => destruct b
      | |- keeps _ (match ?x with _ => _ end) => destruct x
      | |- keeps _ (let '(_, _) := ?x in _) => destruct x
      end ].

Lemma existsb_of_map {A} (h : A -> bool) (l : list A) :
  existsb h l = existsb id (map h l).
Proof. induction l as [|x l IH]; [reflexivity|]. cbn. rewrite IH. reflexivity. Qed.

(** X12.  An iteration of the monitor that returns and finds an
    acquisition source triggered, or the global flag already set, leaves the
    flag set and [first] cleared, and has printed the three lines of the
    report exactly when [first] was set and [verbose] is 1 or 2. *)
Theorem monitor_reports_the_trigger (checks : option (list (Core -> bool)))
    (c c' : Core) :
  _check_events_body checks c = (c', Ok tt) ->
  existsb is_triggered (acquisitions c) || triggered_globally c = true ->
  triggered_globally c' = true
  /\ first c' = false
  /\ stdout c'
     = stdout c ++ (if first c && verbose_in_1_2 c then trigger_report
                    else []).
Proof.
  unfold _check_events_body.
  unfold bind at 1, get at 1. unfold bind at 1, modify at 1.
  set (c0 := set_is_running_global _ c).
  unfold bind at 1. unfold acquisition_at at 1.
  destruct (getitem (acquisitions c0) 0) as [acq0|e]; [|discriminate].
  unfold bind at 1.
  match goal with
  | |- match ?m c0 with _ => _ end = _ -> _ =>
      assert (K1 : keeps (fun c => (first c, verbose c, stdout c)) m)
        by (unfold start_acquisition; frame_of);
      assert (K2 : keeps (fun c => map is_triggered (acquisitions c)) m)
        by (unfold start_acquisition; frame_map);
      assert (K3 : preserves (fun c => triggered_globally c = true) m);
      [|specialize (K1 c0); specialize (K2 c0); specialize (K3 c0);
        destruct (m c0) as [cB [[]|e]]; [|discriminate]]
  end.
  { repeat first
      [ apply preserves_ret
      | apply preserves_triggered_start
      | (apply (preserves_of_keeps triggered_globally (fun b => b = true));
         frame_of; fail)
      | (apply preserves_bind; [|intros ?])
      | match goal with
        | |- preserves _ (if ?b then _ else _) => destruct b
        end ]. }
  cbn [fst] in K1, K2, K3.
  injection K1 as Hfirst Hverbose Hout.
  change (first c0) with (first c) in Hfirst.
  change (verbose c0) with (verbose c) in Hverbose.
  change (stdout c0) with (stdout c) in Hout.
  change (acquisitions c0) with (acquisitions c) in K2.
  change (triggered_globally c0) with (triggered_globally c) in K3.
  unfold bind at 1, get at 1. unfold bind at 1.
  intros Hrun Htrig.
  assert (HB : existsb is_triggered (acquisitions cB)
               || triggered_globally cB = true).
  { rewrite existsb_of_map, K2, <- existsb_of_map.
    destruct (existsb is_triggered (acquisitions c)); [reflexivity|].
    cbn in Htrig |- *. auto. }
  clear K3 Htrig.
  assert (HC : exists cC,
            (if existsb is_triggered (acquisitions cB)
                && negb (triggered_globally cB)
             then modify (set_triggered_globally true)
             else ret tt) cB = (cC, Ok tt)
            /\ triggered_globally cC = true
            /\ first cC = first c
            /\ verbose_in_1_2 cC = verbose_in_1_2 c
            /\ stdout cC = stdout c).
  { unfold verbose_in_1_2.
    destruct (existsb is_triggered (acquisitions cB));
      destruct (triggered_globally cB) eqn:E; cbn in HB |- *;
      try discriminate HB; eexists; (split; [reflexivity|]);
      cbn; rewrite ?Hverbose; auto. }
  destruct HC as (cC & HC & HtC & HfC & HvC & HoC).
  rewrite HC in Hrun. clear HC HB.
  cbv beta iota in Hrun.
  unfold bind at 1, get at 1 in Hrun. unfold bind at 1 in Hrun.
  rewrite HtC, HfC, HvC, andb_true_r in Hrun.
  match type of Hrun with
  | match ?m cC with _ => _ end = _ =>
      assert (HD : exists cD, m cC = (cD, Ok tt)
                /\ triggered_globally cD = true /\ first cD = false
                /\ stdout cD
                   = stdout c ++ (if first c && verbose_in_1_2 c
                                  then trigger_report else []))
  end.
  { destruct (first c) eqn:Ef.
    - destruct (verbose_in_1_2 c); eexists; (split; [reflexivity|]); cbn;
        rewrite ?HoC, ?app_nil_r, <- ?app_assoc; auto.
    - eexists. split; [reflexivity|]. cbn. rewrite HoC, app_nil_r.
      rewrite <- HfC in Ef. auto. }
  destruct HD as (cD & HD & Ht & Hf & Ho). rewrite HD in Hrun.
  match type of Hrun with
  | ?m cD = _ =>
      assert (K : keeps (fun c => (triggered_globally c, first c, stdout c)) m)
        by (unfold stop_acquisition_and_generation; frame_of);
      specialize (K cD); rewrite Hrun in K; cbn [fst] in K;
      injection K as -> -> ->
  end.
  auto.
Qed.

Lemma monitor_reports_the_trigger_witness :
  triggered_globally (_check_events_body None Run.saving_core).1 = true
  /\ first (_check_events_body None Run.saving_core).1 = false.
Proof.
  destruct (monitor_reports_the_trigger None Run.saving_core
              (_check_events_body None Run.saving_core).1
              ltac:(vm_compute; reflexivity) eq_refl)
    as (H1 & H2 & _).
  split; [exact H1|exact H2].
Defined.

(** ** The report of the trigger *)

Lemma reports_print o c :
  reports (print o c) = reports c + (if is_trigger_line o then 1 else 0).
Proof.
  unfold reports. cbn [stdout print].
  rewrite List.filter_app, length_app. cbn.
  destruct (is_trigger_line o); reflexivity.
Qed.

Lemma check_events_body_reports checks c c' r :
  _check_events_body checks c = (c', r) ->
  (first c' = first c /\ reports c' = reports c)
  \/ (first c = true /\ first c' = false /\ reports c' <= reports c + 1).
Proof.
  unfold _check_events_body.
  unfold bind at 1, get at 1. unfold bind at 1, modify at 1.
  set (c0 := set_is_running_global _ c).
  unfold bind at 1. unfold acquisition_at at 1.
  destruct (getitem (acquisitions c0) 0) as [acq0|e];
    [|intros [= <- _]; left; split; reflexivity].
  unfold bind at 1.
  match goal with
  | |- context [match ?m c0 with _ => _ end] =>
      assert (K1 : keeps (fun c => (first c, stdout c)) m)
        by (unfold start_acquisition; frame_of);
      specialize (K1 c0); destruct (m c0) as [cB [[]|e]]
  end; cbn [fst] in K1; injection K1 as Hfirst Hout;
    change (first c0) with (first c) in Hfirst;
    change (stdout c0) with (stdout c) in Hout.
  2:{ intros [= <- _]. left. unfold reports. rewrite Hfirst, Hout. auto. }
  unfold bind at 1, get at 1. unfold bind at 1.
  assert (HC : exists cC,
            (if existsb is_triggered (acquisitions cB)
                && negb (triggered_globally cB)
             then modify (set_triggered_globally true)
             else ret tt) cB = (cC, Ok tt)
            /\ first cC = first c /\ stdout cC = stdout c).
  { destruct (existsb is_triggered (acquisitions cB)
              && negb (triggered_globally cB));
      eexists; (split; [reflexivity|]); auto. }
  destruct HC as (cC & -> & HfC & HoC).
  unfold bind at 1, get at 1. unfold bind at 1.
  match goal with
  | |- context [match ?m cC with _ => _ end] =>
      assert (HD : exists cD,
                m cC = (cD, Ok tt)
                /\ ((first cD = first c /\ reports cD = reports c)
                    \/ (first c = true /\ first cD = false
                        /\ reports cD <= reports c + 1)))
  end.
  { rewrite HfC. destruct (first c) eqn:Ef; cbn [andb].
    - destruct (triggered_globally cC).
      + destruct (verbose_in_1_2 cC); eexists; (split; [reflexivity|]);
          right; (split; [reflexivity|]); (split; [reflexivity|]).
        * unfold reports in *.
          cbn [stdout set_first print]. rewrite HoC.
          rewrite !List.filter_app, !length_app. cbn. lia.
        * unfold reports. cbn [stdout set_first]. rewrite HoC. lia.
      + eexists. split; [reflexivity|]. left.
        unfold reports. rewrite HfC, HoC. auto.
    - eexists. split; [reflexivity|]. left.
      unfold reports. rewrite HfC, HoC. auto. }
  destruct HD as (cD & -> & HD).
  match goal with
  | |- ?m cD = _ -> _ =>
      assert (K : keeps (fun c => (first c, stdout c)) m)
        by (unfold stop_acquisition_and_generation; frame_of);
      specialize (K cD); intros Hrun; rewrite Hrun in K; cbn [fst] in K;
      injection K as Kf Ko
  end.
  unfold reports in *. rewrite Kf, Ko. exact HD.
Qed.

Lemma reported_once_monitor n checks c :
  reported_once n c -> reported_once n (_check_events_body checks c).1.
Proof.
  unfold reported_once. intros H.
  destruct (_check_events_body checks c) as [c' r] eqn:E.
  destruct (check_events_body_reports checks c c' r E)
    as [[Hf Hr]|(Hf & Hf' & Hr)]; cbn [fst].
  - rewrite Hf, Hr. exact H.
  - rewrite Hf in H. rewrite Hf'. lia.
Qed.

Lemma reported_once_rest n (c c' : Core) :
  set_acquisitions [] c' = set_acquisitions [] c ->
  reported_once n c -> reported_once n c'.
Proof.
  intros H. unfold reported_once, reports.
  change (first c') with (first (set_acquisitions [] c')).
  change (stdout c') with (stdout (set_acquisitions [] c')).
  rewrite H. auto.
Qed.

Lemma reported_once_stop_event_handling {A} n (func : M World A) w :
  reported_once n (core (func w).1) ->
  reported_once n (core (_stop_event_handling func w).1).
Proof.
  unfold _stop_event_handling. destruct (func w) as [w' [a|e]]; [auto|].
  intros H. unfold reported_once, reports in *.
  cbn [fst core stdout set_stop_event print first].
  rewrite !List.filter_app, !length_app. cbn in *. lia.
Qed.

Lemma reported_once_on_core {A} n (m : M Core A) w :
  reported_once n (m (core w)).1 -> reported_once n (core (on_core m w).1).
Proof. unfold on_core. destruct (m (core w)). auto. Qed.

Lemma step_reported_once sz n s s' :
  step sz s s' ->
  reported_once n (core (world s)) -> reported_once n (core (world s')).
Proof.
  intros Hstep H. destruct Hstep.
  - unfold monitor_step. destruct (monitor s); try exact H.
    destruct (flag_running s); [|exact H].
    pose proof (reported_once_stop_event_handling n
                  (on_core (_check_events_body (additional_check_functions s)))
                  (world s)
                  (reported_once_on_core n _ _
                     (reported_once_monitor n _ _ H))) as K.
    destruct (_stop_event_handling _ (world s)) as [w r]. exact K.
  - unfold saver_step. destruct (saver s); try exact H.
    destruct (running (saver_locals s)).
    + pose proof (reported_once_stop_event_handling n
                    (saver_iteration sz clk (saver_locals s)) (world s)
                    (reported_once_rest n _ _
                       (keeps_rest_saver_iteration sz clk _ (world s)) H))
        as K.
      destruct (_stop_event_handling _ (world s)) as [w r]. exact K.
    + pose proof (reported_once_stop_event_handling n
                    (saver_final sz (saver_locals s)) (world s)
                    (reported_once_rest n _ _
                       (keeps_rest_saver_final sz _ (world s)) H)) as K.
      destruct (_stop_event_handling _ (world s)) as [w r]. exact K.
  - unfold main_step. destruct (main s); try exact H.
    + destruct (flag_running s); [exact H|].
      cbn [world with_main with_world].
      apply reported_once_on_core. exact H.
    + destruct (monitor s), (saver s); try exact H;
        cbn [world with_main with_world core];
        (destruct (verbose_in_1_2 (core (world s))); [|exact H]);
        unfold reported_once; rewrite reports_print; cbn;
        rewrite Nat.add_0_r; exact H.
  - cbn [world with_world]. apply reported_once_on_core.
    match goal with
    | |- reported_once n (?m ?c1).1 =>
        assert (K : keeps (fun x => (first x, stdout x)) m)
          by (unfold start_acquisition; frame_of);
        specialize (K c1); injection K as Kf Ko
    end.
    unfold reported_once, reports. rewrite Kf, Ko. exact H.
  - cbn [world with_world]. apply reported_once_on_core. exact H.
  - cbn [world with_world core].
    match goal with W : workers_progress _ _ |- _ =>
      rewrite (wp_core _ _ W) end.
    exact H.
  - cbn [world with_world].
    apply (reported_once_stop_event_handling (A := unit) n (raise e)).
    exact H.
Qed.

(** X13.  Over the steps of a session that starts with [first] set, the
    line "triggered." is printed at most once. *)
Theorem trigger_is_reported_at_most_once
    (pickled_size : gmap string Measurement -> Z) (s s' : Session) :
  steps pickled_size s s' ->
  first (core (world s)) = true ->
  reports (core (world s')) <= reports (core (world s)) + 1.
Proof.
  intros Hsteps Hfirst.
  assert (H : reported_once (reports (core (world s))) (core (world s'))).
  { induction Hsteps as [s|s1 s2 s3 _ IH Hstep].
    - unfold reported_once. rewrite Hfirst. lia.
    - eapply step_reported_once; eauto. }
  unfold reported_once in H. destruct (first (core (world s'))); lia.
Qed.

Lemma trigger_is_reported_at_most_once_witness :
  reports (core (world (monitor_step (monitor_step Scenario.reporting))))
  <= reports (core (world Scenario.reporting)) + 1.
Proof.
  apply (trigger_is_reported_at_most_once Sample.size_zero
           Scenario.reporting
           (monitor_step (monitor_step Scenario.reporting))).
  - eapply steps_step; [eapply steps_step; [apply steps_refl|]|];
      apply step_monitor.
  - reflexivity.
Defined.

(** ** The end of the saving loop *)

Lemma saver_iteration_running sz clk l w w' l' :
  saver_iteration sz clk l w = (w', Ok l') ->
  running l' = true \/ running l = false
  \/ is_running_global (core w) = false.
Proof.
  unfold saver_iteration, bind at 1, get at 1.
  destruct (is_running_global (core w)) eqn:Ef; [|auto].
  cbv beta iota zeta. unfold bind, get, ret, raise.
  destruct (running l) eqn:Er; [|auto].
  repeat match goal with
         | |- context [match ?x with _ => _ end] =>
             lazymatch x with
             | context [match _ with _ => _ end] => fail
             | _ => destruct x eqn:?
             end
         end; try discriminate; intros [= _ <-]; left; reflexivity.
Qed.

Lemma step_saver_exit_ok sz s s' :
  step sz s s' -> saver_exit_ok s -> saver_exit_ok s'.
Proof.
  intros Hstep [Hrun Hfin].
  pose proof (step_keeps_stopped sz s s' Hstep) as Hkeep.
  destruct Hstep.
  - unfold saver_exit_ok in *.
    assert (E : saver_locals (monitor_step s) = saver_locals s
                /\ saver (monitor_step s) = saver s).
    { unfold monitor_step. destruct (monitor s); auto.
      destruct (flag_running s); auto.
      destruct (_stop_event_handling _ (world s)) as [w r]. auto. }
    destruct E as [-> ->]. split; auto.
  - unfold saver_exit_ok in *. revert Hkeep. unfold saver_step.
    destruct (saver s) eqn:Es;
      [|intros _; split; [exact Hrun|intros _; exact (Hfin eq_refl)]
       |intros _; split; [exact Hrun|rewrite Es; discriminate]].
    destruct (running (saver_locals s)) eqn:Er.
    + pose proof (keeps_stop_event_handling _
                    (keeps_saver_iteration sz clk (saver_locals s))
                    (world s)) as K.
      unfold _stop_event_handling in *.
      destruct (saver_iteration sz clk (saver_locals s) (world s))
        as [w [l'|e]] eqn:Eit; cbn [fst] in K;
        cbn [saver saver_locals]; intros Hkeep.
      * split; [|discriminate]. intros Hl'.
        destruct (saver_iteration_running _ _ _ _ _ _ Eit) as [H|[H|H]];
          try congruence.
        change (running_of w = false). rewrite K. exact H.
      * split; [|discriminate]. congruence.
    + unfold _stop_event_handling.
      destruct (saver_final sz (saver_locals s) (world s)) as [w [[]|e]];
        cbn [saver saver_locals]; intros Hkeep;
        (split; [intros _; apply Hkeep; apply Hrun; reflexivity|]);
        intros H; first [exact Er | reflexivity | discriminate H].
  - unfold saver_exit_ok in *.
    assert (E : saver_locals (main_step s) = saver_locals s
                /\ saver (main_step s) = saver s).
    { unfold main_step.
      destruct (main s); [destruct (flag_running s)| |];
        try (split; reflexivity).
      destruct (monitor s); try (split; reflexivity);
        destruct (saver s) eqn:E; split; try reflexivity;
        cbn [saver with_main with_world]; exact E. }
    destruct E as [-> ->]. split; auto.
  - split; [intros Hl; apply Hkeep; exact (Hrun Hl)|exact Hfin].
  - split; [intros Hl; apply Hkeep; exact (Hrun Hl)|exact Hfin].
  - split; [intros Hl; apply Hkeep; exact (Hrun Hl)|exact Hfin].
  - split; [intros Hl; apply Hkeep; exact (Hrun Hl)|exact Hfin].
Qed.

(** X14.  The saving thread finishes, and so runs its final save, only
    once the running flag is cleared. *)
Theorem saving_ends_after_the_stop
    (pickled_size : gmap string Measurement -> Z) (s s' : Session) :
  steps pickled_size s s' ->
  saver s = Alive ->
  running (saver_locals s) = true ->
  saver s' = Finished ->
  flag_running s' = false.
Proof.
  intros Hsteps Halive Hrunning Hfinished.
  assert (H : saver_exit_ok s').
  { clear Hfinished. induction Hsteps as [s|s1 s2 s3 _ IH Hstep].
    - split; intros H; congruence.
    - eapply step_saver_exit_ok; eauto. }
  destruct H as [Hrun Hfin]. auto.
Qed.

Lemma saving_ends_after_the_stop_witness :
  flag_running
    (saver_step Sample.size_zero (Run.clock 2)
       (saver_step Sample.size_zero (Run.clock 1)
          (monitor_step (Run.source_ends Scenario.waiting)))) = false.
Proof.
  apply (saving_ends_after_the_stop Sample.size_zero Scenario.waiting
           (saver_step Sample.size_zero (Run.clock 2)
              (saver_step Sample.size_zero (Run.clock 1)
                 (monitor_step (Run.source_ends Scenario.waiting))))).
  - repeat (eapply steps_step;
            [|first [apply step_monitor | apply step_saver
                    | apply source_ends_is_a_step]]).
    apply steps_refl.
  - reflexivity.
  - reflexivity.
  - vm_compute. reflexivity.
Defined.

(** ** The two file names of a save tick *)

Lemma string_length_app (a b : string) :
  String.length (a +:+ b) = String.length a + String.length b.
Proof.
  induction a as [|c a IH]; [reflexivity|].
  change (S (String.length (a +:+ b)) = S (String.length a + String.length b)).
  f_equal. exact IH.
Qed.

Lemma path_join_same_head (dir : string) (ch : ascii) (x y : string) :
  path_join dir (String ch x) = path_join dir (String ch y) ->
  String.length x = String.length y.
Proof.
  unfold path_join.
  intros H.
  assert (Hlen := f_equal String.length H). clear H.
  destruct ch as [[] [] [] [] [] [] [] []];
    try (destruct (_ || _); rewrite ?string_length_app in Hlen; cbn in Hlen; lia);
    cbn in Hlen; lia.
Qed.

Lemma checked_path_is_not_written (base dir : string) :
  checked_path base dir 0 <> written_path base dir 0.
Proof.
  unfold checked_path, written_path.
  destruct (splitext base) as [stem ext].
  change (zfill 4 (str 0)) with "0000"%string.
  change (str 0) with "0"%string.
  intros H. destruct stem as [|ch stem].
  - apply (path_join_same_head dir "_" ("0000" +:+ ext) ("0" +:+ ext)) in H.
    rewrite !string_length_app in H. cbn in H. lia.
  - apply (path_join_same_head dir ch (stem +:+ "_" +:+ "0000" +:+ ext)
             (stem +:+ "_" +:+ "0" +:+ ext)) in H.
    rewrite !string_length_app in H. cbn in H. lia.
Qed.

(** ** The effect of a save tick on the disk *)

Lemma open_and_save_effect sz base dir idx w :
  match _open_and_save sz base dir idx w with
  | (w', Ok i) =>
      (exists data,
          disk w' = <[written_path base dir i :=
                        {| file_size := sz data; file_content := data |}]>
                      (disk w))
      /\ ((i = idx
           /\ forall f, disk w !! checked_path base dir idx = Some f ->
                        (file_size f < max_file_size)%Z)
          \/ (i = (idx + 1)%Z
              /\ exists f, disk w !! checked_path base dir idx = Some f
                           /\ (max_file_size <= file_size f)%Z))
  | (w', Raise _) => disk w' = disk w
  end.
Proof.
  unfold _open_and_save, checked_path, written_path.
  destruct (splitext base) as [stem ext].
  unfold bind, path_exists, getsize, get, load_measurement, lift_result, ret,
    dump, modify, on_core.
  repeat match goal with
         | |- context [match ?x with _ => _ end] =>
             lazymatch x with
             | context [match _ with _ => _ end] => fail
             | _ => destruct x eqn:?
             end
         end; cbn [fst snd disk]; try reflexivity.
  all: repeat match goal with
              | H : (_, _) = (_, _) |- _ => injection H as <- <-
              | H : Ok _ = Ok _ |- _ => injection H as <-
              | H : bool_decide _ = true |- _ =>
                  apply bool_decide_eq_true_1 in H
              | H : bool_decide ?P = false |- _ =>
                  let H' := fresh in
                  pose proof (proj1 (bool_decide_eq_false P) H) as H';
                  clear H
              | H : (_ <=? _)%Z = true |- _ => apply Z.leb_le in H
              | H : (_ <=? _)%Z = false |- _ => apply Z.leb_gt in H
              end.
  all: try discriminate.
  all: try (unfold max_file_size in *; lia).
  all: split; [eexists; reflexivity|].
  all: first
         [ left; split; [reflexivity|]; intros f' Hf';
           first [ injection Hf' as <-; assumption
                 | discriminate Hf'
                 | match goal with
                   | H : ~ is_Some _ |- _ => exfalso; apply H; eauto
                   end ]
         | right; split; [reflexivity|]; eexists; split;
           [reflexivity|assumption] ].
Qed.


(** ** A save tick appends *)

Lemma entry_extends_refl (e : Measurement) : entry_extends e e.
Proof.
  split; [reflexivity|]. split.
  - intros d Hd. exists d. split; [exact Hd|reflexivity].
  - intros v Hv. exists v. split; [exact Hv|].
    intros i b Hb. exists b. split; [exact Hb|reflexivity].
Qed.

Lemma concat_video_extends (new : list (list Frame)) :
  forall old v, concat_video old new = Ok v ->
    forall i b', v !! i = Some b' ->
      exists b, old !! i = Some b /\ b `prefix_of` b'.
Proof.
  induction new as [|n new IH]; intros old v; cbn [concat_video].
  - intros [= <-] i b' Hb. discriminate Hb.
  - destruct old as [|o old]; [discriminate|].
    destruct (concat_video old new) as [r|e] eqn:Hr; [|discriminate].
    intros [= <-] i b' Hb. destruct i as [|i].
    + injection Hb as <-. exists o. split; [reflexivity|].
      apply prefix_app_r. reflexivity.
    + apply (IH old r Hr i b' Hb).
Qed.

Lemma extend_entry_extends (e m e' : Measurement) (tl p : Q) :
  extend_entry e m tl p = Ok e' -> entry_extends e e'.
Proof.
  unfold extend_entry, entry_extends.
  destruct (m_data m) as [nd|], (m_data e) as [od|];
    destruct (m_video m) as [nv|], (m_video e) as [ov|];
    try discriminate;
    try (destruct (concat_video ov nv) as [v|err] eqn:Hc; [|discriminate]);
    intros [= <-]; cbn [m_time m_data m_video];
    (split; [apply prefix_app_r; reflexivity|]); split;
    try (intros ? [=]; fail).
  all: try (intros d [= <-]; eexists; split; [reflexivity|];
            first [apply prefix_app_r; reflexivity | reflexivity]).
  all: intros v0 [= <-]; eexists; (split; [reflexivity|]).
  all: try (apply (concat_video_extends nv ov v Hc)).
  all: intros i b Hb; exists b; split; [exact Hb|reflexivity].
Qed.

Lemma accumulator_extends_refl data : accumulator_extends data data.
Proof. intros name e H. exists e. split; [exact H|apply entry_extends_refl]. Qed.

Lemma entry_extends_trans e1 e2 e3 :
  entry_extends e1 e2 -> entry_extends e2 e3 -> entry_extends e1 e3.
Proof.
  intros (Ht & Hd & Hv) (Ht' & Hd' & Hv'). split; [|split].
  - etransitivity; eauto.
  - intros d H1. destruct (Hd d H1) as (d2 & H2 & P2).
    destruct (Hd' d2 H2) as (d3 & H3 & P3).
    exists d3. split; [exact H3|]. etransitivity; eauto.
  - intros v H1. destruct (Hv v H1) as (v2 & H2 & P2).
    destruct (Hv' v2 H2) as (v3 & H3 & P3).
    exists v3. split; [exact H3|]. intros i b3 Hb3.
    destruct (P3 i b3 Hb3) as (b2 & Hb2 & Q3).
    destruct (P2 i b2 Hb2) as (b1 & Hb1 & Q2).
    exists b1. split; [exact Hb1|]. etransitivity; eauto.
Qed.

Lemma accumulator_extends_trans d1 d2 d3 :
  accumulator_extends d1 d2 -> accumulator_extends d2 d3 ->
  accumulator_extends d1 d3.
Proof.
  intros H12 H23 name e1 H1.
  destruct (H12 name e1 H1) as (e2 & H2 & E12).
  destruct (H23 name e2 H2) as (e3 & H3 & E23).
  exists e3. split; [exact H3|]. eapply entry_extends_trans; eauto.
Qed.

Lemma update_loop_extends tld (idxs : list nat) :
  forall (c : Core) (data : gmap string Measurement) c' data',
    update_loop idxs tld data c = (c', Ok data') ->
    accumulator_extends data data'.
Proof.
  induction idxs as [|k idxs IH]; intros c data c' data'.
  - cbn. intros [= _ <-]. apply accumulator_extends_refl.
  - cbn [update_loop]. unfold bind at 1.
    destruct (acquisitions c !! k) as [a|] eqn:Ha.
    2:{ unfold update_iteration, bind, acquisition_at.
        rewrite getitem_of_nat, Ha. discriminate. }
    destruct (is_triggered a) eqn:Ht.
    + destruct (update_iteration_drains k tld data c a Ha Ht)
        as (r & -> & Hr).
      destruct r as [data1|err]; [|discriminate].
      destruct (Hr data1 eq_refl) as (e' & -> & Hnz & Hw).
      intros Hrun. apply IH in Hrun.
      eapply accumulator_extends_trans; [|exact Hrun].
      intros name e He.
      destruct (decide (name = acquisition_name a)) as [->|Hne].
      * rewrite He in Hw. destruct Hw as (tl & _ & Hext).
        exists e'. split; [apply lookup_insert_eq|].
        eapply extend_entry_extends; eauto.
      * exists e. split; [|apply entry_extends_refl].
        rewrite lookup_insert_ne by congruence. exact He.
    + rewrite (update_iteration_idle k tld data c a Ha Ht). apply IH.
Qed.

(** X16.  A save tick that returns keeps what the file it writes held:
    for every entry, the saved times and data rows are the first ones of
    the new entry, and each video block of the new entry starts with the
    saved block of that channel. *)
Theorem save_tick_appends (pickled_size : gmap string Measurement -> Z)
    (base dir : string) (idx : Z) (w w' : World) (i : Z) (f : File) :
  _open_and_save pickled_size base dir idx w = (w', Ok i) ->
  disk w !! written_path base dir i = Some f ->
  exists f', disk w' !! written_path base dir i = Some f'
             /\ accumulator_extends (file_content f) (file_content f').
Proof.
  unfold _open_and_save, written_path.
  destruct (splitext base) as [stem ext].
  unfold bind, path_exists, getsize, get, load_measurement, lift_result, ret,
    dump, modify, on_core.
  repeat match goal with
         | |- context [match ?x with _ => _ end] =>
             lazymatch x with
             | context [match _ with _ => _ end] => fail
             | _ => destruct x eqn:?
             end
         end; cbn [fst snd disk]; try discriminate.
  all: intros [= <- <-]; cbn [disk]; intros Hf.
  all: rewrite lookup_insert_eq; eexists; (split; [reflexivity|]).
  all: cbn [file_content].
  all: repeat match goal with
              | H : (_, _) = (_, _) |- _ => injection H as <- <-
              | H : Ok _ = Ok _ |- _ => injection H as <-
              end.
  all: try congruence.
  all: try match goal with
           | Hb : bool_decide (is_Some ?x) = false, Hf : ?x = Some _ |- _ =>
               rewrite Hf in Hb; discriminate Hb
           end.
  all: match goal with
       | H : update_loop _ _ ?d0 _ = (_, Ok ?d) |- _ =>
           apply update_loop_extends in H
       end.
  all: match goal with
       | H1 : ?x = Some ?f1, H2 : ?x = Some ?f2,
         H : accumulator_extends (file_content ?f1) ?d
         |- accumulator_extends (file_content ?f2) ?d =>
           rewrite H1 in H2; injection H2 as <-; exact H
       end.
Qed.

Lemma save_tick_appends_witness :
  exists f f',
    disk (world Run.filming_saved) !! "20240101_120000_Run_0.pkl" = Some f
    /\ disk (_open_and_save Sample.size_zero "20240101_120000_Run.pkl" "" 0
               (world Run.filming_saved)).1
         !! "20240101_120000_Run_0.pkl" = Some f'
    /\ accumulator_extends (file_content f) (file_content f').
Proof.
  assert (Hf : exists f,
            disk (world Run.filming_saved) !! "20240101_120000_Run_0.pkl"
            = Some f) by (vm_compute; eexists; reflexivity).
  destruct Hf as [f Hf]. exists f.
  destruct (save_tick_appends Sample.size_zero "20240101_120000_Run.pkl" ""
              0 (world Run.filming_saved)
              (_open_and_save Sample.size_zero "20240101_120000_Run.pkl" "" 0
                 (world Run.filming_saved)).1 0 f
              ltac:(vm_compute; reflexivity) Hf) as (f' & Hf' & Hext).
  exists f'. split; [exact Hf|]. split; [exact Hf'|exact Hext].
Defined.

(** ** The saving thread never rotates on a fresh directory *)

Lemma root_of_rest (w w' : World) :
  set_acquisitions [] (core w') = set_acquisitions [] (core w) ->
  root (core w') = root (core w).
Proof.
  intros H.
  change (root (set_acquisitions [] (core w'))
          = root (set_acquisitions [] (core w))).
  rewrite H. reflexivity.
Qed.

Lemma single_file_tick sz name l w :
  single_file l w ->
  (file_name l = None \/ file_name l = Some name) ->
  match _open_and_save sz name (root (core w)) (file_index l) w with
  | (w', Ok i) =>
      i = 0%Z
      /\ root (core w') = root (core w)
      /\ forall path, is_Some (disk w' !! path) ->
                      path = written_path name (root (core w)) 0
  | (w', Raise _) => disk w' = disk w /\ root (core w') = root (core w)
  end.
Proof.
  intros [Hidx Hfile] Hname. rewrite Hidx.
  pose proof (open_and_save_effect sz name (root (core w)) 0 w) as H.
  pose proof (keeps_rest_open_and_save sz name (root (core w)) 0 w) as R.
  apply root_of_rest in R.
  destruct (_open_and_save sz name (root (core w)) 0 w) as [w' [i|e]];
    cbn [fst] in R; [|auto].
  destruct H as [[data Hd] Hi].
  assert (Hnone : disk w !! checked_path name (root (core w)) 0 = None).
  { destruct (disk w !! checked_path name (root (core w)) 0) as [f|] eqn:E;
      [|reflexivity].
    exfalso. destruct Hname as [Hn|Hn]; rewrite Hn in Hfile.
    - destruct Hfile as [_ Hempty]. rewrite Hempty, lookup_empty in E.
      discriminate.
    - destruct Hfile as [_ Hpaths].
      apply (checked_path_is_not_written name (root (core w))).
      apply Hpaths. rewrite E. eauto. }
  assert (Hi0 : i = 0%Z).
  { destruct Hi as [[-> _]|[_ (f & Hf & _)]]; [reflexivity|congruence]. }
  subst i. split; [reflexivity|]. split; [exact R|].
  intros path Hp. rewrite Hd in Hp.
  destruct (decide (path = written_path name (root (core w)) 0))
    as [->|Hne]; [reflexivity|].
  rewrite lookup_insert_ne in Hp by congruence.
  destruct Hname as [Hn|Hn]; rewrite Hn in Hfile.
  - destruct Hfile as [_ Hempty]. rewrite Hempty, lookup_empty in Hp.
    destruct Hp as [? Hp]. discriminate Hp.
  - destruct Hfile as [_ Hpaths]. exact (Hpaths path Hp).
Qed.

Lemma single_file_same_disk l w w' :
  single_file l w -> disk w' = disk w -> root (core w') = root (core w) ->
  single_file l w'.
Proof.
  intros [Hidx Hfile] Hd Hr. split; [exact Hidx|].
  destruct (file_name l); rewrite ?Hd, ?Hr; exact Hfile.
Qed.

Lemma single_file_saver_iteration sz clk l w :
  single_file l w ->
  match saver_iteration sz clk l w with
  | (w', Ok l') => single_file l' w'
  | (w', Raise _) => single_file l w'
  end.
Proof.
  intros Hinv. unfold saver_iteration, bind at 1, get at 1.
  set (flags := if is_running_global (core w) then _ else _).
  destruct flags as [running' delay_start'].
  unfold bind at 1, get at 1.
  destruct (triggered_globally (core w)).
  2:{ destruct Hinv as [Hidx Hfile]. split; [exact Hidx|exact Hfile]. }
  unfold bind at 1.
  destruct (save_interval (core w)) as [interval|]; [|exact Hinv].
  unfold ret at 1.
  destruct (Qle_bool interval (t_elapsed clk - start_time l)).
  2:{ destruct Hinv as [Hidx Hfile]. split; [exact Hidx|exact Hfile]. }
  pose proof Hinv as [Hidx Hfile].
  destruct (file_created l) eqn:Hc; cbn [negb]; cbv iota beta.
  - destruct (file_name l) as [name|] eqn:Hn.
    2:{ destruct Hfile as [Hfalse _]. discriminate Hfalse. }
    unfold bind at 1, ret at 1. unfold bind at 1.
    pose proof (single_file_tick sz name l w Hinv (or_intror Hn)) as T.
    destruct (_open_and_save sz name (root (core w)) (file_index l) w)
      as [w' [i|e]].
    + destruct T as (-> & Hr & Hp). split; [reflexivity|].
      cbn [file_name file_created]. split; [reflexivity|].
      rewrite Hr. exact Hp.
    + destruct T as [Hd Hr]. apply (single_file_same_disk l w); auto.
  - destruct (file_name l) as [name0|] eqn:Hn.
    { destruct Hfile as [Htrue _]. discriminate Htrue. }
    unfold bind at 1, ret at 1. unfold bind at 1.
    set (name := (now_stamp clk +:+ "_" +:+ run_name (core w) +:+ ".pkl")).
    pose proof (single_file_tick sz name l w Hinv (or_introl Hn)) as T.
    destruct (_open_and_save sz name (root (core w)) (file_index l) w)
      as [w' [i|e]].
    + destruct T as (-> & Hr & Hp). split; [reflexivity|].
      cbn [file_name file_created]. split; [reflexivity|].
      rewrite Hr. exact Hp.
    + destruct T as [Hd Hr]. apply (single_file_same_disk l w); auto.
Qed.

Lemma single_file_saver_final sz l w :
  single_file l w -> single_file l (saver_final sz l w).1.
Proof.
  intros Hinv. unfold saver_final, bind at 1, get at 1.
  destruct (triggered_globally (core w)); [|exact Hinv].
  unfold bind at 1.
  destruct (file_name l) as [name|] eqn:Hn; [|exact Hinv].
  unfold ret at 1. unfold bind at 1.
  pose proof (single_file_tick sz name l w Hinv (or_intror Hn)) as T.
  destruct (_open_and_save sz name (root (core w)) (file_index l) w)
    as [w' [i|e]]; cbv beta iota; unfold ret; cbn [fst].
  - destruct T as (_ & Hr & Hp). destruct Hinv as [Hidx Hfile].
    split; [exact Hidx|]. rewrite Hn in Hfile |- *.
    split; [exact (proj1 Hfile)|]. rewrite Hr. exact Hp.
  - destruct T as [Hd Hr]. apply (single_file_same_disk l w); auto.
Qed.

Lemma single_file_stop_event_handling {A} (func : M World A) l w :
  single_file l (func w).1 -> single_file l (_stop_event_handling func w).1.
Proof.
  unfold _stop_event_handling. destruct (func w) as [w' [a|e]]; auto.
Qed.

Lemma single_file_on_core {A} (m : M Core A) l w :
  keeps root m -> single_file l w -> single_file l (on_core m w).1.
Proof.
  intros K H. apply (single_file_same_disk l w); auto.
  - apply disk_on_core.
  - apply (keeps_on_core root m K w).
Qed.

Lemma keeps_root_body checks : keeps root (_check_events_body checks).
Proof.
  unfold _check_events_body, start_acquisition,
    stop_acquisition_and_generation.
  frame_of.
Qed.

Lemma keeps_root_start : keeps root start_acquisition.
Proof. unfold start_acquisition. frame_of. Qed.

Lemma keeps_root_stop : keeps root stop_acquisition_and_generation.
Proof. unfold stop_acquisition_and_generation. frame_of. Qed.

Lemma step_single_file sz s s' :
  step sz s s' ->
  single_file (saver_locals s) (world s) ->
  single_file (saver_locals s') (world s').
Proof.
  intros Hstep H. destruct Hstep.
  - unfold monitor_step. destruct (monitor s); try exact H.
    destruct (flag_running s); [|exact H].
    pose proof (single_file_stop_event_handling
                  (on_core (_check_events_body (additional_check_functions s)))
                  (saver_locals s) (world s)
                  (single_file_on_core _ _ _ (keeps_root_body _) H)) as K.
    destruct (_stop_event_handling _ (world s)) as [w r]. exact K.
  - unfold saver_step. destruct (saver s); try exact H.
    destruct (running (saver_locals s)).
    + pose proof (single_file_saver_iteration sz clk (saver_locals s)
                    (world s) H) as K.
      unfold _stop_event_handling.
      destruct (saver_iteration sz clk (saver_locals s) (world s))
        as [w [l'|e]]; exact K.
    + pose proof (single_file_stop_event_handling
                    (saver_final sz (saver_locals s))
                    (saver_locals s) (world s)
                    (single_file_saver_final sz _ _ H)) as K.
      destruct (_stop_event_handling _ (world s)) as [w r]. exact K.
  - unfold main_step. destruct (main s); try exact H.
    + destruct (flag_running s); [exact H|].
      cbn [world saver_locals with_main with_world].
      apply single_file_on_core; [apply keeps_root_stop|exact H].
    + destruct (monitor s), (saver s); try exact H;
        cbn [world saver_locals with_main with_world];
        (apply (single_file_same_disk _ (world s)); [exact H|reflexivity|]);
        cbn [core]; destruct (verbose_in_1_2 _); reflexivity.
  - cbn [world saver_locals with_world].
    apply single_file_on_core; [apply keeps_root_start|exact H].
  - cbn [world saver_locals with_world].
    apply single_file_on_core; [apply keeps_root_stop|exact H].
  - cbn [world saver_locals with_world].
    apply (single_file_same_disk _ (world s)); [exact H|reflexivity|].
    cbn [core].
    match goal with W : workers_progress _ _ |- _ =>
      rewrite (wp_core _ _ W) end.
    reflexivity.
  - cbn [world saver_locals with_world].
    apply single_file_stop_event_handling. exact H.
Qed.

(** X17.  In a session started on an empty disk, the saving thread never
    advances its file index, and the disk holds at most one file: the file
    whose size is checked (padded index) is not the file that is written. *)
Theorem saving_never_rotates_on_a_fresh_directory
    (pickled_size : gmap string Measurement -> Z) (c : Core)
    (checks : option (list (Core -> bool))) (now : Q) (s : Session) :
  steps pickled_size (session_start c ∅ checks now) s ->
  file_index (saver_locals s) = 0%Z
  /\ forall path path',
       is_Some (disk (world s) !! path) ->
       is_Some (disk (world s) !! path') ->
       path = path'.
Proof.
  intros Hsteps.
  assert (H : single_file (saver_locals s) (world s)).
  { remember (session_start c ∅ checks now) as s0 eqn:E.
    induction Hsteps as [s|s1 s2 s3 _ IH Hstep].
    - subst s. split; [reflexivity|]. split; reflexivity.
    - eapply step_single_file; eauto. }
  destruct H as [Hidx Hfile]. split; [exact Hidx|].
  intros path path' Hp Hp'.
  destruct (file_name (saver_locals s)) as [name|].
  - destruct Hfile as [_ Hpaths].
    rewrite (Hpaths path Hp), (Hpaths path' Hp'). reflexivity.
  - destruct Hfile as [_ Hempty]. rewrite Hempty, lookup_empty in Hp.
    destruct Hp as [? Hp]. discriminate Hp.
Qed.

Lemma saving_never_rotates_on_a_fresh_directory_witness :
  file_index (saver_locals Run.filming_saved) = 0%Z.
Proof.
  apply (saving_never_rotates_on_a_fresh_directory Sample.size_zero
           (run_setup None false (Some 5%Q) "Run" "" 0
              (new_core [Sample.recording "A" 1 Run.with_video] [] []))
           None 0 Run.filming_saved).
  unfold Run.filming_saved.
  eapply steps_step; [eapply steps_step; [apply steps_refl|]|].
  - apply step_monitor.
  - apply step_saver.
Defined.

(** ** A save tick saves what it drains *)

Lemma extend_entry_time (e m e' : Measurement) (tl p : Q) :
  extend_entry e m tl p = Ok e' ->
  length (m_time e') = length (m_time e) + length (m_time m).
Proof.
  unfold extend_entry.
  destruct (m_data m) as [nd|], (m_data e) as [od|];
    destruct (m_video m) as [nv|], (m_video e) as [ov|];
    try discriminate;
    try (destruct (concat_video ov nv) as [v|err]; [|discriminate]);
    intros [= <-]; cbn [m_time]; rewrite length_app, length_map; reflexivity.
Qed.

Lemma entry_written_saved tld data a e' :
  entry_written tld data a e' ->
  length (m_time e')
  = saved data (acquisition_name a) + length (m_time (new_samples a)).
Proof.
  intros [_ H]. unfold saved.
  destruct (data !! acquisition_name a) as [e|].
  - destruct H as (tl & _ & Hext). eapply extend_entry_time; eauto.
  - destruct H as (carried & _ & ->). cbn [m_time first_entry].
    rewrite length_map. reflexivity.
Qed.

Lemma update_loop_saves tld (m : nat) :
  forall (k : nat) (c : Core) (data : gmap string Measurement) c' data',
    NoDup (map acquisition_name (acquisitions c)) ->
    update_loop (seq k m) tld data c = (c', Ok data') ->
    (forall j a, acquisitions c !! j = Some a ->
       acquisitions c' !! j
       = Some (if within k m j then after_tick a else a))
    /\ length (acquisitions c') = length (acquisitions c)
    /\ (forall j a, acquisitions c !! j = Some a ->
          saved data' (acquisition_name a)
          = saved data (acquisition_name a)
            + (if within k m j then pending a else 0)).
Proof.
  induction m as [|m IH]; intros k c data c' data' Hnd.
  - cbn. intros [= <- <-]. split; [|split; [reflexivity|]].
    + intros j a Ha. replace (within k 0 j) with false; [exact Ha|].
      symmetry. apply within_false. lia.
    + intros j a Ha. replace (within k 0 j) with false; [lia|].
      symmetry. apply within_false. lia.
  - cbn [seq update_loop]. unfold bind at 1.
    destruct (acquisitions c !! k) as [ak|] eqn:Hak.
    2:{ unfold update_iteration, bind, acquisition_at.
        rewrite getitem_of_nat, Hak. discriminate. }
    assert (Hwithin : forall j, j <> k ->
              within k (S m) j = within (S k) m j).
    { intros j Hj. destruct (within (S k) m j) eqn:W.
      - apply within_true in W. apply within_true. lia.
      - apply within_false in W. apply within_false. lia. }
    assert (Hk1 : within k (S m) k = true) by (apply within_true; lia).
    assert (Hk2 : within (S k) m k = false) by (apply within_false; lia).
    destruct (is_triggered ak) eqn:Ht.
    + destruct (update_iteration_drains k tld data c ak Hak Ht)
        as (r & -> & Hr).
      destruct r as [data1|err]; [|discriminate].
      destruct (Hr data1 eq_refl) as (e' & -> & Hw).
      intros Hrun. apply IH in Hrun.
      2:{ cbn [acquisitions set_acquisitions].
          rewrite (names_insert_drained _ _ _ Hak). exact Hnd. }
      destruct Hrun as (Hacq & Hlen & Hsaved).
      cbn [acquisitions set_acquisitions] in Hacq, Hlen, Hsaved.
      assert (Hkl : k < length (acquisitions c))
        by (eapply lookup_lt_Some; eauto).
      split; [|split].
      * intros j a Ha. destruct (Nat.eq_dec j k) as [->|Hne].
        -- assert (a = ak) by congruence. subst a.
           rewrite (Hacq k (drained ak)), Hk1, Hk2.
           ++ unfold after_tick. rewrite Ht. reflexivity.
           ++ apply list_lookup_insert_eq. exact Hkl.
        -- rewrite (Hacq j a), (Hwithin j Hne); [reflexivity|].
           rewrite list_lookup_insert_ne by auto. exact Ha.
      * rewrite Hlen. apply length_insert.
      * intros j a Ha. destruct (Nat.eq_dec j k) as [->|Hne].
        -- assert (a = ak) by congruence. subst a.
           rewrite <- (drained_name ak).
           rewrite (Hsaved k (drained ak)), Hk1, Hk2.
           2:{ apply list_lookup_insert_eq. exact Hkl. }
           rewrite drained_name. unfold saved at 1.
           rewrite lookup_insert_eq.
           rewrite (entry_written_saved _ _ _ _ Hw).
           unfold pending. rewrite Ht. lia.
        -- rewrite (Hsaved j a), (Hwithin j Hne).
           2:{ rewrite list_lookup_insert_ne by auto. exact Ha. }
           unfold saved at 1. rewrite lookup_insert_ne; [reflexivity|].
           eapply names_distinct; eauto.
    + rewrite (update_iteration_idle k tld data c ak Hak Ht).
      intros Hrun. apply IH in Hrun; [|exact Hnd].
      destruct Hrun as (Hacq & Hlen & Hsaved).
      split; [|split; [exact Hlen|]].
      * intros j a Ha. rewrite (Hacq j a Ha).
        destruct (Nat.eq_dec j k) as [->|Hne].
        -- assert (a = ak) by congruence. subst a.
           rewrite Hk1, Hk2. unfold after_tick. rewrite Ht. reflexivity.
        -- rewrite (Hwithin j Hne). reflexivity.
      * intros j a Ha. rewrite (Hsaved j a Ha).
        destruct (Nat.eq_dec j k) as [->|Hne].
        -- assert (a = ak) by congruence. subst a.
           rewrite Hk1, Hk2. unfold pending. rewrite Ht. reflexivity.
        -- rewrite (Hwithin j Hne). reflexivity.
Qed.

Lemma open_and_save_shape sz base dir idx w w' i :
  _open_and_save sz base dir idx w = (w', Ok i) ->
  exists tld data',
    update_loop (seq 0 (length (acquisitions (core w)))) tld
      (content_at (disk w) (written_path base dir i)) (core w)
    = (core w', Ok data')
    /\ disk w'
       = <[written_path base dir i :=
             {| file_size := sz data'; file_content := data' |}]> (disk w).
Proof.
  unfold _open_and_save, written_path.
  destruct (splitext base) as [stem ext].
  unfold bind, path_exists, getsize, get, load_measurement, lift_result, ret,
    dump, modify, on_core.
  repeat match goal with
         | |- context [match ?x with _ => _ end] =>
             lazymatch x with
             | context [match _ with _ => _ end] => fail
             | _ => destruct x eqn:?
             end
         end; cbn [fst snd disk]; try discriminate.
  all: intros [= <- <-]; cbn [disk core].
  all: repeat match goal with
              | H : (_, _) = (_, _) |- _ => injection H as <- <-
              | H : Ok _ = Ok _ |- _ => injection H as <-
              end.
  all: eexists _, _; (split; [|reflexivity]).
  all: unfold content_at.
  all: repeat match goal with
              | H : ?x = Some _ |- context [?x] => rewrite H
              | H : bool_decide (is_Some ?x) = false |- context [?x] =>
                  let E := fresh in
                  destruct x eqn:E;
                  [rewrite bool_decide_eq_true_2 in H by eauto; discriminate|]
              end.
  all: match goal with
       | H : update_loop _ _ _ _ = _ |- _ => exact H
       end.
Qed.

(** X18.  A save tick that returns, the names of the sources being
    distinct, drains every triggered source and leaves the others as they
    were; for every source, the file it writes then holds as many more
    samples as were pending on the source. *)
Theorem save_tick_saves_what_it_drains
    (pickled_size : gmap string Measurement -> Z) (base dir : string)
    (idx : Z) (w w' : World) (i : Z) :
  NoDup (map acquisition_name (acquisitions (core w))) ->
  _open_and_save pickled_size base dir idx w = (w', Ok i) ->
  acquisitions (core w') = map after_tick (acquisitions (core w))
  /\ forall a, a ∈ acquisitions (core w) ->
       saved_in (disk w') (written_path base dir i) (acquisition_name a)
       = saved_in (disk w) (written_path base dir i) (acquisition_name a)
         + pending a.
Proof.
  intros Hnd Hrun.
  destruct (open_and_save_shape _ _ _ _ _ _ _ Hrun)
    as (tld & data' & Hloop & Hdisk).
  apply (update_loop_saves _ _ 0 _ _ _ _ Hnd) in Hloop.
  destruct Hloop as (Hacq & Hlen & Hsaved).
  assert (Hin : forall j a, acquisitions (core w) !! j = Some a ->
            within 0 (length (acquisitions (core w))) j = true).
  { intros j a Ha. apply within_true. apply lookup_lt_Some in Ha. lia. }
  split.
  - apply list_eq. intros j.
    change (map after_tick) with (fmap (M := list) after_tick).
    rewrite list_lookup_fmap.
    destruct (acquisitions (core w) !! j) as [a|] eqn:Ha.
    + rewrite (Hacq j a Ha), (Hin j a Ha). reflexivity.
    + apply lookup_ge_None. rewrite Hlen. apply lookup_ge_None. exact Ha.
  - intros a Ha. apply list_elem_of_lookup in Ha as [j Ha].
    unfold saved_in. rewrite Hdisk. unfold content_at at 1.
    rewrite lookup_insert_eq. cbn [file_content].
    rewrite (Hsaved j a Ha), (Hin j a Ha). reflexivity.
Qed.

Lemma save_tick_saves_what_it_drains_witness :
  saved_in
    (disk (_open_and_save Sample.size_zero "20240101_120000_Run.pkl" "" 0
             Run.saving_world).1)
    "20240101_120000_Run_0.pkl" "A"
  = saved_in (disk Run.saving_world) "20240101_120000_Run_0.pkl" "A" + 2.
Proof.
  apply (proj2 (save_tick_saves_what_it_drains Sample.size_zero
                  "20240101_120000_Run.pkl" "" 0 Run.saving_world
                  (_open_and_save Sample.size_zero "20240101_120000_Run.pkl"
                     "" 0 Run.saving_world).1 0
                  ltac:(vm_compute; apply NoDup_singleton)
                  ltac:(vm_compute; reflexivity))
           Run.saving_source).
  vm_compute. left.
Defined.

(** ** The generator for NI hardware *)

(** X19.  [stop] on an NI generator never raises and leaves it not
    running and without task; when a task was present it has been cleared,
    zeros have been generated on a fresh task and that task cleared; a
    second [stop] changes nothing. *)
Theorem ni_stop_zeroes_the_output_once (g : NI.NIGenerator) :
  let g1 := (NI.stop g).1 in
  NI.stop g = (g1, Ok tt)
  /\ NI.is_running g1 = false
  /\ NI.Task g1 = None
  /\ NI.task_calls g1
     = NI.task_calls g
       ++ match NI.Task g with
          | Some task => [NI.Call_clear_task task; NI.Call_generate_zeros;
                          NI.Call_clear_task NI.DAQ]
          | None => []
          end
  /\ NI.stop g1 = (g1, Ok tt).
Proof.
  destruct g as [r u t [k|] calls]; cbn;
    rewrite <- ?app_assoc, ?app_nil_r; repeat split.
Qed.

(** X20.  After [stop], [run_generation] returns: the task is created
    again (a copy of the given task, or a task of the given name), the
    generator is running, and the signal is generated once, after
    [initiate] for a given task. *)
Theorem ni_run_after_stop_restores_the_task (g : NI.NIGenerator) :
  let g1 := (NI.stop g).1 in
  let task := if NI.NITask_used g then NI.NIOutput else NI.DAQ in
  exists g2,
    NI.run_generation g1 = (g2, Ok tt)
    /\ NI.is_running g2 = true
    /\ NI.task_terminated g2 = false
    /\ NI.Task g2 = Some task
    /\ NI.task_calls g2
       = NI.task_calls g1
         ++ (if NI.NITask_used g then [NI.Call_initiate] else [])
         ++ [NI.Call_generate task].
Proof.
  destruct g as [r [] t [k|] calls]; cbn; eexists;
    (split; [reflexivity|]); cbn;
    rewrite <- ?app_assoc, ?app_nil_r; repeat split.
Qed.

(** X21.  After [clear_task] called on its own (the task not marked as
    terminated), [generate] and [run_generation] raise [AttributeError] for
    [Task], and [run_generation] leaves [is_running] set. *)
Theorem ni_clear_task_disables_the_generator (g : NI.NIGenerator) :
  NI.task_terminated g = false ->
  let g1 := (NI.clear_task g).1 in
  NI.clear_task g = (g1, Ok tt)
  /\ (NI.run_generation g1).2 = Raise (NI.AttributeError "Task")
  /\ NI.is_running (NI.run_generation g1).1 = true
  /\ (NI.generate g1).2 = Raise (NI.AttributeError "Task").
Proof.
  destruct g as [r [] t [k|] calls]; cbn; intros ->; repeat split.
Qed.

Lemma ni_clear_task_disables_the_generator_witness :
  (NI.run_generation (NI.clear_task (NI.__init__ false)).1).2
  = Raise (NI.AttributeError "Task").
Proof.
  exact (proj1 (proj2 (ni_clear_task_disables_the_generator
                         (NI.__init__ false) eq_refl))).
Defined.

(** ** The layout of the visualization *)

Lemma int_monotone (x y : Q) : (x <= y)%Q -> (int x <= int y)%Z.
Proof.
  destruct x as [a b], y as [c d]. unfold Qle, int. cbn [Qnum Qden].
  intros H.
  rewrite <- (Z.quot_mul_cancel_r a (Z.pos b) (Z.pos d)) by lia.
  rewrite <- (Z.quot_mul_cancel_r c (Z.pos d) (Z.pos b)) by lia.
  rewrite (Z.mul_comm (Z.pos d) (Z.pos b)).
  apply Z.quot_le_mono; lia.
Qed.

Lemma fold_max_ge (xs : list Q) :
  forall m, (m <= fold_left (fun m y => if Qltb m y then y else m) xs m)%Q
            /\ forall x, x ∈ xs ->
                 (x <= fold_left (fun m y => if Qltb m y then y else m) xs m)%Q.
Proof.
  induction xs as [|y xs IH]; intros m; cbn [fold_left].
  - split; [lra|]. intros x Hx. inversion Hx.
  - destruct (IH (if Qltb m y then y else m)) as [Hm Hall].
    assert (Hstep : (m <= (if Qltb m y then y else m))%Q
                    /\ (y <= (if Qltb m y then y else m))%Q).
    { unfold Qltb. destruct (Qle_bool y m) eqn:E; cbn [negb].
      - apply Qle_bool_iff in E. split; lra.
      - assert (~ (y <= m)%Q) by (rewrite <- Qle_bool_iff; congruence).
        split; lra. }
    split; [lra|]. intros x Hx.
    apply elem_of_cons in Hx as [->|Hx]; [lra|auto].
Qed.

Lemma vis_max_ge (xs : list Q) (m x : Q) :
  Vis.max xs = Ok m -> x ∈ xs -> (x <= m)%Q.
Proof.
  destruct xs as [|y xs]; [discriminate|]. cbn. intros [= <-] Hx.
  destruct (fold_max_ge xs y) as [Hy Hall].
  apply elem_of_cons in Hx as [->|Hx]; auto.
Qed.

Lemma positions_of_spec (ps : list (string * list Vis.Plot)) source lines
    plot xy :
  (source, lines) ∈ ps -> plot ∈ lines -> Vis.pos plot = Some xy ->
  xy ∈ Vis.positions_of ps.
Proof.
  intros Hs Hl Hp. unfold Vis.positions_of.
  apply list_elem_of_omap. exists (Some xy). split; [|reflexivity].
  apply elem_of_reverse, elem_of_remove_dups. rewrite <- Hp.
  apply list_elem_of_In, in_map. unfold Vis.all_plots.
  apply in_concat. exists lines. split.
  - apply (in_map snd _ (source, lines)), list_elem_of_In. exact Hs.
  - apply list_elem_of_In. exact Hl.
Qed.

Lemma complete_has_both (o : Vis.Options) :
  is_Some (Vis.xlim (Vis.complete o)) /\ is_Some (Vis.t_span (Vis.complete o)).
Proof.
  unfold Vis.complete.
  destruct (Vis.xlim o) as [[lo hi]|] eqn:Ex, (Vis.t_span o) as [t|] eqn:Et;
    cbn; rewrite ?Ex, ?Et; split; eauto.
Qed.

Lemma defaults_loop (poss : list (Z * Z)) :
  forall vis,
    exists opts,
      for_each poss (fun pos =>
        let* vis := get in
        if bool_decide (is_Some (Vis.subplot_options vis !! pos)) then ret tt
        else modify (Vis.set_subplot_options
                       (<[pos := Vis.default_options]>
                          (Vis.subplot_options vis)))) vis
      = (Vis.set_subplot_options opts vis, Ok tt)
      /\ (forall pos, pos ∈ poss -> is_Some (opts !! pos))
      /\ (forall pos o, Vis.subplot_options vis !! pos = Some o ->
                        opts !! pos = Some o)
      /\ (forall pos o, opts !! pos = Some o ->
                        Vis.subplot_options vis !! pos = Some o
                        \/ (Vis.subplot_options vis !! pos = None
                            /\ o = Vis.default_options)).
Proof.
  induction poss as [|p poss IH]; intros vis.
  - exists (Vis.subplot_options vis). split; [destruct vis; reflexivity|].
    split; [intros pos H; inversion H|]. split; auto.
  - cbn [for_each]. unfold bind at 1. unfold bind at 1, get at 1.
    destruct (Vis.subplot_options vis !! p) as [o|] eqn:Ep.
    + rewrite bool_decide_eq_true_2 by eauto. unfold ret at 1.
      destruct (IH vis) as (opts & Hrun & Hin & Hkeep & Hfrom).
      exists opts. split; [exact Hrun|]. split; [|split; assumption].
      intros pos Hpos. apply elem_of_cons in Hpos as [->|Hpos]; [|auto].
      rewrite (Hkeep p o Ep). eauto.
    + rewrite bool_decide_eq_false_2 by (intros [? ?]; discriminate).
      unfold modify at 1.
      destruct (IH (Vis.set_subplot_options
                      (<[p := Vis.default_options]> (Vis.subplot_options vis))
                      vis)) as (opts & Hrun & Hin & Hkeep & Hfrom).
      cbn [Vis.subplot_options Vis.set_subplot_options] in Hkeep, Hfrom.
      exists opts. split; [exact Hrun|]. split; [|split].
      * intros pos Hpos. apply elem_of_cons in Hpos as [->|Hpos]; [|auto].
        rewrite (Hkeep p Vis.default_options); [eauto|].
        apply lookup_insert_eq.
      * intros pos o Ho. apply Hkeep.
        rewrite lookup_insert_ne by congruence. exact Ho.
      * intros pos o Ho. destruct (Hfrom pos o Ho) as [H|[H ->]].
        -- destruct (decide (p = pos)) as [->|Hne].
           ++ rewrite lookup_insert_eq in H. injection H as <-. auto.
           ++ rewrite lookup_insert_ne in H by exact Hne. auto.
        -- destruct (decide (p = pos)) as [->|Hne].
           ++ rewrite lookup_insert_eq in H. discriminate.
           ++ rewrite lookup_insert_ne in H by exact Hne. auto.
Qed.

Lemma check_subplot_options_spec (vis : Vis.Visualization)
    (ps : list (string * list Vis.Plot)) :
  Vis.plots vis = Some ps ->
  exists opts,
    Vis.check_subplot_options vis
    = (Vis.set_subplot_options (Vis.complete <$> opts)
         (Vis.set_positions (Vis.positions_of ps) vis), Ok tt)
    /\ (forall pos, pos ∈ Vis.positions_of ps -> is_Some (opts !! pos))
    /\ (forall pos o, Vis.subplot_options vis !! pos = Some o ->
                      opts !! pos = Some o)
    /\ (forall pos o, opts !! pos = Some o ->
                      Vis.subplot_options vis !! pos = Some o
                      \/ (Vis.subplot_options vis !! pos = None
                          /\ o = Vis.default_options)).
Proof.
  intros Hps. unfold Vis.check_subplot_options.
  unfold bind at 1, get at 1. rewrite Hps.
  unfold bind at 1, ret at 1. unfold bind at 1, modify at 1.
  unfold bind at 1, get at 1. unfold bind at 1.
  cbn [Vis.positions Vis.set_positions].
  destruct (defaults_loop (Vis.positions_of ps)
              (Vis.set_positions (Vis.positions_of ps) vis))
    as (opts & Hrun & Hin & Hkeep & Hfrom).
  rewrite Hrun. exists opts. split; [|split; [|split]]; auto.
Qed.

(** X22.  On a visualization with plots, [check_subplot_options] returns;
    afterwards the subplot of every line has options, every entry of the
    options has both [xlim] and [t_span], the values that were given are
    kept, a missing [t_span] is the width of [xlim] and a missing [xlim] is
    [(0, t_span)]. *)
Theorem check_subplot_options_completes (vis : Vis.Visualization)
    (ps : list (string * list Vis.Plot)) :
  Vis.plots vis = Some ps ->
  exists vis',
    Vis.check_subplot_options vis = (vis', Ok tt)
    /\ (forall source lines plot xy,
          (source, lines) ∈ ps -> plot ∈ lines -> Vis.pos plot = Some xy ->
          is_Some (Vis.subplot_options vis' !! xy))
    /\ (forall pos o',
          Vis.subplot_options vis' !! pos = Some o' ->
          is_Some (Vis.xlim o') /\ is_Some (Vis.t_span o'))
    /\ (forall pos o,
          Vis.subplot_options vis !! pos = Some o ->
          exists o',
            Vis.subplot_options vis' !! pos = Some o'
            /\ (forall x, Vis.xlim o = Some x -> Vis.xlim o' = Some x)
            /\ (forall t, Vis.t_span o = Some t -> Vis.t_span o' = Some t)
            /\ (forall lo hi, Vis.xlim o = Some (lo, hi) ->
                  Vis.t_span o = None -> Vis.t_span o' = Some (hi - lo)%Q)
            /\ (forall t, Vis.xlim o = None -> Vis.t_span o = Some t ->
                  Vis.xlim o' = Some (0, t)%Q)).
Proof.
  intros Hps.
  destruct (check_subplot_options_spec vis ps Hps)
    as (opts & Hrun & Hin & Hkeep & Hfrom).
  eexists. split; [exact Hrun|].
  cbn [Vis.subplot_options Vis.set_subplot_options].
  split; [|split].
  - intros source lines plot xy Hs Hl Hp.
    destruct (Hin xy (positions_of_spec ps source lines plot xy Hs Hl Hp))
      as [o Ho].
    rewrite lookup_fmap, Ho. cbn. eauto.
  - intros pos o'. rewrite lookup_fmap.
    destruct (opts !! pos) as [o|]; [|discriminate].
    cbn. intros [= <-]. apply complete_has_both.
  - intros pos o Ho. exists (Vis.complete o).
    rewrite lookup_fmap, (Hkeep pos o Ho). split; [reflexivity|].
    unfold Vis.complete.
    destruct (Vis.xlim o) as [[lo hi]|] eqn:Ex, (Vis.t_span o) as [t|] eqn:Et;
      cbn; rewrite ?Ex, ?Et; repeat split; congruence.
Qed.

Lemma comprehension_spec {A B} (f : A -> result B) (xs : list A) :
  (forall x, x ∈ xs -> exists y, f x = Ok y) ->
  exists ys, Vis.comprehension f xs = Ok ys
             /\ forall x y, x ∈ xs -> f x = Ok y -> y ∈ ys.
Proof.
  induction xs as [|x xs IH]; intros Hall.
  - exists []. split; [reflexivity|]. intros x y Hx. inversion Hx.
  - destruct (Hall x ltac:(left)) as [y Hy].
    destruct IH as (ys & Hys & Hin).
    { intros z Hz. apply Hall. right. exact Hz. }
    exists (y :: ys). split.
    + cbn [Vis.comprehension]. rewrite Hy, Hys. reflexivity.
    + intros z w Hz Hw. apply elem_of_cons in Hz as [->|Hz].
      * assert (w = y) as -> by congruence. left.
      * right. eauto.
Qed.


(** ** The refresh rates of the visualization *)

Lemma append_plot_spec source plot ps :
  Vis.has_source source ps = true ->
  exists ps',
    Vis.append_plot source plot ps = Ok ps'
    /\ Vis.has_source source ps' = true
    /\ forall p, p ∈ Vis.all_plots ps'
         <-> p = plot \/ p ∈ Vis.all_plots ps.
Proof.
  unfold Vis.all_plots, Vis.has_source.
  induction ps as [|[s lines] ps IH]; cbn [Vis.append_plot existsb];
    [discriminate|].
  destruct (String.eqb s source) eqn:E; cbn [orb].
  - intros _. eexists. split; [reflexivity|]. split.
    + cbn [existsb]. rewrite E. reflexivity.
    + intros p. cbn [map concat snd].
      rewrite !elem_of_app, elem_of_cons, elem_of_nil. tauto.
  - intros H. destruct (IH H) as (ps' & -> & Hhas & Hmem).
    eexists. split; [reflexivity|]. split.
    + cbn [existsb]. rewrite E, Hhas. reflexivity.
    + intros p. cbn [map concat snd]. rewrite !elem_of_app, Hmem. tauto.
Qed.

Lemma add_lines_loop position source nth rate (chans : list Vis.PlotChannels) :
  forall vis ps,
    Vis.plots vis = Some ps ->
    Vis.has_source source ps = true ->
    exists ps',
      for_each chans (fun channel =>
        let* vis := get in
        match Vis.plots vis with
        | Some ps =>
            let* ps' :=
              lift_result
                (Vis.append_plot source
                   {| Vis.pos := Some position; Vis.channels := channel;
                      Vis.nth := nth;
                      Vis.since_refresh := Vis.never_refreshed;
                      Vis.refresh_rate := rate |} ps) in
            modify (Vis.set_plots (Some ps'))
        | None => raise TypeError
        end) vis
      = (Vis.set_plots (Some ps') vis, Ok tt)
      /\ forall p, p ∈ Vis.all_plots ps'
           <-> p ∈ Vis.all_plots ps
               \/ exists ch, ch ∈ chans
                    /\ p = {| Vis.pos := Some position; Vis.channels := ch;
                              Vis.nth := nth;
                              Vis.since_refresh := Vis.never_refreshed;
                              Vis.refresh_rate := rate |}.
Proof.
  induction chans as [|ch chans IH]; intros vis ps Hps Hhas.
  - exists ps. split.
    + cbn. unfold ret. f_equal. destruct vis; cbn in *. subst. reflexivity.
    + intros p. split; [auto|]. intros [H|(c & Hc & _)]; [exact H|].
      inversion Hc.
  - cbn [for_each]. unfold bind at 1. unfold bind at 1, get at 1.
    rewrite Hps. unfold bind at 1, lift_result at 1.
    destruct (append_plot_spec source
                {| Vis.pos := Some position; Vis.channels := ch;
                   Vis.nth := nth; Vis.since_refresh := Vis.never_refreshed;
                   Vis.refresh_rate := rate |} ps Hhas)
      as (ps1 & -> & Hhas1 & Hmem1).
    unfold modify at 1.
    destruct (IH (Vis.set_plots (Some ps1) vis) ps1 eq_refl Hhas1)
      as (ps' & Hrun & Hmem).
    exists ps'. split; [exact Hrun|].
    intros p. rewrite Hmem, Hmem1. split.
    + intros [[->|H]|(c & Hc & ->)]; eauto.
      * right. exists ch. split; [left|reflexivity].
      * right. exists c. split; [right; exact Hc|reflexivity].
    + intros [H|(c & Hc & ->)]; [auto|].
      apply elem_of_cons in Hc as [->|Hc]; eauto.
Qed.

Lemma all_plots_new_source ps source :
  Vis.all_plots (ps ++ [(source, [])]) = Vis.all_plots ps.
Proof.
  unfold Vis.all_plots. rewrite map_app, concat_app. cbn.
  apply app_nil_r.
Qed.

Lemma has_source_new ps source :
  Vis.has_source source (ps ++ [(source, [])]) = true.
Proof.
  unfold Vis.has_source. rewrite existsb_app. cbn.
  rewrite String.eqb_refl. apply orb_true_iff. right. reflexivity.
Qed.

Lemma add_lines_spec (vis : Vis.Visualization) position source chans nth
    (refresh_rate : option Z) :
  Vis.update_refresh_rate vis <> 0%Z ->
  let requested :=
    match refresh_rate with
    | Some r => if (r =? 0)%Z then Vis.vis_refresh_rate vis else r
    | None => Vis.vis_refresh_rate vis
    end in
  let rate := (Vis.update_refresh_rate vis
               * (requested / Vis.update_refresh_rate vis))%Z in
  exists ps',
    Vis.add_lines position source chans nth refresh_rate vis
    = (Vis.set_plots (Some ps') vis, Ok tt)
    /\ forall p, p ∈ Vis.all_plots ps'
         <-> p ∈ Vis.all_plots (default [] (Vis.plots vis))
             \/ exists ch, ch ∈ chans
                  /\ p = {| Vis.pos := Some position; Vis.channels := ch;
                            Vis.nth := nth;
                            Vis.since_refresh := Vis.never_refreshed;
                            Vis.refresh_rate := rate |}.
Proof.
  intros Hu requested rate. unfold Vis.add_lines.
  unfold bind at 1, modify at 1. unfold bind at 1, get at 1.
  unfold bind at 1.
  assert (H2 : exists ps2,
            (let vis1 := match Vis.plots vis with
                         | Some _ => vis
                         | None => Vis.set_plots (Some []) vis
                         end in
             match Vis.plots vis1 with
             | Some ps =>
                 if Vis.has_source source ps then ret tt
                 else modify (Vis.set_plots (Some (ps ++ [(source, [])])))
             | None => raise (Vis.AttributeError "keys")
             end vis1) = (Vis.set_plots (Some ps2) vis, Ok tt)
            /\ Vis.has_source source ps2 = true
            /\ Vis.all_plots ps2
               = Vis.all_plots (default [] (Vis.plots vis))).
  { destruct vis as [a b c [ps|] d e f]; cbn.
    - destruct (Vis.has_source source ps) eqn:E; eexists;
        (split; [reflexivity|]); split;
        auto using has_source_new, all_plots_new_source.
    - eexists. split; [reflexivity|]. split; [|reflexivity].
      cbn. rewrite String.eqb_refl. reflexivity. }
  destruct H2 as (ps2 & Hrun2 & Hhas & Hall). cbv zeta in Hrun2.
  rewrite Hrun2.
  unfold bind at 1, get at 1. unfold bind at 1.
  cbn [Vis.update_refresh_rate Vis.vis_refresh_rate Vis.set_plots].
  fold requested.
  unfold bind at 1, lift_result at 1, Vis.floordiv.
  apply Z.eqb_neq in Hu. rewrite Hu.
  unfold ret at 1. fold rate.
  destruct (add_lines_loop position source nth rate chans
              (Vis.set_plots (Some ps2) vis) ps2 eq_refl Hhas)
    as (ps' & Hrun & Hmem).
  exists ps'. split.
  - etransitivity; [exact Hrun|]. reflexivity.
  - intros p. rewrite Hmem, Hall. reflexivity.
Qed.

(** X24.  With the update interval of 10 ms, [add_lines] with a non-zero
    refresh rate [r] adds one line per channel whose refresh rate is [r]
    rounded down to a multiple of 10: at most [r], more than [r - 10], and 0
    when [r] is below 10. *)
Theorem add_lines_rounds_the_refresh_rate (vis : Vis.Visualization)
    (position : Z * Z) (source : string) (chans : list Vis.PlotChannels)
    (nth : option Z) (r : Z) :
  Vis.update_refresh_rate vis = 10%Z ->
  r <> 0%Z ->
  exists vis' ps',
    Vis.add_lines position source chans nth (Some r) vis = (vis', Ok tt)
    /\ Vis.plots vis' = Some ps'
    /\ (forall ch, ch ∈ chans ->
          exists plot,
            plot ∈ Vis.all_plots ps'
            /\ Vis.pos plot = Some position
            /\ Vis.channels plot = ch
            /\ Vis.refresh_rate plot = (10 * (r / 10))%Z)
    /\ (r - 10 < 10 * (r / 10) <= r)%Z
    /\ ((0 < r < 10)%Z -> (10 * (r / 10) = 0)%Z).
Proof.
  intros Hu Hr.
  destruct (add_lines_spec vis position source chans nth (Some r))
    as (ps' & Hrun & Hmem); [lia|].
  apply Z.eqb_neq in Hr. rewrite Hr, Hu in Hmem.
  eexists _, ps'. split; [exact Hrun|]. split; [reflexivity|].
  split; [|split].
  - intros ch Hch. eexists. split; [apply Hmem; right; eauto|].
    repeat split.
  - pose proof (Z.mod_pos_bound r 10 ltac:(lia)).
    pose proof (Z.div_mod r 10 ltac:(lia)). lia.
  - intros H. rewrite Z.div_small by lia. reflexivity.
Qed.

Lemma add_lines_rounds_the_refresh_rate_witness :
  exists vis' ps',
    Vis.add_lines (0, 0)%Z "A" [Vis.Single 0] None (Some 25%Z)
      (Vis.__init__ 100 true) = (vis', Ok tt)
    /\ Vis.plots vis' = Some ps'
    /\ exists plot, plot ∈ Vis.all_plots ps'
                    /\ Vis.refresh_rate plot = (10 * (25 / 10))%Z.
Proof.
  destruct (add_lines_rounds_the_refresh_rate (Vis.__init__ 100 true)
              (0, 0)%Z "A" [Vis.Single 0] None 25 eq_refl
              ltac:(discriminate))
    as (vis' & ps' & Hrun & Hps & Hall & _).
  exists vis', ps'. split; [exact Hrun|]. split; [exact Hps|].
  destruct (Hall (Vis.Single 0) ltac:(left)) as (plot & Hin & _ & _ & Hr).
  exists plot. split; [exact Hin|exact Hr].
Defined.

Lemma fold_min_spec (xs : list Z) :
  forall m,
    let r := fold_left (fun m y => if (y <? m)%Z then y else m) xs m in
    (r = m \/ r ∈ xs) /\ (r <= m)%Z /\ forall x, x ∈ xs -> (r <= x)%Z.
Proof.
  induction xs as [|y xs IH]; intros m; cbn [fold_left].
  - split; [auto|]. split; [lia|]. intros x Hx. inversion Hx.
  - destruct (IH (if (y <? m)%Z then y else m)) as (Hin & Hle & Hall).
    cbv zeta in *.
    set (r := fold_left _ xs _) in *.
    destruct (Z.ltb_spec y m).
    + split; [|split].
      * destruct Hin as [->|Hin]; right; [left|right; exact Hin].
      * lia.
      * intros x Hx. apply elem_of_cons in Hx as [->|Hx]; [lia|auto].
    + split; [|split].
      * destruct Hin as [->|Hin]; [left; reflexivity|right; right; exact Hin].
      * lia.
      * intros x Hx. apply elem_of_cons in Hx as [->|Hx]; [lia|auto].
Qed.

Lemma min_of_non_negative (xs : list Z) :
  0%Z ∈ xs -> (forall x, x ∈ xs -> (0 <= x)%Z) -> Vis.min xs = Ok 0%Z.
Proof.
  destruct xs as [|y xs]; [intros H; inversion H|].
  intros H0 Hall. cbn [Vis.min]. f_equal.
  destruct (fold_min_spec xs y) as (Hin & Hle & Hmin).
  cbv zeta in *. set (r := fold_left _ xs _) in *.
  assert (Hr : (0 <= r)%Z).
  { destruct Hin as [->|Hin]; [apply Hall; left|apply Hall; right; exact Hin]. }
  apply elem_of_cons in H0 as [<-|H0]; [lia|].
  specialize (Hmin 0%Z H0). lia.
Qed.

Lemma init_plots_rates_zero (vis : Vis.Visualization) ps plot :
  Vis.plots vis = Some ps ->
  Vis.sequential_plot_updates vis = true ->
  plot ∈ Vis.all_plots ps -> Vis.refresh_rate plot = 0%Z ->
  (forall p, p ∈ Vis.all_plots ps -> (0 <= Vis.refresh_rate p)%Z) ->
  Vis.init_plots_rates vis = (vis, Raise ZeroDivisionError).
Proof.
  intros Hps Hseq Hin Hzero Hall. unfold Vis.init_plots_rates.
  unfold bind at 1, get at 1. rewrite Hps. unfold bind at 1, ret at 1.
  unfold bind at 1, lift_result at 1.
  rewrite min_of_non_negative.
  - rewrite Hseq. unfold bind at 1, lift_result at 1.
    rewrite truediv_ok.
    2:{ change 0%Q with (inject_Z 0). rewrite inject_Z_injective. lia. }
    unfold bind at 1, lift_result at 1. reflexivity.
  - apply elem_of_remove_dups. rewrite <- Hzero.
    apply list_elem_of_In, in_map, list_elem_of_In. exact Hin.
  - intros x Hx. rewrite elem_of_remove_dups in Hx.
    apply list_elem_of_In in Hx.
    apply in_map_iff in Hx as (p & <- & Hp). apply Hall, list_elem_of_In.
    exact Hp.
Qed.

(** X25.  With sequential plot updates, after [add_lines] with a refresh
    rate between 1 and 9 ms (no line having a negative rate), the sizing of
    the refresh in [MainWindow.init_plots] raises [ZeroDivisionError]. *)
Theorem short_refresh_rate_divides_by_zero (vis : Vis.Visualization)
    (position : Z * Z) (source : string) (chans : list Vis.PlotChannels)
    (nth : option Z) (r : Z) :
  Vis.update_refresh_rate vis = 10%Z ->
  Vis.sequential_plot_updates vis = true ->
  (0 < r < 10)%Z ->
  chans <> [] ->
  (forall ps p, Vis.plots vis = Some ps -> p ∈ Vis.all_plots ps ->
                (0 <= Vis.refresh_rate p)%Z) ->
  exists vis',
    Vis.add_lines position source chans nth (Some r) vis = (vis', Ok tt)
    /\ Vis.init_plots_rates vis' = (vis', Raise ZeroDivisionError).
Proof.
  intros Hu Hseq Hr Hne Hpos.
  destruct (add_lines_spec vis position source chans nth (Some r))
    as (ps' & Hrun & Hmem); [lia|].
  replace (r =? 0)%Z with false in Hmem by (symmetry; apply Z.eqb_neq; lia).
  rewrite Hu, Z.div_small in Hmem by lia. cbn [Z.mul] in Hmem.
  eexists. split; [exact Hrun|].
  destruct chans as [|ch chans]; [congruence|].
  eapply (init_plots_rates_zero _ ps').
  - reflexivity.
  - exact Hseq.
  - apply Hmem. right. exists ch. split; [left|reflexivity].
  - reflexivity.
  - intros p Hp. apply Hmem in Hp as [Hp|(c & _ & ->)]; [|cbn; lia].
    destruct (Vis.plots vis) as [ps|] eqn:E; cbn in Hp.
    + exact (Hpos ps p eq_refl Hp).
    + inversion Hp.
Qed.

Lemma short_refresh_rate_divides_by_zero_witness :
  exists vis',
    Vis.add_lines (0, 0)%Z "A" [Vis.Single 0] None (Some 5%Z)
      (Vis.__init__ 100 true) = (vis', Ok tt)
    /\ Vis.init_plots_rates vis' = (vis', Raise ZeroDivisionError).
Proof.
  apply (short_refresh_rate_divides_by_zero (Vis.__init__ 100 true)
           (0, 0)%Z "A" [Vis.Single 0] None 5 eq_refl eq_refl).
  - lia.
  - discriminate.
  - intros ps p H. discriminate H.
Defined.

Lemma check_subplot_options_completes_witness :
  exists vis',
    Vis.check_subplot_options Vis.sample = (vis', Ok tt)
    /\ is_Some (Vis.subplot_options vis' !! (0, 0)%Z).
Proof.
  destruct (check_subplot_options_completes Vis.sample
              [("A"%string, [Vis.sample_plot])] eq_refl)
    as (vis' & Hrun & Hpos & _).
  exists vis'. split; [exact Hrun|].
  apply (Hpos "A"%string [Vis.sample_plot] Vis.sample_plot (0, 0)%Z);
    [left|left|reflexivity].
Defined.

